(** * nanotrappy: trap analysis and power sweep of [utils/viz.py]

    A shallow embedding of the curve-analysis routines of the [Viz] class
    ([get_min_trap], [get_trapfreq], [get_coord_trap_outside_structure],
    [optimize], [optimize_gui]) together with the parts of numpy and scipy
    they call, followed by the properties of these routines.

    Arrays of float64 are lists of binary64 floats, Python exceptions are the
    [Raise] outcome of a result type, and Python tuples, which are unpacked
    dynamically, are lists of Python values. *)

From Stdlib Require Import ZArith Floats String Lia.
From stdpp Require Import base list.

#[local] Set Warnings "-inexact-float".
Local Open Scope nat_scope.

(** ** Exceptions and outcomes *)

Inductive exn : Type :=
  | ValueError (msg : string)
  | TypeError (msg : string)
  | IndexError
  | LinAlgError.

Inductive result (A : Type) : Type :=
  | Ok (a : A)
  | Raise (e : exn).
Arguments Ok {A} a.
Arguments Raise {A} e.

#[export] Instance result_ret : MRet result := fun A a => Ok a.
#[export] Instance result_bind : MBind result := fun A B f r =>
  match r with
  | Ok a => f a
  | Raise e => Raise e
  end.

#[export] Instance result_fmap : FMap result := fun A B f r =>
  match r with
  | Ok a => Ok (f a)
  | Raise e => Raise e
  end.

Definition is_ok {A} (r : result A) : bool :=
  match r with Ok _ => true | Raise _ => false end.

(** ** Python values

    [get_min_trap] returns tuples whose components are numpy integers,
    Python integers or floats ([np.nan] included), and its callers unpack
    them by position. *)

Inductive pyval : Type :=
  | PyInt (n : Z)
  | PyFloat (f : float).

Definition as_float (v : pyval) : float :=
  match v with
  | PyInt Z0 => 0%float
  | PyInt (Zpos p) => of_uint63 (Uint63.of_Z (Zpos p))
  | PyInt (Zneg p) => (- of_uint63 (Uint63.of_Z (Zpos p)))%float
  | PyFloat f => f
  end.

(** [a, b, c, d = t] *)
Definition unpack4 (t : list pyval) : result (pyval * pyval * pyval * pyval) :=
  match t with
  | [a; b; c; d] => Ok (a, b, c, d)
  | _ :: _ :: _ :: _ :: _ :: _ => Raise (ValueError "too many values to unpack (expected 4)")
  | _ => Raise (ValueError "not enough values to unpack")
  end.

(** [a, b, c, d, e = t] *)
Definition unpack5 (t : list pyval) : result (pyval * pyval * pyval * pyval * pyval) :=
  match t with
  | [a; b; c; d; e] => Ok (a, b, c, d, e)
  | _ :: _ :: _ :: _ :: _ :: _ :: _ => Raise (ValueError "too many values to unpack (expected 5)")
  | _ => Raise (ValueError "not enough values to unpack")
  end.

(** ** numpy *)

Module Np.

Definition nan : float := PrimFloat.nan.

(** [np.isnan] on a scalar; an integer is never NaN. *)
Definition isnan (x : float) : bool := PrimFloat.is_nan x.

Definition isnan_py (v : pyval) : bool :=
  match v with
  | PyInt _ => false
  | PyFloat f => isnan f
  end.

(** [a[i]] for a non-negative index. *)
Definition getitem {A} (a : list A) (i : nat) : result A :=
  match a !! i with
  | Some x => Ok x
  | None => Raise IndexError
  end.

(** [a[i]] for a signed index: a negative index counts from the end. *)
Definition getitem_Z {A} (a : list A) (i : Z) : result A :=
  if (i <? 0)%Z
  then (if (i + Z.of_nat (length a) <? 0)%Z then Raise IndexError
        else getitem a (Z.to_nat (i + Z.of_nat (length a))))
  else getitem a (Z.to_nat i).

(** [a[lo:]] and [a[lo:hi]] for non-negative bounds; slices never raise. *)
Definition slice_from {A} (a : list A) (lo : nat) : list A := drop lo a.
Definition slice {A} (a : list A) (lo hi : nat) : list A := take (hi - lo) (drop lo a).

(** [a - c], [a + c], [-a], [np.abs(a)] on arrays. *)
Definition sub_scalar (a : list float) (c : float) : list float :=
  (fun x => (x - c)%float) <$> a.
Definition add_scalar (a : list float) (c : float) : list float :=
  (fun x => (x + c)%float) <$> a.
Definition neg (a : list float) : list float := PrimFloat.opp <$> a.
Definition abs (a : list float) : list float := PrimFloat.abs <$> a.

(** The scan of [np.argmin]: [mp] is the running minimum found at [best],
    [i] the index of the head of the remaining samples.  A sample replaces
    the running minimum when [not (mp <= sample)]; a NaN stops the scan. *)
Fixpoint argmin_scan (mp : float) (best i : nat) (a : list float) : nat :=
  match a with
  | [] => best
  | x :: a' =>
      if (mp <=? x)%float then argmin_scan mp best (S i) a'
      else if isnan x then i
      else argmin_scan x i (S i) a'
  end.

(** [np.argmin(a)]: index of the first occurrence of the minimum, of the
    first NaN when there is one; raises on an empty array. *)
Definition argmin (a : list float) : result nat :=
  match a with
  | [] => Raise (ValueError "attempt to get argmin of an empty sequence")
  | x :: a' => if isnan x then Ok 0 else Ok (argmin_scan x 0 1 a')
  end.

(** [a[idx]] for an array of indices (fancy indexing). *)
Definition take_indices {A} (a : list A) (idx : list nat) : result (list A) :=
  mapM (M := result) (getitem a) idx.

End Np.

(** ** scipy.signal.find_peaks

    The peak finder of scipy, transcribed from its algorithm for the
    conditions the analysis uses: [height], [distance] and [prominence].
    Its loops over array positions take the length of the array as fuel. *)

Module Scipy.

(** The properties dictionary; an entry that the call does not request is
    left empty. *)
Record properties : Type := Properties {
  peak_heights : list float;
  prominences : list float;
  left_bases : list nat;
  right_bases : list nat
}.

Definition at_ (x : list float) (i : nat) : float := default Np.nan (x !! i).

(** [_local_maxima_1d]: the inner scan finds the next sample unequal to
    [x[i]] (a plateau counts as one maximum, reported at its midpoint). *)
Fixpoint skip_plateau (fuel : nat) (x : list float) (i i_ahead i_max : nat) : nat :=
  match fuel with
  | 0 => i_ahead
  | S fuel' =>
      if (i_ahead <? i_max) && (at_ x i_ahead =? at_ x i)%float
      then skip_plateau fuel' x i (S i_ahead) i_max
      else i_ahead
  end.

Fixpoint local_maxima_loop (fuel : nat) (x : list float) (i i_max : nat) : list nat :=
  match fuel with
  | 0 => []
  | S fuel' =>
      if i <? i_max then
        if (at_ x (i - 1) <? at_ x i)%float then
          let i_ahead := skip_plateau (length x) x i (i + 1) i_max in
          if (at_ x i_ahead <? at_ x i)%float
          then ((i + (i_ahead - 1)) / 2) :: local_maxima_loop fuel' x (i_ahead + 1) i_max
          else local_maxima_loop fuel' x (i + 1) i_max
        else local_maxima_loop fuel' x (i + 1) i_max
      else []
  end.

Definition local_maxima_1d (x : list float) : list nat :=
  local_maxima_loop (length x) x 1 (length x - 1).

(** [array[keep]] for a boolean mask. *)
Fixpoint select {A} (a : list A) (keep : list bool) : list A :=
  match a, keep with
  | v :: a', k :: keep' => if k then v :: select a' keep' else select a' keep'
  | _, _ => []
  end.

(** [_select_by_property] with a lower bound only. *)
Definition select_by_property (values : list float) (pmin : float) : list bool :=
  (fun v => (pmin <=? v)%float) <$> values.

(** [np.argsort(priority)]: positions in increasing order of priority.
    numpy fixes no order among equal priorities; the order of the positions
    is kept here (a stable insertion sort). *)
Fixpoint argsort_insert (priority : list float) (j : nat) (sorted : list nat) : list nat :=
  match sorted with
  | [] => [j]
  | k :: sorted' =>
      if (at_ priority j <? at_ priority k)%float then j :: sorted
      else k :: argsort_insert priority j sorted'
  end.

Definition argsort (priority : list float) : list nat :=
  foldl (fun sorted j => argsort_insert priority j sorted) [] (seq 0 (length priority)).

(** [_select_by_peak_distance]: peaks are visited by decreasing priority;
    a kept peak drops its neighbours closer than [distance]. *)
Fixpoint flag_earlier (peaks : list nat) (j k1 distance : nat) (keep : list bool) : list bool :=
  match k1 with
  | 0 => keep
  | S k =>
      if default 0 (peaks !! j) - default 0 (peaks !! k) <? distance
      then flag_earlier peaks j k distance (<[k := false]> keep)
      else keep
  end.

Fixpoint flag_later (fuel : nat) (peaks : list nat) (j k distance : nat) (keep : list bool) : list bool :=
  match fuel with
  | 0 => keep
  | S fuel' =>
      if (k <? length peaks) && (default 0 (peaks !! k) - default 0 (peaks !! j) <? distance)
      then flag_later fuel' peaks j (S k) distance (<[k := false]> keep)
      else keep
  end.

Definition select_by_peak_distance (peaks : list nat) (priority : list float) (distance : nat)
  : list bool :=
  foldl (fun keep j =>
           if default false (keep !! j)
           then flag_later (length peaks) peaks j (S j) distance
                  (flag_earlier peaks j j distance keep)
           else keep)
        (replicate (length peaks) true)
        (reverse (argsort priority)).

(** [_peak_prominences] without a window: the bases are the lowest samples
    between the peak and the next higher sample on either side. *)
Fixpoint left_scan (x : list float) (peak i1 : nat) (left_min : float) (base : nat)
  : float * nat :=
  match i1 with
  | 0 => (left_min, base)
  | S i =>
      if (at_ x i <=? at_ x peak)%float then
        if (at_ x i <? left_min)%float then left_scan x peak i (at_ x i) i
        else left_scan x peak i left_min base
      else (left_min, base)
  end.

Fixpoint right_scan (fuel : nat) (x : list float) (peak i : nat) (right_min : float) (base : nat)
  : float * nat :=
  match fuel with
  | 0 => (right_min, base)
  | S fuel' =>
      if (i <? length x) && (at_ x i <=? at_ x peak)%float then
        if (at_ x i <? right_min)%float then right_scan fuel' x peak (S i) (at_ x i) i
        else right_scan fuel' x peak (S i) right_min base
      else (right_min, base)
  end.

Definition fmax (a b : float) : float := if (a <? b)%float then b else a.

Definition peak_prominence (x : list float) (peak : nat) : float * nat * nat :=
  let '(left_min, left_base) := left_scan x peak (S peak) (at_ x peak) peak in
  let '(right_min, right_base) := right_scan (length x) x peak peak (at_ x peak) peak in
  ((at_ x peak - fmax left_min right_min)%float, left_base, right_base).

Definition find_peaks (x : list float)
    (height : option float) (distance : option nat) (prominence : option float)
  : result (list nat * properties) :=
  if bool_decide (distance = Some 0)
  then Raise (ValueError "`distance` must be greater or equal to 1")
  else
    let peaks := local_maxima_1d x in
    (* height condition *)
    let '(peaks, heights) :=
      match height with
      | Some hmin =>
          let peak_heights := at_ x <$> peaks in
          let keep := select_by_property peak_heights hmin in
          (select peaks keep, select peak_heights keep)
      | None => (peaks, [])
      end in
    (* distance condition *)
    let '(peaks, heights) :=
      match distance with
      | Some d =>
          let keep := select_by_peak_distance peaks (at_ x <$> peaks) d in
          (select peaks keep, select heights keep)
      | None => (peaks, heights)
      end in
    (* prominence condition *)
    match prominence with
    | Some pmin =>
        let proms := peak_prominence x <$> peaks in
        let keep := select_by_property ((fun p => p.1.1) <$> proms) pmin in
        Ok (select peaks keep,
            {| peak_heights := select heights keep;
               prominences := select ((fun p => p.1.1) <$> proms) keep;
               left_bases := select ((fun p => p.1.2) <$> proms) keep;
               right_bases := select ((fun p => p.2) <$> proms) keep |})
    | None =>
        Ok (peaks, {| peak_heights := heights; prominences := [];
                      left_bases := []; right_bases := [] |})
    end.

End Scipy.

(** ** Collaborators of the [Viz] class

    The numerical routines of numpy that the analysis calls but that are not
    transcribed here: they are taken as given, with the exceptions they may
    raise. *)

Class Numerics : Type := {
  (** [np.arange(start, stop, step)] *)
  arange : float -> float -> float -> list float;
  (** [np.polyfit(x, y, deg)]: raises [LinAlgError] when the least-squares
      problem does not converge and [TypeError] on malformed samples. *)
  polyfit : list float -> list float -> nat -> result (list float);
  (** [np.gradient(f, x)] *)
  gradient : list float -> list float -> result (list float)
}.

(** The physical constants of [nanotrappy.utils.physicalunits]. *)
Class Units : Type := {
  kB : float;
  mK : float;
  kHz : float
}.

(** The simulation object [self.simul], seen through the attributes and
    methods the analysis uses.  Arrays with an mf-state axis have one row
    per sample and one column per mf state. *)
Class Simulation (S : Type) : Type := {
  (** [simul.axis] *)
  simul_axis : S -> list float;
  (** [simul.trap.set_powers(powers)] *)
  set_powers : list float -> S -> S;
  (** [np.real(simul.total_potential())] *)
  total_potential : S -> list (list float);
  (** [simul.atomicsystem.atom.mass] *)
  atom_mass : S -> float;
  (** [simul.atomicsystem.f] *)
  atomicsystem_f : S -> Z;
  (** [type(simul.surface).__name__] *)
  surface_name : S -> string;
  (** [np.real(simul.compute_potential_1D(axis, coord1, coord2))], with the
      simulation it leaves behind *)
  compute_potential_1D : string -> float -> float -> S -> S * list (list float);
  (** [simul.CP] *)
  simul_CP : S -> list (list float);
  (** [set_axis_from_axis(axis, simul)] of [nanotrappy.utils.utils] *)
  set_axis_from_axis : string -> S -> list float;
  (** [check_mf(f, mf)] of [nanotrappy.utils.utils] *)
  check_mf : Z -> Z -> Z * Z
}.

(** [a[lo:, j]] on a two-dimensional array. *)
Definition column_from (a : list (list float)) (lo : nat) (j : Z) : result (list float) :=
  mapM (M := result) (fun row => Np.getitem_Z row j) (drop lo a).

(** [np.poly1d(c)(x)]: Horner evaluation, highest degree first. *)
Definition poly1d (c : list float) (x : list float) : list float :=
  (fun v => foldl (fun acc pv => (acc * v + pv)%float) 0%float c) <$> x.

Definition pi : float := 3.141592653589793%float.

(** Modelled from the spec: [find_nearest] lives in
    [nanotrappy/utils/utils.py], which is not among the sources; it gives the
    index of the sample nearest to a value, as [np.argmin(np.abs(array - value))]
    does in [get_coord_trap_outside_structure]. *)
Definition find_nearest (array : list float) (value : float) : result nat :=
  Np.argmin (Np.abs (Np.sub_scalar array value)).

(** Modelled from the spec: [nan_to_zeros] lives in
    [nanotrappy/utils/utils.py], which is not among the sources; it replaces,
    in place, every NaN of each grid it is given by 0. *)
Definition nan_to_zeros (grid : list (list float)) : list (list float) :=
  (fun row : list float => (fun v => if Np.isnan v then 0%float else v) <$> row) <$> grid.

(** [np.zeros((n1, n2))] and [grid[i, j] = v]. *)
Definition zeros (n1 n2 : nat) : list (list float) := replicate n1 (replicate n2 0%float).

Definition setitem2 (grid : list (list float)) (i j : nat) (v : float)
  : result (list (list float)) :=
  match grid !! i with
  | Some row =>
      if bool_decide (j < length row) then Ok (<[i := <[j := v]> row]> grid)
      else Raise IndexError
  | None => Raise IndexError
  end.

(** [grid *= c] *)
Definition imul (grid : list (list float)) (c : float) : list (list float) :=
  (fun row : list float => (fun v => (v * c)%float) <$> row) <$> grid.

(** [for i, x in enumerate(l): body], started at index [i]. *)
Fixpoint for_enumerate {A St : Type} (body : nat -> A -> St -> result St)
    (i : nat) (l : list A) (st : St) : result St :=
  match l with
  | [] => Ok st
  | x :: l' => st' ← body i x st; for_enumerate body (S i) l' st'
  end.

(** Modelled from the spec: [progressbar_enumerate] lives in
    [nanotrappy/utils/utils.py], which is not among the sources; it
    enumerates a sequence as [enumerate] does and reports the progress under
    a prefix, on a bar of the given size, without altering the computation. *)
Definition progressbar_enumerate {A St : Type} (body : nat -> A -> St -> result St)
    (l : list A) (prefix : string) (size : nat) (st : St) : result St :=
  for_enumerate body 0 l st.

(** [a[v]] where the index is a Python value: numpy refuses a float. *)
Definition getitem_py {A} (a : list A) (v : pyval) : result A :=
  match v with
  | PyInt n => Np.getitem_Z a n
  | PyFloat _ => Raise IndexError
  end.

(** The Qt signals of the class: [_signal], [benchmark] (its payload, an
    elapsed wall-clock time, is left out) and [finished]. *)
Inductive signal : Type :=
  | Progress
  | Benchmark
  | Finished.

Definition grids : Type :=
  (list (list float) * list (list float) * list (list float) * list (list float))%type.

(** ** The [Viz] class *)

Section Viz.

Context `{Numerics} `{Units} {S : Type} `{Simulation S}.

(** The instance attributes the methods below read or write. *)
Record Viz : Type := MkViz {
  simul : S;
  trapping_axis : string;
  optim_res : option grids;
  emitted : list signal
}.

(** [get_min_trap].  The arrays are one-dimensional here, so the guard on
    [np.ndim(trap_outside) >= 3] never fires.  The [print] calls evaluate
    [y_outside[...]], which is kept since it may raise. *)
Definition get_min_trap (y_outside trap_outside : list float)
    (edge_no_surface : option float) : result (list pyval) :=
  local_minima ← Scipy.find_peaks (Np.neg trap_outside) None (Some 10) (Some 5e-4%float);
  let peaks := local_minima.1 in
  let props := local_minima.2 in
  if length peaks =? 0 then
    Ok [PyFloat Np.nan; PyFloat Np.nan; PyInt 0; PyInt 0; PyFloat Np.nan]
  else if (length peaks =? 1) && (5 <? default 0 (peaks !! 0)) then
    i0 ← Np.getitem peaks 0;
    _ ← Np.getitem y_outside i0;
    pos ← Np.getitem y_outside i0;
    depth ← Np.getitem trap_outside i0;
    prom ← Np.getitem (Scipy.prominences props) 0;
    base ← Np.getitem (Scipy.left_bases props) 0;
    Ok [PyInt (Z.of_nat i0); PyFloat pos; PyFloat depth; PyFloat (- prom)%float;
        PyInt (Z.of_nat base)]
  else if (length peaks =? 1) && (default 0 (peaks !! 0) <=? 5) then
    Ok [PyFloat Np.nan; PyFloat Np.nan; PyInt 0; PyInt 0; PyFloat Np.nan]
  else
    candidates ← Np.take_indices trap_outside peaks;
    arg ← Np.argmin candidates;
    imin ← Np.getitem peaks arg;
    _ ← Np.getitem y_outside imin;
    pos ← Np.getitem y_outside imin;
    depth ← Np.getitem trap_outside imin;
    prom ← Np.getitem (Scipy.prominences props) arg;
    base ← Np.getitem (Scipy.left_bases props) 0;
    Ok [PyInt (Z.of_nat imin); PyFloat pos; PyFloat depth; PyFloat (- prom)%float;
        PyInt (Z.of_nat base)].

(** [get_trapfreq].  It returns the integer 0 or a float. *)
Definition get_trapfreq (self : Viz) (y_outside trap_outside : list float)
    (edge_no_surface : option float) : result pyval :=
  t ← get_min_trap y_outside trap_outside edge_no_surface;
  '(trap_pos_index, trap_pos, _, _) ← unpack4 t;
  located ←
    (if Np.isnan_py trap_pos then
       let trap_outside3 := trap_outside ++ trap_outside ++ trap_outside in
       y_last ← Np.getitem_Z y_outside (-1);
       y_first ← Np.getitem_Z y_outside 0;
       let y_outside3 :=
         Np.sub_scalar y_outside (y_last - y_first)%float ++ y_outside
           ++ Np.add_scalar y_outside (y_last - y_first)%float in
       t ← get_min_trap y_outside3 trap_outside3 edge_no_surface;
       '(trap_pos_index, trap_pos, _, _) ← unpack4 t;
       if Np.isnan_py trap_pos then Ok None else Ok (Some trap_pos)
     else Ok (Some trap_pos));
  match located with
  | None => Ok (PyInt 0)
  | Some trap_pos =>
      fit ← match polyfit (drop 5 y_outside) (drop 5 trap_outside) 40 with
            | Raise LinAlgError => polyfit (drop 5 y_outside) (drop 5 trap_outside) 20
            | r => r
            end;
      der_fit ← gradient (poly1d fit y_outside) y_outside;
      der2_fit ← gradient der_fit y_outside;
      index_min ← Np.argmin (Np.abs (Np.sub_scalar y_outside (as_float trap_pos)));
      moment2 ← Np.getitem der2_fit index_min;
      Ok (PyFloat (sqrt ((moment2 * kB * mK) / atom_mass (simul self))
                   * (1 / (2 * pi)))%float)
  end.

(** [get_coord_trap_outside_structure]: the result is
    [(mf_index, edge, y_outside, trap_outside)]. *)
Definition get_coord_trap_outside_structure (self : Viz) (axis : string)
    (coord1 coord2 : float) (mf : Z) (edge_no_surface : option float)
  : result (Z * pyval * list float * list float) :=
  let '(_, mf) := check_mf (atomicsystem_f (simul self)) mf in
  let mf_index := (mf + atomicsystem_f (simul self))%Z in
  let coord := set_axis_from_axis axis (simul self) in
  let '(simul', potential) := compute_potential_1D axis coord1 coord2 (simul self) in
  trap ← column_from potential 0 mf_index;
  if negb (String.eqb axis (trapping_axis self)) then
    Ok (mf_index, PyInt 0, coord, trap)
  else if String.eqb axis (trapping_axis self)
          && String.eqb (surface_name simul') "NoSurface" then
    match edge_no_surface with
    | None =>
        Raise (ValueError "No surface for CP interactions have been specified. To restrict the search for the minimum in the right zone, you have to specify an edge")
    | Some edge =>
        index_edge ← Np.argmin (Np.abs (Np.sub_scalar coord edge));
        Ok (mf_index, PyFloat edge,
            Np.sub_scalar (Np.slice_from coord index_edge) edge,
            Np.slice_from trap index_edge)
    end
  else
    cp ← column_from (simul_CP simul') 0 mf_index;
    peaks ← Scipy.find_peaks (Np.neg cp) (Some 10%float) None None;
    if length peaks.1 =? 0 then
      Ok (mf_index, PyInt 0, coord, trap)
    else if length peaks.1 =? 1 then
      index_edge ← Np.getitem peaks.1 0;
      edge ← Np.getitem_Z coord (Z.of_nat index_edge - 1);
      Ok (mf_index, PyFloat edge,
          Np.sub_scalar (Np.slice_from coord index_edge) edge,
          Np.slice_from trap index_edge)
    else if length peaks.1 =? 2 then
      let index_edge := peaks.1 in
      i0 ← Np.getitem index_edge 0;
      edge ← Np.getitem_Z coord (Z.of_nat i0 - 1);
      i0 ← Np.getitem index_edge 0;
      i1 ← Np.getitem index_edge 1;
      Ok (mf_index, PyFloat edge,
          Np.sub_scalar (Np.slice coord i0 i1) edge,
          Np.slice trap i0 i1)
    else Raise (ValueError "Too many structures set").

(** The state the sweep loops carry: the simulation, whose powers each
    cell sets, and the four result arrays, which each cell writes. *)
Record sweep : Type := Sweep {
  sw_simul : S;
  res_pos : list (list float);
  res_depth : list (list float);
  res_height : list (list float);
  res_freq : list (list float)
}.

(** The body of the inner loop of [optimize], for the cell [(i, j)] with
    the powers [(P1, P2)]. *)
Definition optimize_cell (yidx : nat) (yout : list float)
    (i : nat) (P1 : float) (j : nat) (P2 : float) (st : sweep) : result sweep :=
  let simul := set_powers [P1; P2] (sw_simul st) in
  pot ← column_from (total_potential simul) yidx 0;
  t ← get_min_trap yout pot None;
  '(min_idx, min_pos, depth, height, height_idx) ← unpack5 t;
  trap_freq ←
    (if Np.isnan_py height_idx then Ok 0%float
     else
       height_pos ← getitem_py yout height_idx;
       let min_pos := as_float min_pos in
       let yleft := (min_pos - (min_pos - height_pos) / 2)%float in
       let yright := (min_pos + (min_pos - height_pos) / 2)%float in
       idx_left ← find_nearest yout yleft;
       idx_right ← find_nearest yout yright;
       fit ← polyfit (Np.slice yout idx_left idx_right) (Np.slice pot idx_left idx_right) 2;
       der_fit ← gradient (poly1d fit yout) yout;
       der2_fit ← gradient der_fit yout;
       index_min ← Np.argmin (Np.abs (Np.sub_scalar yout min_pos));
       moment2 ← Np.getitem der2_fit index_min;
       Ok (sqrt ((moment2 * kB * mK) / atom_mass simul) * (1 / (2 * pi)) / kHz)%float);
  let depth := as_float depth in
  let height := as_float height in
  let depth := if (10 <? abs depth)%float then 0%float else depth in
  let height := if (10 <? abs height)%float then 0%float else height in
  let depth := abs depth in
  let height := abs height in
  pos' ← setitem2 (res_pos st) i j (as_float min_pos);
  depth' ← setitem2 (res_depth st) i j depth;
  height' ← setitem2 (res_height st) i j height;
  freq' ← setitem2 (res_freq st) i j trap_freq;
  Ok {| sw_simul := simul; res_pos := pos'; res_depth := depth';
        res_height := height'; res_freq := freq' |}.

(** [optimize]: the sweep over the two ranges of powers. *)
Definition optimize (self : Viz) (ymin Pmin1 Pmax1 Pstep1 Pmin2 Pmax2 Pstep2 : float)
  : result (Viz * grids) :=
  let Prange1 := reverse (arange Pmin1 Pmax1 Pstep1) in
  let Prange2 := arange Pmin2 Pmax2 Pstep2 in
  let st := {| sw_simul := simul self;
               res_pos := zeros (length Prange1) (length Prange2);
               res_depth := zeros (length Prange1) (length Prange2);
               res_height := zeros (length Prange1) (length Prange2);
               res_freq := zeros (length Prange1) (length Prange2) |} in
  yidx ← find_nearest (simul_axis (simul self)) ymin;
  let yout := Np.slice_from (simul_axis (simul self)) yidx in
  st ← progressbar_enumerate (fun i P1 st =>
          for_enumerate (fun j P2 st => optimize_cell yidx yout i P1 j P2 st) 0 Prange2 st)
        Prange1 "Optimizing: " 40 st;
  let res_pos := nan_to_zeros (res_pos st) in
  let res_height := nan_to_zeros (res_height st) in
  let res_depth := nan_to_zeros (res_depth st) in
  let res_freq := nan_to_zeros (res_freq st) in
  let res_pos := imul res_pos 1e9%float in
  Ok ({| simul := sw_simul st; trapping_axis := trapping_axis self;
         optim_res := optim_res self; emitted := emitted self |},
      (res_pos, res_depth, res_height, res_freq)).

(** The state of the loops of [optimize_gui]: the sweep state and the
    signals emitted so far, latest first. *)
Record gui_sweep : Type := GuiSweep {
  gs_sweep : sweep;
  gs_emitted : list signal
}.

(** The body of the inner loop of [optimize_gui]. *)
Definition optimize_gui_cell (yidx : nat) (yout : list float)
    (i : nat) (P1 : float) (j : nat) (P2 : float) (g : gui_sweep) : result gui_sweep :=
  let st := gs_sweep g in
  let simul := set_powers [P1; P2] (sw_simul st) in
  pot ← column_from (total_potential simul) yidx 0;
  t ← get_min_trap yout pot None;
  '(min_idx, min_pos, depth, height, height_idx) ← unpack5 t;
  trap_freq ←
    (if Np.isnan_py height_idx then Ok 0%float
     else
       height_pos ← getitem_py yout height_idx;
       let min_pos := as_float min_pos in
       let yleft := (min_pos - (min_pos - height_pos) / 2)%float in
       let yright := (min_pos + (min_pos - height_pos) / 2)%float in
       idx_left ← find_nearest yout yleft;
       idx_right ← find_nearest yout yright;
       fit ← polyfit (Np.slice yout idx_left idx_right) (Np.slice pot idx_left idx_right) 2;
       der_fit ← gradient (poly1d fit yout) yout;
       der2_fit ← gradient der_fit yout;
       index_min ← Np.argmin (Np.abs (Np.sub_scalar yout min_pos));
       moment2 ← Np.getitem der2_fit index_min;
       Ok (sqrt ((moment2 * kB * mK) / atom_mass simul) * (1 / (2 * pi)) / kHz)%float);
  let depth := as_float depth in
  let height := as_float height in
  let depth := if (10 <? abs depth)%float then 0%float else depth in
  let height := if (10 <? abs height)%float then 0%float else height in
  let depth := abs depth in
  let height := abs height in
  pos' ← setitem2 (res_pos st) i j (as_float min_pos);
  depth' ← setitem2 (res_depth st) i j depth;
  height' ← setitem2 (res_height st) i j height;
  freq' ← setitem2 (res_freq st) i j trap_freq;
  Ok {| gs_sweep := {| sw_simul := simul; res_pos := pos'; res_depth := depth';
                       res_height := height'; res_freq := freq' |};
        gs_emitted := gs_emitted g |}.

(** [optimize_gui]: after each row it emits [_signal], and [benchmark]
    after the row of index 10; it emits [finished] and stores the grids in
    [optim_res] before returning them. *)
Definition optimize_gui (self : Viz) (ymin Pmin1 Pmax1 Pstep1 Pmin2 Pmax2 Pstep2 : float)
  : result (Viz * grids) :=
  let Prange1 := reverse (arange Pmin1 Pmax1 Pstep1) in
  let Prange2 := arange Pmin2 Pmax2 Pstep2 in
  let st := {| sw_simul := simul self;
               res_pos := zeros (length Prange1) (length Prange2);
               res_depth := zeros (length Prange1) (length Prange2);
               res_height := zeros (length Prange1) (length Prange2);
               res_freq := zeros (length Prange1) (length Prange2) |} in
  yidx ← find_nearest (simul_axis (simul self)) ymin;
  let yout := Np.slice_from (simul_axis (simul self)) yidx in
  g ← for_enumerate (fun i P1 g =>
         g ← for_enumerate (fun j P2 g => optimize_gui_cell yidx yout i P1 j P2 g) 0 Prange2 g;
         let g := {| gs_sweep := gs_sweep g; gs_emitted := Progress :: gs_emitted g |} in
         if i =? 10
         then Ok {| gs_sweep := gs_sweep g; gs_emitted := Benchmark :: gs_emitted g |}
         else Ok g)
       0 Prange1 {| gs_sweep := st; gs_emitted := emitted self |};
  let st := gs_sweep g in
  let res_pos := nan_to_zeros (res_pos st) in
  let res_height := nan_to_zeros (res_height st) in
  let res_depth := nan_to_zeros (res_depth st) in
  let res_freq := nan_to_zeros (res_freq st) in
  let res_pos := imul res_pos 1e9%float in
  Ok ({| simul := sw_simul st; trapping_axis := trapping_axis self;
         optim_res := Some (res_pos, res_depth, res_height, res_freq);
         emitted := Finished :: gs_emitted g |},
      (res_pos, res_depth, res_height, res_freq)).

End Viz.

(** ** The script [demo/rawData2d.py]

    The script computes a potential, saves it, and prints figures read off
    one plane of it.  The potential is its input here; the result is what it
    prints after the shape of the plane: the lowest value, its position, and
    the lowest value of the row of index 100.  The file it writes and the
    figure it shows afterwards are left out. *)

Module RawData2d.

(** A three-dimensional array: its shape, and its entries by row, column
    and mf state. *)
Record ndarray3 : Type := Ndarray3 {
  shape3 : nat * nat * nat;
  data3 : list (list (list float))
}.

(** [raw[:, :, k]] for a non-negative [k]. *)
Definition select_last (raw : ndarray3) (k : nat) : result (list (list float)) :=
  if k <? (shape3 raw).2 then
    mapM (M := result)
      (fun row : list (list float) =>
         mapM (M := result) (fun cell : list float => Np.getitem cell k) row)
      (data3 raw)
  else Raise IndexError.

(** The scan of [np.min]: the running minimum is kept when it is NaN or
    [running <= sample], so that a NaN, once met, is the result. *)
Fixpoint min_scan (acc : float) (a : list float) : float :=
  match a with
  | [] => acc
  | x :: a' => min_scan (if (acc <=? x)%float || Np.isnan acc then acc else x) a'
  end.

(** [np.min(a)] on the entries of [a] in row-major order. *)
Definition np_min (a : list float) : result float :=
  match a with
  | [] => Raise (ValueError "zero-size array to reduction operation minimum which has no identity")
  | x :: a' => Ok (min_scan x a')
  end.

(** [np.unravel_index(k, (n1, n2))] *)
Definition unravel_index (k : nat) (shape : nat * nat) : result (nat * nat) :=
  if k <? shape.1 * shape.2 then Ok (k / shape.2, k mod shape.2)
  else Raise (ValueError "index is out of bounds for array").

(** The body of the script from the plane on: [(min_value, min_position, val2)]. *)
Definition main (raw_2d_data : ndarray3) : result (float * (nat * nat) * float) :=
  let selected_mf_state := 0 in
  data_2d ← select_last raw_2d_data selected_mf_state;
  let shape := (shape3 raw_2d_data).1 in
  min_value ← np_min (concat data_2d);
  flat ← Np.argmin (concat data_2d);
  min_position ← unravel_index flat shape;
  data_2d_slice ← Np.getitem data_2d 100;
  val2 ← np_min data_2d_slice;
  Ok (min_value, min_position, val2).

(** A potential of 101 rows, 2 columns and 1 mf state, and one of 3 rows. *)
Definition sample : ndarray3 := {|
  shape3 := (101, 2, 1);
  data3 := replicate 50 [[1]; [2]]%float ++ [[[0.5]; [-3]]; [[-3]; [4]]]%float
             ++ replicate 49 [[1]; [-1]]%float
|}.

Definition short_sample : ndarray3 := {|
  shape3 := (3, 2, 1);
  data3 := [[[1]; [2]]; [[0.5]; [-3]]; [[-3]; [4]]]%float
|}.

End RawData2d.

(** ** Concrete collaborators for the examples

    A simulation whose potential is one fixed curve for every setting of the
    powers, with a single mf state, and numerical routines that raise where
    numpy raises. *)

Module Demo.

(** [start + i * step] for the indices [i] below the stop. *)
Fixpoint arange_from (fuel : nat) (i start stop step : float) : list float :=
  match fuel with
  | 0 => []
  | S fuel' =>
      if (start + i * step <? stop)%float
      then (start + i * step)%float :: arange_from fuel' (i + 1)%float start stop step
      else []
  end.

(** A stand-in for [np.polyfit], for the examples only: it does not compute
    the least-squares fit.  It raises [TypeError] on an empty sample, as
    [np.polyfit] does; on a sample that holds a NaN it answers NaN
    coefficients; otherwise it answers the constant polynomial through the
    first ordinate.  The theorems are stated for any [Numerics]. *)
Definition polyfit_demo (x y : list float) (deg : nat) : result (list float) :=
  match x with
  | [] => Raise (TypeError "expected non-empty vector for x")
  | _ :: _ =>
      if existsb Np.isnan (x ++ y) then Ok (replicate (Datatypes.S deg) Np.nan)
      else Ok (replicate deg 0%float ++ [default 0%float (y !! 0)])
  end.

(** One-sided differences, refused on fewer than two samples as
    [np.gradient] does. *)
Fixpoint forward_diff (f x : list float) : list float :=
  match f, x with
  | f0 :: ((f1 :: _) as f'), x0 :: ((x1 :: _) as x') =>
      ((f1 - f0) / (x1 - x0))%float :: forward_diff f' x'
  | _, _ => []
  end.

Definition gradient_demo (f x : list float) : result (list float) :=
  if length f <? 2
  then Raise (ValueError "Shape of array too small to calculate a numerical gradient")
  else Ok (forward_diff f x ++ [default 0%float (last (forward_diff f x))]).

#[export] Instance numerics : Numerics := {|
  arange := arange_from 64 0%float;
  polyfit := polyfit_demo;
  gradient := gradient_demo
|}.

#[export] Instance units : Units := {|
  kB := 1.38064852e-23%float;
  mK := 1e-3%float;
  kHz := 1e3%float
|}.

Record state : Type := State {
  st_axis : list float;
  st_curve : list float;
  st_CP : list float;
  st_surface : string;
  st_powers : list float
}.

#[export] Instance simulation : Simulation state := {|
  simul_axis := st_axis;
  set_powers p s := {| st_axis := st_axis s; st_curve := st_curve s; st_CP := st_CP s;
                       st_surface := st_surface s; st_powers := p |};
  total_potential s := (fun v => [v]) <$> st_curve s;
  atom_mass _ := 2.2e-25%float;
  atomicsystem_f _ := 0%Z;
  surface_name := st_surface;
  compute_potential_1D _ _ _ s := (s, (fun v => [v]) <$> st_curve s);
  simul_CP s := (fun v => [v]) <$> st_CP s;
  set_axis_from_axis _ s := st_axis s;
  check_mf f mf := (f, mf)
|}.

Definition viz (axis curve CP : list float) (surface : string) : Viz := {|
  simul := {| st_axis := axis; st_curve := curve; st_CP := CP;
              st_surface := surface; st_powers := [] |};
  trapping_axis := "Y";
  optim_res := None;
  emitted := []
|}.

(** Sample positions 0, 1, 2, ... *)
Definition ramp (n : nat) : list float := arange_from n 0 0 (1 + 1e9) 1.

End Demo.

(** ** Sample curves *)

Module Examples.
Import Demo.

(** One well, with its minimum at index 6. *)
Definition single_well : list float := [5; 4; 3; 2; 1; 0; -1; 0; 1; 2; 3]%float.

(** One well of depth 20, with its minimum at index 6. *)
Definition deep_well : list float := [5; 4; 3; 2; 1; 0; -20; 0; 1; 2; 3]%float.

(** Two wells separated by a ridge: minima at indices 8 and 22, the second
    one lower. *)
Definition two_wells : list float :=
  [1; 0.75; 0.5; 0.25; 0; -0.25; -0.5; -0.75; -1; 0; 1; 2; 3; 4; 5;
   4; 3; 2; 1; 0; -1; -1.5; -2; -1; 0; 1; 2; 2.5; 3]%float.

(** Two wells of the same depth, at indices 8 and 22. *)
Definition twin_wells : list float :=
  [1; 0.75; 0.5; 0.25; 0; -0.25; -0.5; -0.75; -1; 0; 1; 2; 3; 4; 5;
   4; 3; 2; 1; 0; -0.5; -0.75; -1; -0.5; 0; 1; 2; 2.5; 3]%float.

(** A curve without any minimum. *)
Definition flat : list float := replicate 8 1%float.

(** A strictly increasing axis with uneven steps, and a well at its index 7. *)
Definition uneven_axis : list float := [-6; -5; -4; -3; -2; -1; 0.1; 0.3; 10; 20]%float.
Definition narrow_well : list float :=
  [-0.5; -0.5; -0.5; -0.5; -0.5; -0.5; 0; -1; -0.5; -0.5]%float.

(** Two wells, the lower one at index 3, the other at index 15. *)
Definition early_well : list float :=
  [0; -1; -3; -5; -3; -1; 0; 1; 2; 3; 2; 1; 0; -0.5; -0.75; -1; -0.5; 0; 1; 2]%float.

(** A well at index 6 with an undefined sample two steps to its right. *)
Definition holed_well : list float := [5; 4; 3; 2; 1; 0; -1; 0; nan; 2; 3]%float.

(** A proximity curve with singular spikes at indices 3 and 7, one with a
    third spike at index 5, and a potential on the same ten samples. *)
Definition two_spikes : list float := [0; 0; 0; -20; 0; 0; 0; -30; 0; 0]%float.
Definition three_spikes : list float := [0; 0; 0; -20; 0; -40; 0; -30; 0; 0]%float.
Definition slope : list float := [9; 8; 7; 6; 5; 4; 3; 2; 1; 0]%float.

(** A proximity curve with a single spike, at index 3. *)
Definition one_spike : list float := [0; 0; 0; -20; 0; 0; 0; 0; 0; 0]%float.

End Examples.

(** ** Reading float comparisons

    A float that is not NaN is ranked by a key: its class (infinities,
    signed finite values, zero), then its exponent and its mantissa. *)

Definition sf_is_nan (s : spec_float) : bool :=
  match s with S754_nan => true | _ => false end.

Definition float_key (s : spec_float) : Z * Z * Z :=
  match s with
  | S754_nan => (0, 0, 0)
  | S754_infinity true => (-2, 0, 0)
  | S754_infinity false => (2, 0, 0)
  | S754_zero _ => (0, 0, 0)
  | S754_finite true m e => (-1, - e, - Zpos m)
  | S754_finite false m e => (1, e, Zpos m)
  end%Z.

Definition lex (k1 k2 : Z * Z * Z) : comparison :=
  let '(a1, b1, c1) := k1 in
  let '(a2, b2, c2) := k2 in
  match (a1 ?= a2)%Z with
  | Eq => match (b1 ?= b2)%Z with Eq => (c1 ?= c2)%Z | r => r end
  | r => r
  end.

(** ** Vocabulary of the properties *)

(** A local maximum is an interior sample and its value is not NaN. *)
Definition interior (x : list float) (p : nat) : Prop :=
  1 <= p /\ p + 1 < length x /\ is_nan (Scipy.at_ x p) = false.

(** The prominence and the left base that [find_peaks] computes for a peak. *)
Definition prominence_of (x : list float) (p : nat) : float := (Scipy.peak_prominence x p).1.1.
Definition left_base_of (x : list float) (p : nat) : nat := (Scipy.peak_prominence x p).1.2.

(** The tuple returned when no usable minimum is found. *)
Definition none_found : list pyval :=
  [PyFloat Np.nan; PyFloat Np.nan; PyInt 0; PyInt 0; PyFloat Np.nan].

(** The tuple returned for the candidate [c] when the first candidate is [p0]. *)
Definition found (y_outside trap_outside : list float) (c p0 : nat) : list pyval :=
  [PyInt (Z.of_nat c); PyFloat (Scipy.at_ y_outside c); PyFloat (Scipy.at_ trap_outside c);
   PyFloat (- prominence_of (Np.neg trap_outside) c)%float;
   PyInt (Z.of_nat (left_base_of (Np.neg trap_outside) p0))].

(** The minima [get_min_trap] looks at. *)
Definition candidates (trap_outside : list float) : list nat :=
  match Scipy.find_peaks (Np.neg trap_outside) None (Some 10) (Some 5e-4%float) with
  | Ok r => r.1
  | Raise _ => []
  end.

(** The message of the exception raised when no edge is given. *)
Definition edge_message : string :=
  "No surface for CP interactions have been specified. To restrict the search for the minimum in the right zone, you have to specify an edge".

(** Shape and content of a grid: [shaped n1 n2 g] says that [g] has [n1]
    rows of [n2] entries, [no_nan g] that no entry is NaN. *)
Definition shaped (n1 n2 : nat) (g : list (list float)) : Prop :=
  length g = n1 /\ Forall (fun row => length row = n2) g.

Definition no_nan (g : list (list float)) : Prop :=
  Forall (Forall (fun v => is_nan v = false)) g.

(** The entry [(i, j)] of a grid. *)
Definition entry (g : list (list float)) (i j : nat) : option float :=
  row ← g !! i; row !! j.

Section SweepVocabulary.
Context {S : Type}.

(** The four result arrays of a sweep state have the shape [(n1, n2)]. *)
Definition sweep_shaped (n1 n2 : nat) (st : @sweep S) : Prop :=
  shaped n1 n2 (res_pos st) /\ shaped n1 n2 (res_depth st) /\
  shaped n1 n2 (res_height st) /\ shaped n1 n2 (res_freq st).

(** What a caller of a sweep gets back: the grids, and the simulation the
    sweep leaves behind. *)
Definition outcome (r : result (Viz * grids)) : result (S * grids) :=
  (fun vg : Viz * grids => (simul vg.1, vg.2)) <$> r.

End SweepVocabulary.

(** A peak of [x] at [p]: [p] lies on a plateau [l..r] of equal samples,
    inside the array, with a strictly lower sample on either side. *)
Definition local_peak (x : list float) (p : nat) : Prop :=
  exists l r,
    1 <= l /\ l <= p /\ p <= r /\ r + 1 < length x /\
    (forall k, l <= k <= r -> (Scipy.at_ x k =? Scipy.at_ x l)%float = true) /\
    (Scipy.at_ x (l - 1) <? Scipy.at_ x l)%float = true /\
    (Scipy.at_ x (r + 1) <? Scipy.at_ x l)%float = true.

(** Indices in strictly increasing order. *)
Definition increasing (l : list nat) : Prop :=
  forall i j a b, i < j -> l !! i = Some a -> l !! j = Some b -> a < b.

(** A grid whose entries all lie between 0 and 10. *)
Definition clipped (g : list (list float)) : Prop :=
  Forall (Forall (fun v => (0 <=? v)%float = true /\ (v <=? 10)%float = true)) g.

(** The signals that the rows [i], ..., [i + n - 1] of [optimize_gui] emit,
    latest first: [_signal] after each row, and [benchmark] after it for the
    row of index 10. *)
Fixpoint sweep_signals (i n : nat) : list signal :=
  match n with
  | 0 => []
  | S n' => sweep_signals (S i) n' ++ (if i =? 10 then [Benchmark; Progress] else [Progress])
  end.

(** How often a signal occurs in a log. *)
Definition signal_eqb (a b : signal) : bool :=
  match a, b with
  | Progress, Progress | Benchmark, Benchmark | Finished, Finished => true
  | _, _ => false
  end.

Definition count_signal (s : signal) (log : list signal) : nat :=
  length (List.filter (signal_eqb s) log).

Section CellVocabulary.
Context `{Numerics} `{Units} {S : Type} `{Simulation S}.

(** What the body of the inner loop of [optimize] computes for a cell before
    it stores it: position, depth, barrier height and frequency, from the
    potential and the atom mass of the simulation at the powers of the cell. *)
Definition cell_values (yidx : nat) (yout : list float)
    (potential : list (list float)) (mass : float)
  : result (float * float * float * float) :=
  pot ← column_from potential yidx 0;
  t ← get_min_trap yout pot None;
  '(min_idx, min_pos, depth, height, height_idx) ← unpack5 t;
  trap_freq ←
    (if Np.isnan_py height_idx then Ok 0%float
     else
       height_pos ← getitem_py yout height_idx;
       let min_pos := as_float min_pos in
       let yleft := (min_pos - (min_pos - height_pos) / 2)%float in
       let yright := (min_pos + (min_pos - height_pos) / 2)%float in
       idx_left ← find_nearest yout yleft;
       idx_right ← find_nearest yout yright;
       fit ← polyfit (Np.slice yout idx_left idx_right) (Np.slice pot idx_left idx_right) 2;
       der_fit ← gradient (poly1d fit yout) yout;
       der2_fit ← gradient der_fit yout;
       index_min ← Np.argmin (Np.abs (Np.sub_scalar yout min_pos));
       moment2 ← Np.getitem der2_fit index_min;
       Ok (sqrt ((moment2 * kB * mK) / mass) * (1 / (2 * pi)) / kHz)%float);
  let depth := as_float depth in
  let height := as_float height in
  let depth := if (10 <? abs depth)%float then 0%float else depth in
  let height := if (10 <? abs height)%float then 0%float else height in
  let depth := abs depth in
  let height := abs height in
  Ok (as_float min_pos, depth, height, trap_freq).

(** The values of the cell of the powers [(P1, P2)], computed on the
    simulation [s] set to these powers. *)
Definition cell_at (yidx : nat) (yout : list float) (s : S) (P1 P2 : float)
  : result (float * float * float * float) :=
  cell_values yidx yout (total_potential (set_powers [P1; P2] s))
    (atom_mass (set_powers [P1; P2] s)).

(** The sweep state [st] holds, at [(i, j)], the values of the cell of the
    powers [(P1, P2)]. *)
Definition cell_stored (yidx : nat) (yout : list float) (s : S) (st : @sweep S)
    (i j : nat) (P1 P2 : float) : Prop :=
  exists vp vd vh vf,
    cell_at yidx yout s P1 P2 = Ok (vp, vd, vh, vf) /\
    entry (res_pos st) i j = Some vp /\ entry (res_depth st) i j = Some vd /\
    entry (res_height st) i j = Some vh /\ entry (res_freq st) i j = Some vf.

(** The sweep states [st] and [st'] hold the same entries at [(i, j)]. *)
Definition same_entries (st st' : @sweep S) (i j : nat) : Prop :=
  entry (res_pos st') i j = entry (res_pos st) i j /\
  entry (res_depth st') i j = entry (res_depth st) i j /\
  entry (res_height st') i j = entry (res_height st) i j /\
  entry (res_freq st') i j = entry (res_freq st) i j.

(** The simulation [s] after the powers of [history] have been set on it,
    one after the other. *)
Definition after_powers (s : S) (history : list (list float)) : S :=
  foldl (fun s powers => set_powers powers s) s history.

(** The simulation of the sweep state [st] is the simulation [s], with some
    powers set since. *)
Definition reached (s : S) (st : @sweep S) : Prop :=
  exists history, sw_simul st = after_powers s history.

(** The potential and the atom mass of the simulation [s] depend on the
    powers last set only, not on those set before. *)
Definition memoryless (s : S) : Prop :=
  forall (powers : list float) (history : list (list float)),
    total_potential (set_powers powers (after_powers s history))
      = total_potential (set_powers powers s) /\
    atom_mass (set_powers powers (after_powers s history)) = atom_mass (set_powers powers s).

End CellVocabulary.

(** What [nan_to_zeros] makes of an entry. *)
Definition nan_to_zero (v : float) : float := if Np.isnan v then 0%float else v.

(** An array of [RawData2d] holds what its shape announces. *)
Definition well_formed (raw : RawData2d.ndarray3) : Prop :=
  length (RawData2d.data3 raw) = (RawData2d.shape3 raw).1.1 /\
  Forall (fun row : list (list float) =>
            length row = (RawData2d.shape3 raw).1.2 /\
            Forall (fun cell : list float => length cell = (RawData2d.shape3 raw).2) row)
         (RawData2d.data3 raw).

(** The plane of the mf state [k] of an array. *)
Definition plane_of (raw : RawData2d.ndarray3) (k : nat) : list (list float) :=
  (fun row : list (list float) => (fun cell : list float => Scipy.at_ cell k) <$> row)
    <$> RawData2d.data3 raw.

(** The indices of [l], listed in increasing order, are at least [d] apart. *)
Definition far_apart (d : nat) (l : list nat) : Prop :=
  forall i j a b, i < j -> l !! i = Some a -> l !! j = Some b -> a + d <= b.

(** The sample index of the peak of position [k], and two positions whose
    peaks are closer than [distance]. *)
Definition peak_at (peaks : list nat) (k : nat) : nat := default 0 (peaks !! k).

Definition close (peaks : list nat) (distance : nat) (j k : nat) : Prop :=
  j <> k /\ peak_at peaks j < peak_at peaks k + distance /\
  peak_at peaks k < peak_at peaks j + distance.

(** * Properties

    ** Floats *)

Module Fl.

Lemma is_nan_spec x : is_nan x = sf_is_nan (Prim2SF x).
Proof.
  unfold is_nan. rewrite FloatAxioms.eqb_spec. unfold SFeqb.
  destruct (Prim2SF x) as [s|s| |s m e]; simpl; try reflexivity.
  - destruct s; reflexivity.
  - destruct s; rewrite Z.compare_refl, Pos.compare_cont_refl; reflexivity.
Qed.

Lemma is_nan_opp x : is_nan (- x) = is_nan x.
Proof. rewrite !is_nan_spec, opp_spec. destruct (Prim2SF x); reflexivity. Qed.

Lemma SFcompare_nan_l a b : SFcompare a b <> None -> sf_is_nan a = false /\ sf_is_nan b = false.
Proof. destruct a, b; simpl; intuition congruence. Qed.

Lemma ltb_not_nan a b : (a <? b)%float = true -> is_nan a = false /\ is_nan b = false.
Proof.
  rewrite ltb_spec, !is_nan_spec. unfold SFltb. intros Hc.
  apply SFcompare_nan_l. destruct (SFcompare _ _); congruence.
Qed.

Lemma leb_not_nan a b : (a <=? b)%float = true -> is_nan a = false /\ is_nan b = false.
Proof.
  rewrite leb_spec, !is_nan_spec. unfold SFleb. intros Hc.
  apply SFcompare_nan_l. destruct (SFcompare _ _); congruence.
Qed.

Lemma eqb_not_nan a b : (a =? b)%float = true -> is_nan a = false /\ is_nan b = false.
Proof.
  rewrite FloatAxioms.eqb_spec, !is_nan_spec. unfold SFeqb. intros Hc.
  apply SFcompare_nan_l. destruct (SFcompare _ _); congruence.
Qed.

Lemma SFcompare_key a b :
  sf_is_nan a = false -> sf_is_nan b = false -> SFcompare a b = Some (lex (float_key a) (float_key b)).
Proof.
  destruct a as [sa|sa| |sa ma ea], b as [sb|sb| |sb mb eb]; simpl; try discriminate;
    intros _ _; try (destruct sa); try (destruct sb); try reflexivity; simpl.
  - rewrite Z.compare_opp, (Z.compare_antisym ea eb).
    destruct (ea ?= eb)%Z; reflexivity.
Qed.

Lemma lex_le_trans k1 k2 k3 : lex k1 k2 <> Gt -> lex k2 k3 <> Gt -> lex k1 k3 <> Gt.
Proof.
  destruct k1 as [[a1 b1] c1], k2 as [[a2 b2] c2], k3 as [[a3 b3] c3]. unfold lex.
  destruct (Z.compare_spec a1 a2), (Z.compare_spec a2 a3), (Z.compare_spec a1 a3);
    try lia; try congruence;
    destruct (Z.compare_spec b1 b2), (Z.compare_spec b2 b3), (Z.compare_spec b1 b3);
    try lia; try congruence;
    destruct (Z.compare_spec c1 c2), (Z.compare_spec c2 c3), (Z.compare_spec c1 c3);
    try lia; try congruence.
Qed.

Lemma lex_lt_le_trans k1 k2 k3 : lex k1 k2 = Lt -> lex k2 k3 <> Gt -> lex k1 k3 = Lt.
Proof.
  destruct k1 as [[a1 b1] c1], k2 as [[a2 b2] c2], k3 as [[a3 b3] c3]. unfold lex.
  destruct (Z.compare_spec a1 a2), (Z.compare_spec a2 a3), (Z.compare_spec a1 a3);
    try lia; try congruence;
    destruct (Z.compare_spec b1 b2), (Z.compare_spec b2 b3), (Z.compare_spec b1 b3);
    try lia; try congruence;
    destruct (Z.compare_spec c1 c2), (Z.compare_spec c2 c3), (Z.compare_spec c1 c3);
    try lia; try congruence.
Qed.

Lemma lex_antisym k1 k2 : lex k2 k1 = CompOpp (lex k1 k2).
Proof.
  destruct k1 as [[a1 b1] c1], k2 as [[a2 b2] c2]. unfold lex.
  rewrite (Z.compare_antisym a1 a2), (Z.compare_antisym b1 b2), (Z.compare_antisym c1 c2).
  destruct (a1 ?= a2)%Z, (b1 ?= b2)%Z, (c1 ?= c2)%Z; reflexivity.
Qed.

Lemma leb_key a b :
  (a <=? b)%float = true <->
  is_nan a = false /\ is_nan b = false /\ lex (float_key (Prim2SF a)) (float_key (Prim2SF b)) <> Gt.
Proof.
  split.
  - intros Hle. destruct (leb_not_nan _ _ Hle) as [Ha Hb]. split; [|split]; trivial.
    rewrite leb_spec in Hle. unfold SFleb in Hle. rewrite !is_nan_spec in *.
    rewrite (SFcompare_key _ _ Ha Hb) in Hle. destruct (lex _ _); congruence.
  - intros (Ha & Hb & Hl). rewrite leb_spec. unfold SFleb. rewrite !is_nan_spec in *.
    rewrite (SFcompare_key _ _ Ha Hb). destruct (lex _ _); congruence.
Qed.

Lemma ltb_key a b :
  (a <? b)%float = true <->
  is_nan a = false /\ is_nan b = false /\ lex (float_key (Prim2SF a)) (float_key (Prim2SF b)) = Lt.
Proof.
  split.
  - intros Hlt. destruct (ltb_not_nan _ _ Hlt) as [Ha Hb]. split; [|split]; trivial.
    rewrite ltb_spec in Hlt. unfold SFltb in Hlt. rewrite !is_nan_spec in *.
    rewrite (SFcompare_key _ _ Ha Hb) in Hlt. destruct (lex _ _); congruence.
  - intros (Ha & Hb & Hl). rewrite ltb_spec. unfold SFltb. rewrite !is_nan_spec in *.
    rewrite (SFcompare_key _ _ Ha Hb), Hl. reflexivity.
Qed.

Lemma leb_trans a b c :
  (a <=? b)%float = true -> (b <=? c)%float = true -> (a <=? c)%float = true.
Proof.
  rewrite !leb_key. intros (Ha & Hb & H1) (_ & Hc & H2).
  split; [|split]; trivial. eapply lex_le_trans; eassumption.
Qed.

Lemma ltb_leb_trans a b c :
  (a <? b)%float = true -> (b <=? c)%float = true -> (a <? c)%float = true.
Proof.
  rewrite !ltb_key, leb_key. intros (Ha & Hb & H1) (_ & Hc & H2).
  split; [|split]; trivial. eapply lex_lt_le_trans; eassumption.
Qed.

Lemma ltb_leb a b : (a <? b)%float = true -> (a <=? b)%float = true.
Proof.
  rewrite ltb_key, leb_key. intros (Ha & Hb & H1). rewrite H1. repeat split; congruence.
Qed.

Lemma not_leb_ltb a b :
  is_nan a = false -> is_nan b = false -> (a <=? b)%float = false -> (b <? a)%float = true.
Proof.
  intros Ha Hb Hle. apply ltb_key. split; [|split]; trivial.
  rewrite lex_antisym.
  destruct (lex (float_key (Prim2SF a)) (float_key (Prim2SF b))) eqn:E; try reflexivity;
    exfalso; assert ((a <=? b)%float = true) by (apply leb_key; rewrite E; repeat split; congruence);
    congruence.
Qed.

Lemma leb_refl a : is_nan a = false -> (a <=? a)%float = true.
Proof.
  intros Ha. apply leb_key. split; [|split]; trivial.
  pose proof (lex_antisym (float_key (Prim2SF a)) (float_key (Prim2SF a))) as E.
  destruct (lex _ _); simpl in E; congruence.
Qed.

Lemma opp_neg p : (0 <? p)%float = true -> (- p <? 0)%float = true.
Proof.
  rewrite !ltb_spec, opp_spec. change (Prim2SF 0) with (S754_zero false).
  destruct (Prim2SF p) as [s|s| |s m e]; try destruct s; simpl; intros Hp;
    try discriminate Hp; reflexivity.
Qed.

Lemma abs_opp_pos p : (0 <? p)%float = true -> abs (- p) = p.
Proof.
  intros Hp. apply Prim2SF_inj. rewrite abs_spec, opp_spec.
  rewrite ltb_spec in Hp. change (Prim2SF 0) with (S754_zero false) in Hp.
  destruct (Prim2SF p) as [s|s| |s m e]; try destruct s; simpl in *;
    try discriminate Hp; reflexivity.
Qed.

Lemma min_prominence_pos p : (5e-4 <=? p)%float = true -> (0 <? p)%float = true.
Proof. apply ltb_leb_trans. reflexivity. Qed.

(** Rounding never produces a NaN. *)
Lemma shr_1_nonneg mrs : (0 <= shr_m mrs)%Z -> (0 <= shr_m (shr_1 mrs))%Z.
Proof.
  destruct mrs as [m r s]. simpl. destruct m as [|p|p]; simpl; try lia.
  destruct p; simpl; lia.
Qed.

Lemma iter_shr_1_nonneg p : forall mrs,
  (0 <= shr_m mrs)%Z -> (0 <= shr_m (SpecFloat.iter_pos shr_1 p mrs))%Z.
Proof.
  induction p as [p IH|p IH|]; intros mrs Hm; simpl.
  - apply IH, IH, shr_1_nonneg, Hm.
  - apply IH, IH, Hm.
  - apply shr_1_nonneg, Hm.
Qed.

Lemma shr_fexp_nonneg m e l :
  (0 <= m)%Z -> (0 <= shr_m (fst (shr_fexp prec emax m e l)))%Z.
Proof.
  intros Hm. unfold shr_fexp, shr.
  assert (0 <= shr_m (shr_record_of_loc m l))%Z as Hr
    by (destruct l as [|[]]; simpl; exact Hm).
  destruct (_ - e)%Z; simpl; trivial. apply iter_shr_1_nonneg, Hr.
Qed.

Lemma round_nearest_even_nonneg m l : (0 <= m)%Z -> (0 <= round_nearest_even m l)%Z.
Proof.
  intros Hm. unfold round_nearest_even. destruct l as [|[]]; try lia.
  destruct (Z.even m); lia.
Qed.

Lemma binary_round_aux_not_nan s m e l :
  (0 <= m)%Z -> sf_is_nan (binary_round_aux prec emax s m e l) = false.
Proof.
  intros Hm. unfold binary_round_aux.
  pose proof (shr_fexp_nonneg m e l Hm) as H1.
  destruct (shr_fexp prec emax m e l) as [mrs' e']. simpl in H1.
  pose proof (shr_fexp_nonneg _ e' loc_Exact
                (round_nearest_even_nonneg _ (loc_of_shr_record mrs') H1)) as H2.
  destruct (shr_fexp prec emax _ e' loc_Exact) as [mrs'' e'']. simpl in H2.
  destruct (shr_m mrs'') as [|p|p]; try reflexivity; try lia.
  destruct (e'' <=? emax - prec)%Z; reflexivity.
Qed.

(** Scaling by a finite non-zero constant keeps a value that is not NaN
    away from NaN. *)
Lemma mul_not_nan x c :
  (exists s m e, Prim2SF c = S754_finite s m e) ->
  is_nan x = false -> is_nan (x * c) = false.
Proof.
  intros (s & m & e & Hc). rewrite !is_nan_spec, mul_spec, Hc. unfold SF64mul.
  destruct (Prim2SF x) as [sx|sx| |sx mx ex]; simpl; try congruence.
  intros _. apply binary_round_aux_not_nan. lia.
Qed.

Lemma mul_1e9_not_nan x : is_nan x = false -> is_nan (x * 1e9) = false.
Proof. apply mul_not_nan. vm_compute. eauto. Qed.

End Fl.

(** ** The peak finder *)

Module ScipyFacts.
Import Scipy.

Lemma select_fmap {A B} (f : A -> B) (a : list A) : forall keep,
  select (f <$> a) keep = f <$> select a keep.
Proof.
  induction a as [|v a IH]; intros [|k keep]; simpl; try reflexivity.
  destruct k; simpl; rewrite IH; reflexivity.
Qed.

Lemma select_Forall {A} (P : A -> Prop) (a : list A) : forall keep,
  Forall P a -> Forall P (select a keep).
Proof.
  induction a as [|v a IH]; intros [|k keep] Ha; simpl; try constructor.
  inversion Ha; subst. destruct k; [constructor|]; auto.
Qed.

Lemma select_nil {A} (keep : list bool) : select (@nil A) keep = [].
Proof. destruct keep; reflexivity. Qed.

Lemma select_by_property_Forall (values : list float) (pmin : float) :
  Forall (fun v => (pmin <=? v)%float = true)
         (select values (select_by_property values pmin)).
Proof.
  unfold select_by_property.
  induction values as [|v values IH]; simpl; [constructor|].
  destruct (pmin <=? v)%float eqn:E; [constructor|]; assumption.
Qed.

Lemma select_by_property_fmap {A} (f : A -> float) (a : list A) (pmin : float) :
  Forall (fun v => (pmin <=? f v)%float = true)
         (select a (select_by_property (f <$> a) pmin)).
Proof.
  unfold select_by_property.
  induction a as [|v a IH]; simpl; [constructor|].
  destruct (pmin <=? f v)%float eqn:E; [constructor|]; assumption.
Qed.

Lemma at_lookup (x : list float) (i : nat) v : x !! i = Some v -> at_ x i = v.
Proof. unfold at_. intros ->. reflexivity. Qed.

Lemma at_neg (x : list float) (i : nat) :
  i < length x -> at_ (Np.neg x) i = (- at_ x i)%float.
Proof.
  intros Hi. unfold at_, Np.neg. rewrite list_lookup_fmap.
  destruct (lookup_lt_is_Some_2 x i Hi) as [v ->]. reflexivity.
Qed.

(** The plateau scan stays within the samples equal to [x[i]]. *)
Lemma skip_plateau_spec (x : list float) (i i_max : nat) : forall fuel a,
  i < a -> a <= i_max ->
  (forall k, i <= k < a -> (at_ x k =? at_ x i)%float = true) ->
  let r := skip_plateau fuel x i a i_max in
  a <= r /\ r <= i_max /\ forall k, i <= k < r -> (at_ x k =? at_ x i)%float = true.
Proof.
  induction fuel as [|fuel IH]; intros a Hia Ha Heq; simpl.
  - repeat split; auto.
  - destruct (a <? i_max) eqn:E1; simpl; [|repeat split; auto].
    destruct (at_ x a =? at_ x i)%float eqn:E2; [|repeat split; auto].
    apply Nat.ltb_lt in E1.
    destruct (IH (S a)) as (H1 & H2 & H3); try lia.
    + intros k Hk. destruct (decide (k = a)) as [->|]; [assumption|]. apply Heq. lia.
    + repeat split; auto; lia.
Qed.

Lemma local_maxima_loop_interior (x : list float) : forall fuel i,
  1 <= i -> Forall (interior x) (local_maxima_loop fuel x i (length x - 1)).
Proof.
  induction fuel as [|fuel IH]; intros i Hi; cbn [local_maxima_loop]; [constructor|].
  destruct (i <? length x - 1) eqn:E1; [|constructor].
  apply Nat.ltb_lt in E1.
  destruct (at_ x (i - 1) <? at_ x i)%float eqn:E2; [|apply IH; lia].
  destruct (Fl.ltb_not_nan _ _ E2) as [_ Hnan].
  pose proof (skip_plateau_spec x i (length x - 1) (length x) (i + 1)) as Hs.
  simpl in Hs. destruct Hs as (H1 & H2 & H3); try lia.
  { intros k Hk. replace k with i by lia.
    rewrite FloatAxioms.eqb_spec. unfold is_nan in Hnan. rewrite FloatAxioms.eqb_spec in Hnan.
    destruct (SFeqb _ _); [reflexivity|discriminate]. }
  set (r := skip_plateau (length x) x i (i + 1) (length x - 1)) in *.
  destruct (at_ x r <? at_ x i)%float eqn:E3; [|apply IH; lia].
  constructor; [|apply IH; lia].
  assert (i <= (i + (r - 1)) / 2 /\ (i + (r - 1)) / 2 <= r - 1) as [Hlo Hhi].
  { split.
    - apply Nat.div_le_lower_bound; lia.
    - apply Nat.Div0.div_le_upper_bound; lia. }
  split; [lia|split; [lia|]].
  specialize (H3 ((i + (r - 1)) / 2)).
  destruct (Fl.eqb_not_nan _ _ (H3 ltac:(lia))) as [Hm _]. exact Hm.
Qed.

Lemma local_maxima_1d_interior (x : list float) : Forall (interior x) (local_maxima_1d x).
Proof. apply local_maxima_loop_interior. lia. Qed.

(** The loops are given enough fuel: with more fuel they return the same. *)
Lemma skip_plateau_ge (x : list float) (i i_max : nat) : forall fuel a,
  a <= skip_plateau fuel x i a i_max.
Proof.
  induction fuel as [|fuel IH]; intros a; cbn [skip_plateau]; [lia|].
  destruct (_ && _); [|lia]. specialize (IH (Datatypes.S a)). lia.
Qed.

Lemma skip_plateau_fuel (x : list float) (i i_max : nat) : forall fuel fuel' a,
  i_max - a <= fuel -> i_max - a <= fuel' ->
  skip_plateau fuel x i a i_max = skip_plateau fuel' x i a i_max.
Proof.
  induction fuel as [|fuel IH]; intros [|fuel'] a Hf Hf'; cbn [skip_plateau]; try reflexivity.
  - destruct (Nat.ltb_spec a i_max); [lia|reflexivity].
  - destruct (Nat.ltb_spec a i_max); [lia|reflexivity].
  - destruct (Nat.ltb_spec a i_max); cbn [andb]; [|reflexivity].
    destruct (_ =? _)%float; [|reflexivity]. apply IH; lia.
Qed.

Lemma local_maxima_loop_fuel (x : list float) (i_max : nat) : forall fuel fuel' i,
  i_max - i <= fuel -> i_max - i <= fuel' ->
  local_maxima_loop fuel x i i_max = local_maxima_loop fuel' x i i_max.
Proof.
  induction fuel as [|fuel IH]; intros [|fuel'] i Hf Hf'; cbn [local_maxima_loop];
    try reflexivity.
  - destruct (Nat.ltb_spec i i_max); [lia|reflexivity].
  - destruct (Nat.ltb_spec i i_max); [lia|reflexivity].
  - destruct (Nat.ltb_spec i i_max); [|reflexivity].
    pose proof (skip_plateau_ge x i i_max (length x) (i + 1)).
    destruct (_ <? _)%float; [|apply IH; lia].
    destruct (_ <? _)%float; [f_equal|]; apply IH; lia.
Qed.

Lemma right_scan_fuel (x : list float) (peak : nat) : forall fuel fuel' i m b,
  length x - i <= fuel -> length x - i <= fuel' ->
  right_scan fuel x peak i m b = right_scan fuel' x peak i m b.
Proof.
  induction fuel as [|fuel IH]; intros [|fuel'] i m b Hf Hf'; cbn [right_scan];
    try reflexivity.
  - destruct (Nat.ltb_spec i (length x)); [lia|reflexivity].
  - destruct (Nat.ltb_spec i (length x)); [lia|reflexivity].
  - destruct (Nat.ltb_spec i (length x)); cbn [andb]; [|reflexivity].
    destruct (_ <=? _)%float; [|reflexivity].
    destruct (_ <? _)%float; apply IH; lia.
Qed.

Lemma flag_later_fuel (peaks : list nat) (j distance : nat) : forall fuel fuel' k keep,
  length peaks - k <= fuel -> length peaks - k <= fuel' ->
  flag_later fuel peaks j k distance keep = flag_later fuel' peaks j k distance keep.
Proof.
  induction fuel as [|fuel IH]; intros [|fuel'] k keep Hf Hf'; cbn [flag_later];
    try reflexivity.
  - destruct (Nat.ltb_spec k (length peaks)); [lia|reflexivity].
  - destruct (Nat.ltb_spec k (length peaks)); [lia|reflexivity].
  - destruct (Nat.ltb_spec k (length peaks)); cbn [andb]; [|reflexivity].
    destruct (_ <? distance); [|reflexivity]. apply IH; lia.
Qed.

Lemma local_maxima_1d_fuel (x : list float) (extra : nat) :
  local_maxima_loop (length x + extra) x 1 (length x - 1) = local_maxima_1d x.
Proof. apply local_maxima_loop_fuel; lia. Qed.

Lemma skip_plateau_1d_fuel (x : list float) (i extra : nat) :
  skip_plateau (length x + extra) x i (i + 1) (length x - 1)
  = skip_plateau (length x) x i (i + 1) (length x - 1).
Proof. apply skip_plateau_fuel; lia. Qed.

Lemma right_scan_1d_fuel (x : list float) (peak extra : nat) (m : float) (b : nat) :
  right_scan (length x + extra) x peak peak m b = right_scan (length x) x peak peak m b.
Proof. apply right_scan_fuel; lia. Qed.

Lemma flag_later_1d_fuel (peaks : list nat) (j distance extra : nat) (keep : list bool) :
  flag_later (length peaks + extra) peaks j (Datatypes.S j) distance keep
  = flag_later (length peaks) peaks j (Datatypes.S j) distance keep.
Proof. apply flag_later_fuel; lia. Qed.

(** What a call with a distance and a prominence condition returns. *)
Lemma find_peaks_prominence (x : list float) (d : nat) (pmin : float) peaks props :
  find_peaks x None (Some d) (Some pmin) = Ok (peaks, props) ->
  Forall (interior x) peaks /\
  prominences props = prominence_of x <$> peaks /\
  left_bases props = left_base_of x <$> peaks /\
  Forall (fun p => (pmin <=? prominence_of x p)%float = true) peaks.
Proof.
  unfold find_peaks. case_bool_decide; [discriminate|].
  cbn zeta. intros [= <- <-]. cbn [prominences left_bases].
  rewrite <- !list_fmap_compose, !select_fmap.
  repeat split.
  - apply select_Forall, select_Forall, local_maxima_1d_interior.
  - apply (select_by_property_fmap (prominence_of x)).
Qed.

Lemma find_peaks_prominence_ok (x : list float) (d : nat) (pmin : float) :
  d <> 0 -> exists r, find_peaks x None (Some d) (Some pmin) = Ok r.
Proof.
  intros Hd. unfold find_peaks. case_bool_decide; [congruence|]. cbn zeta. eauto.
Qed.

(** What a call with a height condition alone returns. *)
Lemma find_peaks_height (x : list float) (hmin : float) :
  exists peaks props,
    find_peaks x (Some hmin) None None = Ok (peaks, props) /\ Forall (interior x) peaks.
Proof.
  unfold find_peaks. case_bool_decide; [discriminate|]. cbn zeta.
  eexists _, _. split; [reflexivity|].
  apply select_Forall, local_maxima_1d_interior.
Qed.

End ScipyFacts.

(** ** numpy *)

Module NpFacts.
Import Np.

Lemma getitem_Some {A} (a : list A) (i : nat) v : a !! i = Some v -> getitem a i = Ok v.
Proof. unfold getitem. intros ->. reflexivity. Qed.

Lemma getitem_lt {A} (a : list A) (i : nat) :
  i < length a -> exists v, a !! i = Some v /\ getitem a i = Ok v.
Proof.
  intros Hi. destruct (lookup_lt_is_Some_2 a i Hi) as [v Hv].
  exists v. split; [assumption|]. apply getitem_Some, Hv.
Qed.

Lemma getitem_Z_nat {A} (a : list A) (i : nat) : getitem_Z a (Z.of_nat i) = getitem a i.
Proof.
  unfold getitem_Z. destruct (Z.ltb_spec (Z.of_nat i) 0); [lia|].
  rewrite Nat2Z.id. reflexivity.
Qed.

Lemma take_indices_ok {A} (a : list A) (idx : list nat) :
  Forall (fun p => p < length a) idx ->
  exists vals, take_indices a idx = Ok vals /\ length vals = length idx /\
               forall k p, idx !! k = Some p -> vals !! k = a !! p.
Proof.
  unfold take_indices. induction idx as [|p idx IH]; intros Hall.
  - exists []. repeat split; auto. intros k p Hk. rewrite lookup_nil in Hk. discriminate.
  - inversion Hall as [|? ? Hp Hrest]; subst.
    destruct (IH Hrest) as (vals & Hv & Hlen & Hget).
    destruct (getitem_lt a p Hp) as (v & Hlook & Hgi).
    exists (v :: vals). cbn. rewrite Hgi. cbn. rewrite Hv. cbn.
    repeat split; [simpl; lia|].
    intros [|k] q Hk; simpl in *; [congruence|]. apply Hget, Hk.
Qed.

Lemma argmin_scan_lt (a : list float) : forall mp best i,
  best < i -> argmin_scan mp best i a < i + length a.
Proof.
  induction a as [|x a IH]; intros mp best i Hb; simpl; [lia|].
  destruct (mp <=? x)%float.
  - specialize (IH mp best (Datatypes.S i)). lia.
  - destruct (isnan x); [lia|]. specialize (IH x i (Datatypes.S i)). lia.
Qed.

Lemma argmin_lt (a : list float) (i : nat) : argmin a = Ok i -> i < length a.
Proof.
  destruct a as [|x a]; simpl; [discriminate|].
  destruct (isnan x); intros [= <-]; [lia|].
  pose proof (argmin_scan_lt a x 0 1). lia.
Qed.

Lemma argmin_nonempty (a : list float) : a <> [] -> exists i, argmin a = Ok i.
Proof. destruct a as [|x a]; [congruence|]. intros _. simpl. destruct (isnan x); eauto. Qed.

(** The scan returns the first position of the least sample when no sample
    is NaN. *)
Lemma argmin_scan_spec (a : list float) : forall (pre : list float) mp best,
  pre !! best = Some mp ->
  is_nan mp = false ->
  Forall (fun w => is_nan w = false) a ->
  (forall k w, pre !! k = Some w -> (mp <=? w)%float = true) ->
  (forall k w, k < best -> pre !! k = Some w -> (mp <? w)%float = true) ->
  exists v, (pre ++ a) !! argmin_scan mp best (length pre) a = Some v /\
    (forall k w, (pre ++ a) !! k = Some w -> (v <=? w)%float = true) /\
    (forall k w, k < argmin_scan mp best (length pre) a ->
                 (pre ++ a) !! k = Some w -> (v <? w)%float = true).
Proof.
  induction a as [|x a IH]; intros pre mp best Hbest Hmp Hall Hle Hlt; simpl.
  - rewrite app_nil_r. exists mp. auto.
  - inversion Hall as [|? ? Hx Hrest]; subst.
    replace (pre ++ x :: a) with ((pre ++ [x]) ++ a) by (rewrite <- app_assoc; reflexivity).
    replace (Datatypes.S (length pre)) with (length (pre ++ [x]))
      by (rewrite length_app; simpl; lia).
    destruct (mp <=? x)%float eqn:E.
    + apply IH; auto.
      * rewrite lookup_app_l; [assumption|]. apply lookup_lt_Some in Hbest. exact Hbest.
      * intros k w Hk. apply lookup_app_Some in Hk as [Hk|[_ Hk]]; [eauto|].
        apply list_lookup_singleton_Some in Hk as [_ <-]. exact E.
      * intros k w Hkb Hk. apply lookup_app_Some in Hk as [Hk|[Hge _]]; [eauto|].
        apply lookup_lt_Some in Hbest. lia.
    + unfold isnan. rewrite Hx.
      assert ((x <? mp)%float = true) as Hxm by (apply Fl.not_leb_ltb; assumption).
      apply IH; auto.
      * rewrite lookup_app_r by lia. rewrite Nat.sub_diag. reflexivity.
      * intros k w Hk. apply lookup_app_Some in Hk as [Hk|[_ Hk]].
        -- apply Fl.ltb_leb. eapply Fl.ltb_leb_trans; eauto.
        -- apply list_lookup_singleton_Some in Hk as [_ <-]. apply Fl.leb_refl, Hx.
      * intros k w Hkb Hk. apply lookup_app_Some in Hk as [Hk|[Hge _]]; [|lia].
        eapply Fl.ltb_leb_trans; eauto.
Qed.

Lemma argmin_spec (a : list float) :
  a <> [] ->
  Forall (fun w => is_nan w = false) a ->
  exists arg v, argmin a = Ok arg /\ a !! arg = Some v /\
    (forall k w, a !! k = Some w -> (v <=? w)%float = true) /\
    (forall k w, k < arg -> a !! k = Some w -> (v <? w)%float = true).
Proof.
  destruct a as [|x a]; [congruence|]. intros _ Hall.
  inversion Hall as [|? ? Hx Hrest]; subst.
  unfold argmin, isnan. rewrite Hx.
  destruct (argmin_scan_spec a [x] x 0) as (v & H1 & H2 & H3); auto.
  - intros k w Hk. apply list_lookup_singleton_Some in Hk as [_ <-]. apply Fl.leb_refl, Hx.
  - intros k w Hk. lia.
  - exists (argmin_scan x 0 1 a), v. auto.
Qed.

End NpFacts.

(** ** [get_min_trap] *)

Module MinTrapFacts.
Import Scipy ScipyFacts NpFacts.

Lemma interior_neg (trap : list float) (p : nat) :
  interior (Np.neg trap) p -> p < length trap /\ is_nan (at_ trap p) = false.
Proof.
  unfold interior, Np.neg. rewrite length_fmap. intros (H1 & H2 & H3).
  split; [lia|]. fold (Np.neg trap) in H3. rewrite at_neg in H3 by lia.
  rewrite Fl.is_nan_opp in H3. exact H3.
Qed.

Lemma at_Some (x : list float) (i : nat) : i < length x -> x !! i = Some (at_ x i).
Proof.
  intros Hi. destruct (lookup_lt_is_Some_2 x i Hi) as [v Hv].
  rewrite Hv. f_equal. symmetry. apply at_lookup, Hv.
Qed.

Lemma candidates_facts (trap : list float) :
  exists props,
    find_peaks (Np.neg trap) None (Some 10) (Some 5e-4%float) = Ok (candidates trap, props) /\
    Forall (interior (Np.neg trap)) (candidates trap) /\
    prominences props = prominence_of (Np.neg trap) <$> candidates trap /\
    left_bases props = left_base_of (Np.neg trap) <$> candidates trap /\
    Forall (fun p => (5e-4 <=? prominence_of (Np.neg trap) p)%float = true) (candidates trap).
Proof.
  unfold candidates.
  destruct (find_peaks_prominence_ok (Np.neg trap) 10 5e-4%float) as [[peaks props] Hfp]; [lia|].
  rewrite Hfp. exists props. split; [reflexivity|].
  apply (find_peaks_prominence _ _ _ _ _ Hfp).
Qed.

(** The four outcomes of [get_min_trap] on an axis and a curve of the same
    length, by the number of candidates. *)
Lemma get_min_trap_spec (y trap : list float) (e : option float) :
  length y = length trap ->
  (candidates trap = [] /\ get_min_trap y trap e = Ok none_found) \/
  (exists p, candidates trap = [p] /\ p <= 5 /\ get_min_trap y trap e = Ok none_found) \/
  (exists p, candidates trap = [p] /\ 5 < p /\ get_min_trap y trap e = Ok (found y trap p p)) \/
  (exists arg c p0,
     1 < length (candidates trap) /\
     candidates trap !! arg = Some c /\ candidates trap !! 0 = Some p0 /\
     (forall k c', candidates trap !! k = Some c' -> (at_ trap c <=? at_ trap c')%float = true) /\
     (forall k c', k < arg -> candidates trap !! k = Some c' ->
                   (at_ trap c <? at_ trap c')%float = true) /\
     get_min_trap y trap e = Ok (found y trap c p0)).
Proof.
  intros Hlen.
  destruct (candidates_facts trap) as (props & Hfp & Hint & Hprom & Hbase & _).
  unfold get_min_trap. rewrite Hfp. cbn [mbind result_bind fst snd].
  rewrite Hprom, Hbase.
  destruct (candidates trap) as [|p0 [|p1 rest]] eqn:Hc.
  - left. split; reflexivity.
  - cbn [length Nat.eqb andb]. change (default 0 ([p0] !! 0)) with p0.
    inversion Hint as [|? ? Hp _]; subst.
    apply interior_neg in Hp as [Hp _].
    destruct (5 <? p0) eqn:E.
    + right. right. left. exists p0. apply Nat.ltb_lt in E. repeat split; auto.
      cbn. rewrite (getitem_Some y p0 _ (at_Some y p0 ltac:(lia))).
      cbn. rewrite (getitem_Some trap p0 _ (at_Some trap p0 Hp)). reflexivity.
    + right. left. exists p0. apply Nat.ltb_ge in E. repeat split; auto.
      destruct (p0 <=? 5) eqn:E'; [reflexivity|]. apply Nat.leb_gt in E'. lia.
  - right. right. right.
    cbn [length Nat.eqb andb].
    assert (Forall (fun p => p < length trap) (p0 :: p1 :: rest)) as Hrange.
    { eapply Forall_impl; [exact Hint|]. intros p Hp. apply interior_neg in Hp. tauto. }
    destruct (take_indices_ok trap _ Hrange) as (vals & Hvals & Hvlen & Hvget).
    rewrite Hvals. cbn [mbind result_bind].
    assert (Forall (fun w => is_nan w = false) vals) as Hnn.
    { apply Forall_lookup. intros k w Hk.
      destruct (lookup_lt_is_Some_2 (p0 :: p1 :: rest) k) as [p Hp].
      { rewrite <- Hvlen. eapply lookup_lt_Some, Hk. }
      rewrite (Hvget _ _ Hp) in Hk.
      pose proof (proj1 (Forall_lookup _ _) Hint k p Hp) as Hi.
      apply interior_neg in Hi as [_ Hi]. rewrite (at_lookup _ _ _ Hk) in Hi. exact Hi. }
    destruct (argmin_spec vals) as (arg & v & Harg & Hv & Hle & Hlt); auto.
    { intros ->. simpl in Hvlen. lia. }
    rewrite Harg. cbn [mbind result_bind].
    destruct (lookup_lt_is_Some_2 (p0 :: p1 :: rest) arg) as [c Hcl].
    { rewrite <- Hvlen. eapply lookup_lt_Some, Hv. }
    pose proof (proj1 (Forall_lookup _ _) Hrange arg c Hcl) as Hcr. cbn beta in Hcr.
    rewrite (Hvget _ _ Hcl) in Hv. pose proof (at_lookup _ _ _ Hv) as Hvc. subst v.
    exists arg, c, p0. split; [simpl; lia|]. split; [exact Hcl|]. split; [reflexivity|].
    split; [|split].
    + intros k c' Hk. pose proof (proj1 (Forall_lookup _ _) Hrange k c' Hk) as Hk'.
      cbn beta in Hk'. apply (Hle k). rewrite (Hvget _ _ Hk). apply at_Some, Hk'.
    + intros k c' Hka Hk. pose proof (proj1 (Forall_lookup _ _) Hrange k c' Hk) as Hk'.
      cbn beta in Hk'. apply (Hlt k); [assumption|]. rewrite (Hvget _ _ Hk). apply at_Some, Hk'.
    + rewrite (getitem_Some _ _ _ Hcl). cbn [mbind result_bind].
      rewrite (getitem_Some y c _ (at_Some y c ltac:(lia))). cbn [mbind result_bind].
      rewrite (getitem_Some trap c _ (at_Some trap c Hcr)). cbn [mbind result_bind].
      rewrite (getitem_Some (prominence_of (Np.neg trap) <$> p0 :: p1 :: rest) arg
                 (prominence_of (Np.neg trap) c))
        by (rewrite list_lookup_fmap, Hcl; reflexivity).
      reflexivity.
Qed.

End MinTrapFacts.

(** ** The minimum, its barrier and its left base *)

Section MinTrapClaims.
Import Scipy ScipyFacts NpFacts MinTrapFacts Demo Examples.

Lemma candidates_eq (trap : list float) peaks props :
  find_peaks (Np.neg trap) None (Some 10) (Some 5e-4%float) = Ok (peaks, props) ->
  candidates trap = peaks.
Proof. unfold candidates. intros ->. reflexivity. Qed.

Lemma candidates_prominent (trap : list float) (c : nat) :
  c ∈ candidates trap -> (5e-4 <=? prominence_of (Np.neg trap) c)%float = true.
Proof.
  destruct (candidates_facts trap) as (props & _ & _ & _ & _ & Hp).
  intros Hc. exact (proj1 (Forall_forall _ _) Hp c Hc).
Qed.

(** C2 (amended): on an axis and a curve of the same length, when
    [get_min_trap] accepts a minimum (its first component is an index), the
    barrier height it returns is the negated prominence of the selected
    minimum: a negative number whose magnitude is that prominence. *)
Theorem get_min_trap_barrier_is_negated_prominence
    (y trap : list float) (e : option float) (i : Z) (pos depth height base : pyval) :
  length y = length trap ->
  get_min_trap y trap e = Ok [PyInt i; pos; depth; height; base] ->
  exists c, i = Z.of_nat c /\ c ∈ candidates trap /\
    height = PyFloat (- prominence_of (Np.neg trap) c)%float /\
    (- prominence_of (Np.neg trap) c <? 0)%float = true /\
    abs (- prominence_of (Np.neg trap) c) = prominence_of (Np.neg trap) c.
Proof.
  intros Hlen Hres.
  assert (exists c p0, c ∈ candidates trap /\ get_min_trap y trap e = Ok (found y trap c p0))
    as (c & p0 & Hc & Hfound).
  { destruct (get_min_trap_spec y trap e Hlen)
      as [[_ Hn]|[(p & _ & _ & Hn)|[(p & Hp & _ & Hf)|(arg & c & p0 & _ & Hc & _ & _ & _ & Hf)]]].
    - rewrite Hn in Hres. discriminate.
    - rewrite Hn in Hres. discriminate.
    - exists p, p. split; [rewrite Hp; apply list_elem_of_here|exact Hf].
    - exists c, p0. split; [eapply list_elem_of_lookup_2, Hc|exact Hf]. }
  rewrite Hfound in Hres. injection Hres as <- _ _ <- _.
  pose proof (Fl.min_prominence_pos _ (candidates_prominent trap c Hc)) as Hpos.
  exists c. repeat split; auto using Fl.opp_neg, Fl.abs_opp_pos.
Qed.

(** C7: when more than one local minimum is detected, the index, position and
    depth returned are those of the candidate with the lowest curve value,
    and every candidate listed before it lies strictly higher, so that among
    equal lowest values the first occurrence is the one returned. *)
Theorem get_min_trap_lowest_first_occurrence
    (y trap : list float) (e : option float) (peaks : list nat) (props : properties) :
  length y = length trap ->
  find_peaks (Np.neg trap) None (Some 10) (Some 5e-4%float) = Ok (peaks, props) ->
  1 < length peaks ->
  exists arg c height base,
    peaks !! arg = Some c /\
    get_min_trap y trap e =
      Ok [PyInt (Z.of_nat c); PyFloat (at_ y c); PyFloat (at_ trap c); height; base] /\
    (forall k c', peaks !! k = Some c' -> (at_ trap c <=? at_ trap c')%float = true) /\
    (forall k c', k < arg -> peaks !! k = Some c' -> (at_ trap c <? at_ trap c')%float = true).
Proof.
  intros Hlen Hfp Hmany. rewrite <- (candidates_eq _ _ _ Hfp) in *.
  destruct (get_min_trap_spec y trap e Hlen)
    as [[Hn _]|[(p & Hp & _)|[(p & Hp & _)|(arg & c & p0 & _ & Hc & _ & Hle & Hlt & Hf)]]];
    try (rewrite Hn in Hmany; simpl in Hmany; lia);
    try (rewrite Hp in Hmany; simpl in Hmany; lia).
  exists arg, c. eexists _, _. split; [exact Hc|]. split; [exact Hf|]. split; assumption.
Qed.

(** C9: when more than one local minimum is detected, the left-base index
    returned is the one of the first detected candidate, [left_bases[0]],
    whichever candidate is selected. *)
Theorem get_min_trap_left_base_of_first_candidate
    (y trap : list float) (e : option float) (peaks : list nat) (props : properties) :
  length y = length trap ->
  find_peaks (Np.neg trap) None (Some 10) (Some 5e-4%float) = Ok (peaks, props) ->
  1 < length peaks ->
  exists i pos depth height base0,
    get_min_trap y trap e = Ok [i; pos; depth; height; PyInt (Z.of_nat base0)] /\
    left_bases props !! 0 = Some base0.
Proof.
  intros Hlen Hfp Hmany.
  pose proof (candidates_eq _ _ _ Hfp) as Hpk.
  destruct (candidates_facts trap) as (props' & Hfp' & _ & _ & Hbase & _).
  rewrite Hpk in Hfp', Hbase. rewrite Hfp in Hfp'. injection Hfp' as <-.
  destruct (get_min_trap_spec y trap e Hlen)
    as [[Hn _]|[(p & Hn & _)|[(p & Hn & _)|(arg & c & p0 & _ & _ & Hp0 & _ & _ & Hf)]]];
    try (rewrite Hpk in Hn; rewrite Hn in Hmany; simpl in Hmany; lia).
  rewrite Hpk in Hp0.
  eexists _, _, _, _, _. split; [exact Hf|].
  rewrite Hbase, list_lookup_fmap, Hp0. reflexivity.
Qed.

Lemma get_min_trap_barrier_witness :
  exists c, 6%Z = Z.of_nat c /\ c ∈ candidates single_well /\
    PyFloat (-4) = PyFloat (- prominence_of (Np.neg single_well) c)%float /\
    (- prominence_of (Np.neg single_well) c <? 0)%float = true /\
    abs (- prominence_of (Np.neg single_well) c) = prominence_of (Np.neg single_well) c.
Proof.
  apply (get_min_trap_barrier_is_negated_prominence
           (ramp 11) single_well None 6 (PyFloat 6) (PyFloat (-1)) (PyFloat (-4)) (PyInt 0));
    [reflexivity | vm_compute; reflexivity].
Defined.

(** C2 (as stated) fails on [single_well]: the minimum at index 6 is
    accepted and has prominence 4, and the barrier height returned is -4,
    which is negative and differs from the prominence. *)
Lemma get_min_trap_barrier_negative :
  get_min_trap (ramp 11) single_well None
    = Ok [PyInt 6; PyFloat 6; PyFloat (-1); PyFloat (-4); PyInt 0] /\
  prominence_of (Np.neg single_well) 6 = 4%float /\
  (0 <=? -4)%float = false /\
  (-4 =? prominence_of (Np.neg single_well) 6)%float = false.
Proof. vm_compute. repeat split; reflexivity. Qed.

Lemma get_min_trap_lowest_witness :
  exists arg c height base,
    [8; 22] !! arg = Some c /\
    get_min_trap (ramp 29) two_wells None =
      Ok [PyInt (Z.of_nat c); PyFloat (at_ (ramp 29) c); PyFloat (at_ two_wells c);
          height; base] /\
    (forall k c', [8; 22] !! k = Some c' ->
                  (at_ two_wells c <=? at_ two_wells c')%float = true) /\
    (forall k c', k < arg -> [8; 22] !! k = Some c' ->
                  (at_ two_wells c <? at_ two_wells c')%float = true).
Proof.
  apply (get_min_trap_lowest_first_occurrence (ramp 29) two_wells None [8; 22]
           {| peak_heights := []; prominences := [2; 5]%float;
              left_bases := [0; 14]; right_bases := [14; 28] |});
    [reflexivity | vm_compute; reflexivity | simpl; lia].
Defined.

(** Two candidates of equal depth: the first one is returned. *)
Example twin_wells_first_occurrence :
  candidates twin_wells = [8; 22] /\
  at_ twin_wells 8 = at_ twin_wells 22 /\
  get_min_trap (ramp 29) twin_wells None
    = Ok [PyInt 8; PyFloat 8; PyFloat (-1); PyFloat (-2); PyInt 0].
Proof. vm_compute. repeat split; reflexivity. Qed.

Lemma get_min_trap_left_base_witness :
  exists i pos depth height base0,
    get_min_trap (ramp 29) two_wells None
      = Ok [i; pos; depth; height; PyInt (Z.of_nat base0)] /\
    [0; 14] !! 0 = Some base0.
Proof.
  apply (get_min_trap_left_base_of_first_candidate (ramp 29) two_wells None [8; 22]
           {| peak_heights := []; prominences := [2; 5]%float;
              left_bases := [0; 14]; right_bases := [14; 28] |});
    [reflexivity | vm_compute; reflexivity | simpl; lia].
Defined.

(** On [two_wells] the second candidate is selected, its own left base is
    the ridge at index 14, and the left base returned is the one of the first
    candidate, index 0. *)
Example two_wells_left_base :
  candidates two_wells = [8; 22] /\
  left_base_of (Np.neg two_wells) 8 = 0 /\
  left_base_of (Np.neg two_wells) 22 = 14 /\
  get_min_trap (ramp 29) two_wells None
    = Ok [PyInt 22; PyFloat 22; PyFloat (-2); PyFloat (-5); PyInt 0].
Proof. vm_compute. repeat split; reflexivity. Qed.

End MinTrapClaims.

(** ** [get_trapfreq] *)

Section TrapFreqClaims.
Context `{Numerics} `{Units} {S : Type} `{Simulation S}.
Import MinTrapFacts.

Ltac bind_ok :=
  match goal with
  | |- context [mbind _ ?r] =>
      destruct r; cbn [mbind result_bind]; [|discriminate]
  end.

(** Every tuple [get_min_trap] returns has five components. *)
Lemma get_min_trap_arity (y trap : list float) (e : option float) (t : list pyval) :
  get_min_trap y trap e = Ok t -> length t = 5.
Proof.
  unfold get_min_trap. bind_ok. cbn zeta.
  repeat match goal with
         | |- context [if ?b then _ else _] => destruct b
         end;
    repeat bind_ok; intros [= <-]; reflexivity.
Qed.

Lemma get_min_trap_returns (y trap : list float) (e : option float) :
  length y = length trap -> exists t, get_min_trap y trap e = Ok t.
Proof.
  intros Hlen.
  destruct (get_min_trap_spec y trap e Hlen)
    as [[_ Hn]|[(p & _ & _ & Hn)|[(p & _ & _ & Hf)|(arg & c & p0 & _ & _ & _ & _ & _ & Hf)]]];
    eauto.
Qed.

(** C8: [get_trapfreq] never returns a frequency: unpacking the five
    components of the tuple of [get_min_trap] into four names raises, and on
    an axis and a curve of the same length the exception raised is that
    [ValueError]. *)
Theorem get_trapfreq_unpack_raises
    (self : Viz) (y trap : list float) (e : option float) :
  (forall v, get_trapfreq self y trap e <> Ok v) /\
  (length y = length trap ->
   get_trapfreq self y trap e = Raise (ValueError "too many values to unpack (expected 4)")).
Proof.
  assert (forall t, get_min_trap y trap e = Ok t ->
            get_trapfreq self y trap e
              = Raise (ValueError "too many values to unpack (expected 4)")) as Hraise.
  { intros t Ht. pose proof (get_min_trap_arity _ _ _ _ Ht) as Hlen.
    unfold get_trapfreq. rewrite Ht. cbn [mbind result_bind].
    destruct t as [|a [|b [|c [|d [|f [|g t]]]]]]; simpl in Hlen; try lia. reflexivity. }
  split.
  - intros v Hv. destruct (get_min_trap y trap e) as [t|e0] eqn:Ht.
    + rewrite (Hraise t eq_refl) in Hv. discriminate.
    + unfold get_trapfreq in Hv. rewrite Ht in Hv. discriminate.
  - intros Hlen. destruct (get_min_trap_returns y trap e Hlen) as [t Ht]. eauto.
Qed.

End TrapFreqClaims.

Section TrapFreqExamples.
Import MinTrapFacts Demo Examples.

Lemma get_trapfreq_unpack_witness :
  get_trapfreq (viz (ramp 11) single_well [] "NoSurface") (ramp 11) single_well None
    = Raise (ValueError "too many values to unpack (expected 4)").
Proof.
  apply (proj2 (get_trapfreq_unpack_raises
                  (viz (ramp 11) single_well [] "NoSurface") (ramp 11) single_well None)).
  reflexivity.
Defined.

(** C4 at a curve without minimum: [get_min_trap] reports none on the curve
    and on its three-fold tiling, and [get_trapfreq] raises instead of
    returning 0. *)
Theorem get_trapfreq_flat_curve_raises :
  get_min_trap (ramp 8) flat None = Ok none_found /\
  get_min_trap (Np.sub_scalar (ramp 8) 7 ++ ramp 8 ++ Np.add_scalar (ramp 8) 7)
               (flat ++ flat ++ flat) None = Ok none_found /\
  get_trapfreq (viz (ramp 8) flat [] "NoSurface") (ramp 8) flat None
    = Raise (ValueError "too many values to unpack (expected 4)").
Proof. vm_compute. repeat split; reflexivity. Qed.

End TrapFreqExamples.

(** ** [get_coord_trap_outside_structure] *)

Section BoundaryClaims.
Context `{Numerics} `{Units} {S : Type} `{Simulation S}.
Import Scipy ScipyFacts NpFacts.

Lemma column_from_length (a : list (list float)) (lo : nat) (j : Z) (col : list float) :
  column_from a lo j = Ok col -> length col = length a - lo.
Proof.
  unfold column_from. rewrite <- length_drop. generalize (drop lo a). clear a.
  intros rows. revert col. induction rows as [|row rows IH]; intros col; cbn.
  - intros [= <-]. reflexivity.
  - destruct (Np.getitem_Z row j); cbn; [|discriminate].
    destruct (mapM _ rows); cbn; [|discriminate].
    intros [= <-]. simpl. f_equal. apply IH. reflexivity.
Qed.

Lemma getitem_Z_pred {A} (a : list A) (p : nat) :
  1 <= p -> p <= length a ->
  exists v, a !! (p - 1) = Some v /\ Np.getitem_Z a (Z.of_nat p - 1) = Ok v.
Proof.
  intros Hp Hlen. replace (Z.of_nat p - 1)%Z with (Z.of_nat (p - 1)) by lia.
  rewrite getitem_Z_nat. apply getitem_lt. lia.
Qed.

(** C3: when the potential and the proximity curve have a column for the mf
    state, the proximity curve has one sample per axis sample and the axis is
    not empty, [get_coord_trap_outside_structure] raises in two cases only:
    on the trapping axis without surface and without explicit edge, and on
    the trapping axis with a surface whose proximity curve shows more than
    two peaks.  In every other case it returns. *)
Theorem get_coord_trap_outside_structure_raises_iff
    (self : Viz) (axis : string) (coord1 coord2 : float) (mf : Z)
    (edge_no_surface : option float)
    (f' mf' : Z) (simul' : S) (potential : list (list float))
    (trap cp : list float) (peaks : list nat) (props : properties) :
  check_mf (atomicsystem_f (simul self)) mf = (f', mf') ->
  compute_potential_1D axis coord1 coord2 (simul self) = (simul', potential) ->
  column_from potential 0 (mf' + atomicsystem_f (simul self)) = Ok trap ->
  column_from (simul_CP simul') 0 (mf' + atomicsystem_f (simul self)) = Ok cp ->
  length cp = length (set_axis_from_axis axis (simul self)) ->
  set_axis_from_axis axis (simul self) <> [] ->
  find_peaks (Np.neg cp) (Some 10%float) None None = Ok (peaks, props) ->
  let result := get_coord_trap_outside_structure self axis coord1 coord2 mf edge_no_surface in
  let edge_missing :=
    axis = trapping_axis self /\ surface_name simul' = "NoSurface"%string
    /\ edge_no_surface = None in
  let ambiguous :=
    axis = trapping_axis self /\ surface_name simul' <> "NoSurface"%string
    /\ 2 < length peaks in
  (edge_missing -> result = Raise (ValueError edge_message)) /\
  (ambiguous -> result = Raise (ValueError "Too many structures set")) /\
  (~ edge_missing -> ~ ambiguous -> exists r, result = Ok r).
Proof.
  intros Hmf Hpot Htrap Hcp Hlen Hcoord Hfp result edge_missing ambiguous.
  subst result edge_missing ambiguous.
  unfold get_coord_trap_outside_structure. rewrite Hmf, Hpot, Htrap. cbn [mbind result_bind].
  destruct (String.eqb_spec axis (trapping_axis self)) as [Hax|Hax]; cbn [negb andb].
  2:{ split; [tauto|]. split; [tauto|]. eauto. }
  destruct (String.eqb_spec (surface_name simul') "NoSurface") as [Hs|Hs].
  - destruct edge_no_surface as [edge|].
    + split; [intros (_ & _ & [=])|]. split; [tauto|]. intros _ _.
      destruct (argmin_nonempty (Np.abs (Np.sub_scalar (set_axis_from_axis axis (simul self)) edge)))
        as [i Hi].
      { unfold Np.abs, Np.sub_scalar.
        destruct (set_axis_from_axis axis (simul self)); [congruence|discriminate]. }
      rewrite Hi. cbn [mbind result_bind]. eauto.
    + split; [reflexivity|]. split; [tauto|]. intros Hno. exfalso. apply Hno. auto.
  - rewrite Hcp. cbn [mbind result_bind]. rewrite Hfp. cbn [mbind result_bind fst].
    destruct (find_peaks_height (Np.neg cp) 10%float) as (peaks' & props' & Hfp' & Hint).
    rewrite Hfp in Hfp'. injection Hfp' as <- <-.
    split; [tauto|].
    destruct peaks as [|i0 [|i1 [|i2 rest]]]; cbn [length Nat.eqb].
    + split; [simpl; intros (_ & _ & ?); lia|]. eauto.
    + split; [simpl; intros (_ & _ & ?); lia|]. intros _ _.
      apply Forall_cons in Hint as [(Hge & Hlt & _) _].
      unfold Np.neg in Hlt. rewrite length_fmap in Hlt.
      destruct (getitem_Z_pred (set_axis_from_axis axis (simul self)) i0) as (v & _ & Hv);
        [lia|lia|].
      cbn. rewrite Hv. cbn. eauto.
    + split; [simpl; intros (_ & _ & ?); lia|]. intros _ _.
      apply Forall_cons in Hint as [(Hge & Hlt & _) _].
      unfold Np.neg in Hlt. rewrite length_fmap in Hlt.
      destruct (getitem_Z_pred (set_axis_from_axis axis (simul self)) i0) as (v & _ & Hv);
        [lia|lia|].
      cbn. rewrite Hv. cbn. eauto.
    + split; [reflexivity|]. intros _ Hno. exfalso. apply Hno. repeat split; auto. simpl. lia.
Qed.

(** C6 (amended): with a surface and exactly two proximity peaks [i0] and
    [i1], the edge is the axis value one sample before the first peak, and
    the outside axis and curve are the samples of index [i0] up to [i1 - 1],
    the axis re-anchored by subtracting the edge: the first peak is included
    and the second one is not. *)
Theorem get_coord_trap_outside_structure_two_peaks
    (self : Viz) (axis : string) (coord1 coord2 : float) (mf : Z)
    (edge_no_surface : option float)
    (f' mf' : Z) (simul' : S) (potential : list (list float))
    (trap cp : list float) (i0 i1 : nat) (props : properties) :
  check_mf (atomicsystem_f (simul self)) mf = (f', mf') ->
  compute_potential_1D axis coord1 coord2 (simul self) = (simul', potential) ->
  column_from potential 0 (mf' + atomicsystem_f (simul self)) = Ok trap ->
  column_from (simul_CP simul') 0 (mf' + atomicsystem_f (simul self)) = Ok cp ->
  length cp = length (set_axis_from_axis axis (simul self)) ->
  length trap = length (set_axis_from_axis axis (simul self)) ->
  axis = trapping_axis self ->
  surface_name simul' <> "NoSurface"%string ->
  find_peaks (Np.neg cp) (Some 10%float) None None = Ok ([i0; i1], props) ->
  let coord := set_axis_from_axis axis (simul self) in
  exists edge y_outside trap_outside,
    get_coord_trap_outside_structure self axis coord1 coord2 mf edge_no_surface
      = Ok ((mf' + atomicsystem_f (simul self))%Z, PyFloat edge, y_outside, trap_outside) /\
    coord !! (i0 - 1) = Some edge /\
    length y_outside = i1 - i0 /\ length trap_outside = i1 - i0 /\
    (forall k, k < i1 - i0 ->
       y_outside !! k = Some (at_ coord (i0 + k) - edge)%float /\
       trap_outside !! k = Some (at_ trap (i0 + k))).
Proof.
  intros Hmf Hpot Htrap Hcp Hlen Hlent Hax Hs Hfp coord. subst coord.
  destruct (find_peaks_height (Np.neg cp) 10%float) as (peaks' & props' & Hfp' & Hint).
  rewrite Hfp in Hfp'. injection Hfp' as <- <-.
  apply Forall_cons in Hint as [(Hge & Hlt & _) Hint'].
  apply Forall_cons in Hint' as [(Hge' & Hlt' & _) _]. subst axis.
  unfold Np.neg in Hlt, Hlt'. rewrite length_fmap in Hlt, Hlt'.
  set (coord := set_axis_from_axis (trapping_axis self) (simul self)) in *.
  destruct (getitem_Z_pred coord i0) as (edge & Hedge & Hv); [lia|lia|].
  exists edge, (Np.sub_scalar (Np.slice coord i0 i1) edge), (Np.slice trap i0 i1).
  split.
  { unfold get_coord_trap_outside_structure. rewrite Hmf, Hpot, Htrap. cbn [mbind result_bind].
    rewrite String.eqb_refl. cbn [negb andb].
    destruct (String.eqb_spec (surface_name simul') "NoSurface") as [|_]; [contradiction|].
    rewrite Hcp. cbn [mbind result_bind]. rewrite Hfp. cbn [mbind result_bind fst].
    cbn [length Nat.eqb]. fold coord. cbn. rewrite Hv. reflexivity. }
  split; [exact Hedge|].
  unfold Np.sub_scalar, Np.slice.
  rewrite length_fmap, !length_take, !length_drop.
  split; [lia|]. split; [lia|].
  intros k Hk.
  rewrite list_lookup_fmap, !lookup_take_lt, !lookup_drop by lia.
  rewrite (MinTrapFacts.at_Some coord (i0 + k)) by lia.
  rewrite (MinTrapFacts.at_Some trap (i0 + k)) by lia.
  split; reflexivity.
Qed.

End BoundaryClaims.

Section BoundaryExamples.
Import Scipy Demo Examples.

Lemma get_coord_trap_outside_structure_raises_witness :
  get_coord_trap_outside_structure
    (viz (ramp 10) slope three_spikes "CylindricalSurface") "Y" 0 0 0 None
  = Raise (ValueError "Too many structures set").
Proof.
  edestruct (get_coord_trap_outside_structure_raises_iff
               (viz (ramp 10) slope three_spikes "CylindricalSurface") "Y" 0 0 0 None)
    as (_ & Hambiguous & _);
    [reflexivity | reflexivity | reflexivity | reflexivity | reflexivity
    | discriminate | reflexivity | ].
  apply Hambiguous. repeat split; [discriminate | vm_compute; lia].
Defined.

Lemma get_coord_trap_outside_structure_two_peaks_witness :
  exists edge y_outside trap_outside,
    get_coord_trap_outside_structure
      (viz (ramp 10) slope two_spikes "CylindricalSurface") "Y" 0 0 0 None
      = Ok (0%Z, PyFloat edge, y_outside, trap_outside) /\
    ramp 10 !! (3 - 1) = Some edge /\
    length y_outside = 7 - 3 /\ length trap_outside = 7 - 3 /\
    (forall k, k < 7 - 3 ->
       y_outside !! k = Some (at_ (ramp 10) (3 + k) - edge)%float /\
       trap_outside !! k = Some (at_ slope (3 + k))).
Proof.
  refine (get_coord_trap_outside_structure_two_peaks
            (viz (ramp 10) slope two_spikes "CylindricalSurface") "Y" 0 0 0 None
            0%Z 0%Z _ _ slope two_spikes 3 7
            {| peak_heights := [20; 30]%float; prominences := [];
               left_bases := []; right_bases := [] |}
            _ _ _ _ _ _ _ _ _);
    try reflexivity. discriminate.
Defined.

(** C6 (as stated) fails on [two_spikes]: the peaks are at indices 3 and 7,
    the closed interval between them has the five samples 3 to 7, and the
    outside axis and curve returned have the four samples 3 to 6 only. *)
Lemma get_coord_trap_outside_structure_excludes_second_peak :
  find_peaks (Np.neg two_spikes) (Some 10%float) None None
    = Ok ([3; 7], {| peak_heights := [20; 30]%float; prominences := [];
                     left_bases := []; right_bases := [] |}) /\
  get_coord_trap_outside_structure
    (viz (ramp 10) slope two_spikes "CylindricalSurface") "Y" 0 0 0 None
    = Ok (0%Z, PyFloat 2, [1; 2; 3; 4]%float, [6; 5; 4; 3]%float) /\
  Np.sub_scalar (Np.slice (ramp 10) 3 (7 + 1)) 2 = [1; 2; 3; 4; 5]%float /\
  Np.slice slope 3 (7 + 1) = [6; 5; 4; 3; 2]%float.
Proof. vm_compute. repeat split; reflexivity. Qed.

End BoundaryExamples.

(** ** The sweep *)

Section LoopFacts.
Context {A St : Type}.

Lemma for_enumerate_app (body : nat -> A -> St -> result St) (l1 l2 : list A) :
  forall i st,
    for_enumerate body i (l1 ++ l2) st
    = st' ← for_enumerate body i l1 st; for_enumerate body (i + length l1) l2 st'.
Proof.
  induction l1 as [|x l1 IH]; intros i st; cbn.
  - rewrite Nat.add_0_r. reflexivity.
  - destruct (body i x st) as [st'|e]; cbn; [|reflexivity].
    rewrite IH. replace (Datatypes.S i + length l1) with (i + Datatypes.S (length l1)) by lia.
    reflexivity.
Qed.

(** A loop whose body keeps an invariant and does not raise under it runs to
    its end and keeps the invariant. *)
Lemma for_enumerate_invariant (Inv : St -> Prop) (body : nat -> A -> St -> result St)
    (l : list A) :
  forall i st,
    Inv st ->
    (forall k x st, l !! k = Some x -> Inv st ->
                    exists st', body (i + k) x st = Ok st' /\ Inv st') ->
    exists st', for_enumerate body i l st = Ok st' /\ Inv st'.
Proof.
  induction l as [|x l IH]; intros i st Hst Hbody; cbn.
  - eauto.
  - destruct (Hbody 0 x st eq_refl Hst) as (st1 & Hb & Hst1).
    rewrite Nat.add_0_r in Hb. rewrite Hb. cbn.
    apply IH; [assumption|].
    intros k y st2 Hk Hst2. replace (Datatypes.S i + k) with (i + Datatypes.S k) by lia.
    apply Hbody; assumption.
Qed.

(** A loop that returns keeps every invariant its body keeps. *)
Lemma for_enumerate_preserves (Inv : St -> Prop) (body : nat -> A -> St -> result St)
    (l : list A) :
  forall i st st',
    Inv st ->
    (forall k x st st', l !! k = Some x -> Inv st -> body (i + k) x st = Ok st' -> Inv st') ->
    for_enumerate body i l st = Ok st' -> Inv st'.
Proof.
  induction l as [|x l IH]; intros i st st' Hst Hbody; cbn.
  - intros [= <-]. exact Hst.
  - destruct (body i x st) as [st1|e] eqn:Hb; cbn; [|discriminate].
    apply IH.
    + apply (Hbody 0 x st st1 eq_refl Hst). rewrite Nat.add_0_r. exact Hb.
    + intros k y st2 st3 Hk Hst2. replace (Datatypes.S i + k) with (i + Datatypes.S k) by lia.
      apply Hbody; assumption.
Qed.

(** An exception raised by the body at position [k] ends the loop. *)
Lemma for_enumerate_raise (body : nat -> A -> St -> result St) (l : list A)
    (i k : nat) (x : A) (st st_k : St) (e : exn) :
  for_enumerate body i (take k l) st = Ok st_k ->
  l !! k = Some x ->
  body (i + k) x st_k = Raise e ->
  for_enumerate body i l st = Raise e.
Proof.
  intros Hpre Hx Hraise.
  rewrite <- (take_drop k l), for_enumerate_app, Hpre. cbn.
  rewrite length_take_le by (apply lookup_lt_Some in Hx; lia).
  rewrite (drop_S l x k Hx). cbn. rewrite Hraise. reflexivity.
Qed.

End LoopFacts.

Section GridFacts.

Lemma zeros_shaped (n1 n2 : nat) : shaped n1 n2 (zeros n1 n2).
Proof.
  unfold shaped, zeros. rewrite length_replicate. split; [reflexivity|].
  apply Forall_replicate, length_replicate.
Qed.

Lemma setitem2_shaped (n1 n2 : nat) (g : list (list float)) (i j : nat) (v : float) :
  shaped n1 n2 g -> i < n1 -> j < n2 ->
  exists g', setitem2 g i j v = Ok g' /\ shaped n1 n2 g' /\ entry g' i j = Some v.
Proof.
  intros [Hlen Hrows] Hi Hj. unfold setitem2.
  destruct (lookup_lt_is_Some_2 g i) as [row Hrow]; [lia|]. rewrite Hrow.
  pose proof (proj1 (Forall_lookup _ _) Hrows i row Hrow) as Hr. cbn beta in Hr.
  rewrite bool_decide_eq_true_2 by lia.
  eexists. split; [reflexivity|]. split; [split|].
  - rewrite length_insert. exact Hlen.
  - apply Forall_insert; [assumption|]. rewrite length_insert. exact Hr.
  - unfold entry. rewrite list_lookup_insert_eq by lia. cbn.
    apply list_lookup_insert_eq. lia.
Qed.

Lemma nan_to_zeros_shaped (n1 n2 : nat) (g : list (list float)) :
  shaped n1 n2 g -> shaped n1 n2 (nan_to_zeros g).
Proof.
  intros [Hlen Hrows]. unfold shaped, nan_to_zeros. rewrite length_fmap.
  split; [assumption|]. apply Forall_fmap. eapply Forall_impl; [exact Hrows|].
  intros row Hr. cbn. rewrite length_fmap. exact Hr.
Qed.

Lemma nan_to_zeros_no_nan (g : list (list float)) : no_nan (nan_to_zeros g).
Proof.
  unfold no_nan, nan_to_zeros. apply Forall_fmap, Forall_true. intros row. cbn.
  apply Forall_fmap, Forall_true. intros v. cbn. unfold Np.isnan.
  destruct (is_nan v) eqn:E; [reflexivity|exact E].
Qed.

Lemma imul_shaped (n1 n2 : nat) (g : list (list float)) (c : float) :
  shaped n1 n2 g -> shaped n1 n2 (imul g c).
Proof.
  intros [Hlen Hrows]. unfold shaped, imul. rewrite length_fmap.
  split; [assumption|]. apply Forall_fmap. eapply Forall_impl; [exact Hrows|].
  intros row Hr. cbn. rewrite length_fmap. exact Hr.
Qed.

Lemma imul_1e9_no_nan (g : list (list float)) : no_nan g -> no_nan (imul g 1e9).
Proof.
  unfold no_nan, imul. intros Hg. apply Forall_fmap. eapply Forall_impl; [exact Hg|].
  intros row Hr. cbn. apply Forall_fmap. eapply Forall_impl; [exact Hr|].
  intros v Hv. cbn. apply Fl.mul_1e9_not_nan, Hv.
Qed.

End GridFacts.

Section SweepClaims.
Context `{Numerics} `{Units} {S : Type} `{Simulation S}.

(** The four assignments that end a cell. *)
Lemma store_cell (n1 n2 : nat) (st : @sweep S) (simul' : S) (i j : nat)
    (pos depth height freq : float) :
  sweep_shaped n1 n2 st -> i < n1 -> j < n2 ->
  exists st',
    (pos' ← setitem2 (res_pos st) i j pos;
     depth' ← setitem2 (res_depth st) i j depth;
     height' ← setitem2 (res_height st) i j height;
     freq' ← setitem2 (res_freq st) i j freq;
     Ok {| sw_simul := simul'; res_pos := pos'; res_depth := depth';
           res_height := height'; res_freq := freq' |}) = Ok st' /\
    sweep_shaped n1 n2 st' /\ sw_simul st' = simul' /\
    entry (res_freq st') i j = Some freq.
Proof.
  intros (Hp & Hd & Hh & Hf) Hi Hj.
  destruct (setitem2_shaped n1 n2 _ i j pos Hp Hi Hj) as (p' & -> & Hp' & _).
  destruct (setitem2_shaped n1 n2 _ i j depth Hd Hi Hj) as (d' & -> & Hd' & _).
  destruct (setitem2_shaped n1 n2 _ i j height Hh Hi Hj) as (h' & -> & Hh' & _).
  destruct (setitem2_shaped n1 n2 _ i j freq Hf Hi Hj) as (f' & -> & Hf' & Hentry).
  eexists. split; [reflexivity|].
  split; [unfold sweep_shaped; cbn; tauto|]. split; [reflexivity|exact Hentry].
Qed.

(** A cell that returns keeps the shape of the grids and leaves the
    simulation with the powers of the cell. *)
Lemma optimize_cell_shaped (n1 n2 yidx : nat) (yout : list float)
    (i : nat) (P1 : float) (j : nat) (P2 : float) (st st' : @sweep S) :
  sweep_shaped n1 n2 st -> i < n1 -> j < n2 ->
  optimize_cell yidx yout i P1 j P2 st = Ok st' ->
  sweep_shaped n1 n2 st' /\ sw_simul st' = set_powers [P1; P2] (sw_simul st).
Proof.
  intros Hst Hi Hj. unfold optimize_cell. cbn zeta.
  destruct (column_from _ yidx 0) as [pot|]; cbn [mbind result_bind]; [|discriminate].
  destruct (get_min_trap yout pot None) as [t|]; cbn [mbind result_bind]; [|discriminate].
  destruct (unpack5 t) as [[[[[min_idx min_pos] depth] height] height_idx]|];
    cbn [mbind result_bind]; [|discriminate].
  match goal with
  | |- context [mbind _ ?r] => destruct r as [trap_freq|]; cbn [mbind result_bind]; [|discriminate]
  end.
  match goal with
  | |- (?r = Ok st' -> _) =>
      destruct (store_cell n1 n2 st (set_powers [P1; P2] (sw_simul st)) i j
                  (as_float min_pos)
                  (abs (if (10 <? abs (as_float depth))%float then 0%float else as_float depth))
                  (abs (if (10 <? abs (as_float height))%float then 0%float else as_float height))
                  trap_freq Hst Hi Hj) as (st1 & Hstore & Hshape & Hsim & _)
  end.
  rewrite Hstore. intros [= <-]. split; assumption.
Qed.

Lemma find_nearest_nonempty (array : list float) (value : float) :
  array <> [] -> exists i, find_nearest array value = Ok i.
Proof.
  intros Ha. apply NpFacts.argmin_nonempty. unfold Np.abs, Np.sub_scalar.
  destruct array; [congruence|discriminate].
Qed.

(** A sweep none of whose cells raises runs to its end. *)
Lemma optimize_runs (Inv : S -> Prop) (self : Viz)
    (ymin Pmin1 Pmax1 Pstep1 Pmin2 Pmax2 Pstep2 : float) :
  let Prange1 := arange Pmin1 Pmax1 Pstep1 in
  let Prange2 := arange Pmin2 Pmax2 Pstep2 in
  simul_axis (simul self) <> [] ->
  Inv (simul self) ->
  (forall powers s, Inv s -> Inv (set_powers powers s)) ->
  (forall yidx i P1 j P2 st,
     find_nearest (simul_axis (simul self)) ymin = Ok yidx ->
     P1 ∈ Prange1 -> P2 ∈ Prange2 -> i < length Prange1 -> j < length Prange2 ->
     Inv (sw_simul st) -> sweep_shaped (length Prange1) (length Prange2) st ->
     is_ok (optimize_cell yidx (Np.slice_from (simul_axis (simul self)) yidx) i P1 j P2 st)
       = true) ->
  exists self' pos depth height freq,
    optimize self ymin Pmin1 Pmax1 Pstep1 Pmin2 Pmax2 Pstep2
      = Ok (self', (pos, depth, height, freq)) /\
    shaped (length Prange1) (length Prange2) pos /\
    shaped (length Prange1) (length Prange2) depth /\
    shaped (length Prange1) (length Prange2) height /\
    shaped (length Prange1) (length Prange2) freq /\
    no_nan pos /\ no_nan depth /\ no_nan height /\ no_nan freq.
Proof.
  intros Prange1 Prange2 Haxis Hinv0 Hpowers Hcells.
  destruct (find_nearest_nonempty _ ymin Haxis) as [yidx Hyidx].
  unfold optimize, progressbar_enumerate. fold Prange1 Prange2. rewrite Hyidx.
  cbn [mbind result_bind]. rewrite length_reverse.
  set (n1 := length Prange1) in *. set (n2 := length Prange2) in *.
  set (yout := Np.slice_from (simul_axis (simul self)) yidx) in *.
  destruct (for_enumerate_invariant
              (fun st => sweep_shaped n1 n2 st /\ Inv (sw_simul st))
              (fun i P1 st =>
                 for_enumerate (fun j P2 st => optimize_cell yidx yout i P1 j P2 st)
                               0 Prange2 st)
              (reverse Prange1) 0
              {| sw_simul := simul self;
                 res_pos := zeros n1 n2; res_depth := zeros n1 n2;
                 res_height := zeros n1 n2; res_freq := zeros n1 n2 |})
    as (st & Hrun & (Hp & Hd & Hh & Hf) & _).
  { split; [|exact Hinv0]. repeat split; apply zeros_shaped. }
  { intros i P1 st1 HP1 Hst1. cbn [Nat.add].
    assert (i < n1) as Hi
      by (apply lookup_lt_Some in HP1; rewrite length_reverse in HP1; exact HP1).
    assert (P1 ∈ Prange1) as HP1in
      by (apply elem_of_reverse; eapply list_elem_of_lookup_2, HP1).
    apply for_enumerate_invariant; [exact Hst1|].
    intros j P2 st2 HP2 [Hshape Hinv]. cbn [Nat.add].
    assert (j < n2) as Hj by (apply lookup_lt_Some in HP2; exact HP2).
    assert (P2 ∈ Prange2) as HP2in by (eapply list_elem_of_lookup_2, HP2).
    destruct (optimize_cell yidx yout i P1 j P2 st2) as [st3|] eqn:Hcell.
    2:{ pose proof (Hcells yidx i P1 j P2 st2 Hyidx HP1in HP2in Hi Hj Hinv Hshape) as Hok.
        fold yout in Hok. rewrite Hcell in Hok. discriminate Hok. }
    exists st3. split; [reflexivity|].
    destruct (optimize_cell_shaped n1 n2 yidx yout i P1 j P2 st2 st3 Hshape Hi Hj Hcell)
      as [Hshape' ->].
    split; [exact Hshape'|]. apply Hpowers, Hinv. }
  rewrite Hrun. cbn [mbind result_bind].
  eexists _, _, _, _, _. split; [reflexivity|].
  split; [apply imul_shaped, nan_to_zeros_shaped, Hp|].
  split; [apply nan_to_zeros_shaped, Hd|].
  split; [apply nan_to_zeros_shaped, Hh|].
  split; [apply nan_to_zeros_shaped, Hf|].
  split; [apply imul_1e9_no_nan, nan_to_zeros_no_nan|].
  split; [apply nan_to_zeros_no_nan|].
  split; apply nan_to_zeros_no_nan.
Qed.


(** Whatever [optimize] returns has the shape of the ranges and no NaN. *)
Lemma optimize_returned_grids (self self' : Viz)
    (ymin Pmin1 Pmax1 Pstep1 Pmin2 Pmax2 Pstep2 : float)
    (pos depth height freq : list (list float)) :
  let n1 := length (arange Pmin1 Pmax1 Pstep1) in
  let n2 := length (arange Pmin2 Pmax2 Pstep2) in
  optimize self ymin Pmin1 Pmax1 Pstep1 Pmin2 Pmax2 Pstep2
    = Ok (self', (pos, depth, height, freq)) ->
  shaped n1 n2 pos /\ shaped n1 n2 depth /\ shaped n1 n2 height /\ shaped n1 n2 freq /\
  no_nan pos /\ no_nan depth /\ no_nan height /\ no_nan freq.
Proof.
  intros n1 n2. unfold optimize, progressbar_enumerate.
  destruct (find_nearest (simul_axis (simul self)) ymin) as [yidx|];
    cbn [mbind result_bind]; [|discriminate].
  rewrite length_reverse. fold n1 n2.
  match goal with
  | |- context [for_enumerate ?body 0 ?l ?st] =>
      destruct (for_enumerate body 0 l st) as [st'|] eqn:Hrun;
      cbn [mbind result_bind]; [|discriminate];
      assert (sweep_shaped n1 n2 st') as (Hp & Hd & Hh & Hf)
  end.
  { revert Hrun. apply (for_enumerate_preserves (sweep_shaped n1 n2)).
    - split; [|split; [|split]]; apply zeros_shaped.
    - intros i P1 st1 st2 HP1 Hst1. cbn [Nat.add].
      assert (i < n1) as Hi
        by (apply lookup_lt_Some in HP1; rewrite length_reverse in HP1; exact HP1).
      apply (for_enumerate_preserves (sweep_shaped n1 n2)); [exact Hst1|].
      intros j P2 st3 st4 HP2 Hst3 Hcell. cbn [Nat.add] in Hcell.
      assert (j < n2) as Hj by (apply lookup_lt_Some in HP2; exact HP2).
      apply (optimize_cell_shaped n1 n2 _ _ i P1 j P2 st3 st4 Hst3 Hi Hj Hcell). }
  intros [= <- <- <- <- <-].
  split; [apply imul_shaped, nan_to_zeros_shaped, Hp|].
  split; [apply nan_to_zeros_shaped, Hd|].
  split; [apply nan_to_zeros_shaped, Hh|].
  split; [apply nan_to_zeros_shaped, Hf|].
  split; [apply imul_1e9_no_nan, nan_to_zeros_no_nan|].
  split; [apply nan_to_zeros_no_nan|].
  split; apply nan_to_zeros_no_nan.
Qed.

(** C1: the four grids [optimize] returns have the shape
    [(len(Prange1), len(Prange2))] and contain no NaN; and [optimize] does
    return them when the axis is not empty and no cell of the sweep raises.
    The simulations the sweep goes through are described by an invariant
    [Inv] that setting the powers preserves. *)
Theorem optimize_grids_shape_no_nan (Inv : S -> Prop) (self : Viz)
    (ymin Pmin1 Pmax1 Pstep1 Pmin2 Pmax2 Pstep2 : float) :
  let Prange1 := arange Pmin1 Pmax1 Pstep1 in
  let Prange2 := arange Pmin2 Pmax2 Pstep2 in
  (forall self' pos depth height freq,
     optimize self ymin Pmin1 Pmax1 Pstep1 Pmin2 Pmax2 Pstep2
       = Ok (self', (pos, depth, height, freq)) ->
     shaped (length Prange1) (length Prange2) pos /\
     shaped (length Prange1) (length Prange2) depth /\
     shaped (length Prange1) (length Prange2) height /\
     shaped (length Prange1) (length Prange2) freq /\
     no_nan pos /\ no_nan depth /\ no_nan height /\ no_nan freq) /\
  (simul_axis (simul self) <> [] ->
   Inv (simul self) ->
   (forall powers s, Inv s -> Inv (set_powers powers s)) ->
   (forall yidx i P1 j P2 st,
      find_nearest (simul_axis (simul self)) ymin = Ok yidx ->
      P1 ∈ Prange1 -> P2 ∈ Prange2 -> i < length Prange1 -> j < length Prange2 ->
      Inv (sw_simul st) -> sweep_shaped (length Prange1) (length Prange2) st ->
      is_ok (optimize_cell yidx (Np.slice_from (simul_axis (simul self)) yidx)
               i P1 j P2 st) = true) ->
   exists self' g,
     optimize self ymin Pmin1 Pmax1 Pstep1 Pmin2 Pmax2 Pstep2 = Ok (self', g)).
Proof.
  intros Prange1 Prange2. split.
  - intros self' pos depth height freq. apply optimize_returned_grids.
  - intros Haxis Hinv0 Hpowers Hcells.
    destruct (optimize_runs Inv self ymin Pmin1 Pmax1 Pstep1 Pmin2 Pmax2 Pstep2
                Haxis Hinv0 Hpowers Hcells) as (self' & pos & depth & height & freq & Hrun & _).
    eauto.
Qed.

(** In a cell where no minimum is found the frequency stored is 0. *)
Lemma optimize_cell_not_found (n1 n2 yidx : nat) (yout : list float)
    (i : nat) (P1 : float) (j : nat) (P2 : float) (st : @sweep S) (pot : list float) :
  sweep_shaped n1 n2 st -> i < n1 -> j < n2 ->
  column_from (total_potential (set_powers [P1; P2] (sw_simul st))) yidx 0 = Ok pot ->
  get_min_trap yout pot None = Ok none_found ->
  exists st', optimize_cell yidx yout i P1 j P2 st = Ok st' /\
              entry (res_freq st') i j = Some 0%float.
Proof.
  intros Hshape Hi Hj Hpot Hnone.
  unfold optimize_cell. cbn zeta. rewrite Hpot. cbn [mbind result_bind].
  rewrite Hnone. cbn [mbind result_bind none_found unpack5 Np.isnan_py].
  change (Np.isnan Np.nan) with true. cbn [mbind result_bind].
  match goal with
  | |- context [setitem2 (res_pos st) i j ?p] =>
      match goal with
      | |- context [setitem2 (res_depth st) i j ?d] =>
          match goal with
          | |- context [setitem2 (res_height st) i j ?h] =>
              destruct (store_cell _ _ st (set_powers [P1; P2] (sw_simul st)) i j
                          p d h 0%float Hshape Hi Hj) as (st' & Hstore & _ & _ & Hentry)
          end
      end
  end.
  exists st'. split; assumption.
Qed.

(** The GUI cell is the cell of [optimize], the signals emitted so far
    being carried along. *)
Lemma optimize_gui_cell_eq (yidx : nat) (yout : list float)
    (i : nat) (P1 : float) (j : nat) (P2 : float) (g : gui_sweep) :
  optimize_gui_cell yidx yout i P1 j P2 g
  = (fun st => {| gs_sweep := st; gs_emitted := gs_emitted g |})
      <$> optimize_cell yidx yout i P1 j P2 (gs_sweep g).
Proof.
  unfold optimize_gui_cell, optimize_cell. cbn zeta.
  repeat match goal with
         | |- context [mbind _ ?r] =>
             destruct r; cbn [mbind result_bind fmap result_fmap]; try reflexivity
         | |- context [let '(_, _) := ?p in _] => destruct p
         end;
    reflexivity.
Qed.

Lemma optimize_gui_row_eq (yidx : nat) (yout : list float) (i : nat) (P1 : float)
    (Prange2 : list float) : forall j (g : gui_sweep),
  for_enumerate (fun j P2 g => optimize_gui_cell yidx yout i P1 j P2 g) j Prange2 g
  = (fun st => {| gs_sweep := st; gs_emitted := gs_emitted g |})
      <$> for_enumerate (fun j P2 st => optimize_cell yidx yout i P1 j P2 st) j Prange2
            (gs_sweep g).
Proof.
  induction Prange2 as [|P2 Prange2 IH]; intros j g; cbn.
  - destruct g; reflexivity.
  - rewrite optimize_gui_cell_eq.
    destruct (optimize_cell yidx yout i P1 j P2 (gs_sweep g)) as [st|e]; cbn; [|reflexivity].
    rewrite IH. reflexivity.
Qed.

Lemma optimize_gui_rows_eq (yidx : nat) (yout : list float) (Prange1 Prange2 : list float) :
  forall i (g : gui_sweep),
    gs_sweep <$>
      for_enumerate (fun i P1 g =>
          g ← for_enumerate (fun j P2 g => optimize_gui_cell yidx yout i P1 j P2 g) 0 Prange2 g;
          let g := {| gs_sweep := gs_sweep g; gs_emitted := Progress :: gs_emitted g |} in
          if i =? 10
          then Ok {| gs_sweep := gs_sweep g; gs_emitted := Benchmark :: gs_emitted g |}
          else Ok g)
        i Prange1 g
    = for_enumerate (fun i P1 st =>
          for_enumerate (fun j P2 st => optimize_cell yidx yout i P1 j P2 st) 0 Prange2 st)
        i Prange1 (gs_sweep g).
Proof.
  induction Prange1 as [|P1 Prange1 IH]; intros i g; cbn.
  - reflexivity.
  - rewrite optimize_gui_row_eq.
    destruct (for_enumerate _ 0 Prange2 (gs_sweep g)) as [st|e]; cbn; [|reflexivity].
    destruct (i =? 10); cbn; rewrite IH; reflexivity.
Qed.

Lemma optimize_gui_rows_emitted (yidx : nat) (yout : list float)
    (Prange1 Prange2 : list float) :
  forall i (g g' : gui_sweep),
    for_enumerate (fun i P1 g =>
        g ← for_enumerate (fun j P2 g => optimize_gui_cell yidx yout i P1 j P2 g) 0 Prange2 g;
        let g := {| gs_sweep := gs_sweep g; gs_emitted := Progress :: gs_emitted g |} in
        if i =? 10
        then Ok {| gs_sweep := gs_sweep g; gs_emitted := Benchmark :: gs_emitted g |}
        else Ok g)
      i Prange1 g = Ok g' ->
    exists signals, gs_emitted g' = signals ++ gs_emitted g /\
                    Forall (fun s => s = Progress \/ s = Benchmark) signals.
Proof.
  induction Prange1 as [|P1 Prange1 IH]; intros i g g'; cbn.
  - intros [= <-]. exists []. split; [reflexivity|constructor].
  - rewrite optimize_gui_row_eq.
    destruct (for_enumerate _ 0 Prange2 (gs_sweep g)) as [st|e]; cbn; [|discriminate].
    destruct (i =? 10); cbn; intros Hrest;
      destruct (IH _ _ _ Hrest) as (signals & Hsig & Hall); cbn in Hsig.
    + exists (signals ++ [Benchmark; Progress]).
      split; [rewrite <- app_assoc; exact Hsig|].
      apply Forall_app. split; [exact Hall|].
      constructor; [right; reflexivity|]. constructor; [left; reflexivity|]. constructor.
    + exists (signals ++ [Progress]).
      split; [rewrite <- app_assoc; exact Hsig|].
      apply Forall_app. split; [exact Hall|].
      constructor; [left; reflexivity|]. constructor.
Qed.

(** C10: on the same instance and arguments, [optimize_gui] and [optimize]
    return the same four grids (or raise the same exception) and leave the
    same simulation; the GUI variant differs in the signals it emits and in
    the copy of the grids it keeps in [optim_res]. *)
Theorem optimize_gui_same_grids (self : Viz)
    (ymin Pmin1 Pmax1 Pstep1 Pmin2 Pmax2 Pstep2 : float) :
  outcome (optimize_gui self ymin Pmin1 Pmax1 Pstep1 Pmin2 Pmax2 Pstep2)
  = outcome (optimize self ymin Pmin1 Pmax1 Pstep1 Pmin2 Pmax2 Pstep2) /\
  (forall self' g,
     optimize_gui self ymin Pmin1 Pmax1 Pstep1 Pmin2 Pmax2 Pstep2 = Ok (self', g) ->
     optim_res self' = Some g /\ trapping_axis self' = trapping_axis self /\
     exists signals, emitted self' = Finished :: signals ++ emitted self /\
                     Forall (fun s => s = Progress \/ s = Benchmark) signals).
Proof.
  unfold outcome, optimize_gui, optimize, progressbar_enumerate.
  destruct (find_nearest (simul_axis (simul self)) ymin) as [yidx|e];
    cbn [mbind result_bind fmap result_fmap]; [|split; [reflexivity|discriminate]].
  set (Prange1 := reverse (arange Pmin1 Pmax1 Pstep1)).
  set (Prange2 := arange Pmin2 Pmax2 Pstep2).
  set (yout := Np.slice_from (simul_axis (simul self)) yidx).
  match goal with
  | |- context [for_enumerate _ 0 Prange1 {| gs_sweep := ?st; gs_emitted := _ |}] =>
      set (start := st)
  end.
  pose proof (optimize_gui_rows_eq yidx yout Prange1 Prange2 0
                {| gs_sweep := start; gs_emitted := emitted self |}) as Hrows.
  cbn [gs_sweep] in Hrows. rewrite <- Hrows. clear Hrows.
  destruct (for_enumerate _ 0 Prange1 {| gs_sweep := start; gs_emitted := emitted self |})
    as [g|e] eqn:Hloop;
    cbn [mbind result_bind fmap result_fmap fst snd simul];
    [|split; [reflexivity|discriminate]].
  split; [reflexivity|].
  intros self' g' [= <- <-]. cbn.
  split; [reflexivity|]. split; [reflexivity|].
  destruct (optimize_gui_rows_emitted _ _ _ _ _ _ _ Hloop) as (signals & Hsig & Hall).
  exists signals. cbn in Hsig. rewrite Hsig. split; [reflexivity|exact Hall].
Qed.

End SweepClaims.

Section SweepExamples.
Import Demo Examples.

Lemma optimize_grids_witness :
  exists self' pos depth height freq,
    optimize (viz (ramp 8) flat [] "NoSurface") 0 0 3 1 0 2 1
      = Ok (self', (pos, depth, height, freq)) /\
    shaped 3 2 pos /\ shaped 3 2 depth /\ shaped 3 2 height /\ shaped 3 2 freq /\
    no_nan pos /\ no_nan depth /\ no_nan height /\ no_nan freq.
Proof.
  pose proof (optimize_grids_shape_no_nan (fun s => st_curve s = flat)
                (viz (ramp 8) flat [] "NoSurface") 0 0 3 1 0 2 1) as [Hgrids Hruns].
  destruct Hruns as (self' & [[[pos depth] height] freq] & Hrun).
  - discriminate.
  - reflexivity.
  - intros powers s Hs. exact Hs.
  - intros yidx i P1 j P2 st Hyidx _ _ Hi Hj Hinv Hshape.
    injection Hyidx as <-.
    destruct (optimize_cell_not_found _ _ 0 (ramp 8) i P1 j P2 st flat Hshape Hi Hj)
      as (st' & Hcell & _).
    + cbn. rewrite Hinv. reflexivity.
    + reflexivity.
    + change (Np.slice_from _ _) with (ramp 8). rewrite Hcell. reflexivity.
  - exists self', pos, depth, height, freq. split; [exact Hrun|].
    exact (Hgrids self' pos depth height freq Hrun).
Defined.

(** The grids over the flat curve are all zero. *)
Example optimize_flat_curve :
  outcome (optimize (viz (ramp 8) flat [] "NoSurface") 0 0 3 1 0 2 1)
  = Ok ({| st_axis := ramp 8; st_curve := flat; st_CP := []; st_surface := "NoSurface";
           st_powers := [0; 1]%float |},
        (zeros 3 2, zeros 3 2, zeros 3 2, zeros 3 2)).
Proof. vm_compute. reflexivity. Qed.

(** C5 (as stated) fails on [narrow_well] over [uneven_axis]: the minimum at
    index 7 is found, both ends of the fit window fall on index 7, the fit of
    the empty window raises, and so does the sweep, which returns no grid. *)
Lemma optimize_fit_failure_aborts_sweep :
  get_min_trap uneven_axis narrow_well None
    = Ok [PyInt 7; PyFloat 0.3; PyFloat (-1); PyFloat (-0.5); PyInt 6] /\
  find_nearest uneven_axis (0.3 - (0.3 - 0.1) / 2)%float = Ok 7 /\
  find_nearest uneven_axis (0.3 + (0.3 - 0.1) / 2)%float = Ok 7 /\
  polyfit (Np.slice uneven_axis 7 7) (Np.slice narrow_well 7 7) 2
    = Raise (TypeError "expected non-empty vector for x") /\
  optimize (viz uneven_axis narrow_well [] "NoSurface") (-6) 0 3 1 0 2 1
    = Raise (TypeError "expected non-empty vector for x").
Proof. vm_compute. repeat split; reflexivity. Qed.

End SweepExamples.

(** * Further properties

    ** Floats *)

Module FlMore.

Lemma eqb_key a b :
  (a =? b)%float = true <->
  is_nan a = false /\ is_nan b = false /\ lex (float_key (Prim2SF a)) (float_key (Prim2SF b)) = Eq.
Proof.
  split.
  - intros Heq. destruct (Fl.eqb_not_nan _ _ Heq) as [Ha Hb]. split; [|split]; trivial.
    rewrite FloatAxioms.eqb_spec in Heq. unfold SFeqb in Heq. rewrite !Fl.is_nan_spec in *.
    rewrite (Fl.SFcompare_key _ _ Ha Hb) in Heq. destruct (lex _ _); congruence.
  - intros (Ha & Hb & Hl). rewrite FloatAxioms.eqb_spec. unfold SFeqb.
    rewrite !Fl.is_nan_spec in *. rewrite (Fl.SFcompare_key _ _ Ha Hb), Hl. reflexivity.
Qed.

Lemma eqb_leb a b : (a =? b)%float = true -> (a <=? b)%float = true.
Proof.
  rewrite eqb_key, Fl.leb_key. intros (Ha & Hb & Hl). rewrite Hl. repeat split; congruence.
Qed.

Lemma eqb_sym a b : (a =? b)%float = true -> (b =? a)%float = true.
Proof.
  rewrite !eqb_key. intros (Ha & Hb & Hl). repeat split; trivial.
  rewrite Fl.lex_antisym, Hl. reflexivity.
Qed.

Lemma leb_antisym_eqb a b :
  (a <=? b)%float = true -> (b <=? a)%float = true -> (a =? b)%float = true.
Proof.
  rewrite !Fl.leb_key, eqb_key. intros (Ha & Hb & H1) (_ & _ & H2).
  repeat split; trivial. rewrite Fl.lex_antisym in H2.
  destruct (lex (float_key (Prim2SF a)) (float_key (Prim2SF b))); cbn in H2; congruence.
Qed.

Lemma eqb_trans a b c :
  (a =? b)%float = true -> (b =? c)%float = true -> (a =? c)%float = true.
Proof.
  intros Hab Hbc. apply leb_antisym_eqb.
  - eapply Fl.leb_trans; apply eqb_leb; eassumption.
  - eapply Fl.leb_trans; apply eqb_leb, eqb_sym; eassumption.
Qed.

Lemma eqb_not_ltb a b : (a =? b)%float = true -> (a <? b)%float = false.
Proof.
  intros Heq. destruct (a <? b)%float eqn:E; [|reflexivity].
  apply Fl.ltb_key in E as (_ & _ & E). apply eqb_key in Heq as (_ & _ & Heq). congruence.
Qed.

Lemma leb_eqb_trans a b c :
  (a <=? b)%float = true -> (b =? c)%float = true -> (a <=? c)%float = true.
Proof. intros Hab Hbc. eapply Fl.leb_trans; [exact Hab|]. apply eqb_leb, Hbc. Qed.

Lemma not_ltb_leb a b :
  is_nan a = false -> is_nan b = false -> (a <? b)%float = false -> (b <=? a)%float = true.
Proof.
  intros Ha Hb Hlt. apply Fl.leb_key. split; [|split]; trivial.
  rewrite Fl.lex_antisym.
  destruct (lex (float_key (Prim2SF a)) (float_key (Prim2SF b))) eqn:E; try discriminate.
  exfalso. assert ((a <? b)%float = true) by (apply Fl.ltb_key; auto). congruence.
Qed.

Lemma SFcompare_opp a b : SFcompare (SFopp a) (SFopp b) = SFcompare b a.
Proof.
  destruct a as [sa|sa| |sa ma ea], b as [sb|sb| |sb mb eb];
    try (destruct sa); try (destruct sb); cbn [SFcompare SFopp negb]; try reflexivity.
  - rewrite (Z.compare_antisym ea eb).
    destruct (ea ?= eb)%Z; cbn [CompOpp]; try reflexivity.
    f_equal. symmetry. apply (Pos.compare_cont_antisym mb ma Eq).
  - rewrite (Z.compare_antisym ea eb).
    destruct (ea ?= eb)%Z; cbn [CompOpp]; try reflexivity.
    f_equal. apply (Pos.compare_cont_antisym ma mb Eq).
Qed.

Lemma leb_opp a b : (- a <=? - b)%float = (b <=? a)%float.
Proof. rewrite !leb_spec, !opp_spec. unfold SFleb. rewrite SFcompare_opp. reflexivity. Qed.

Lemma ltb_opp a b : (- a <? - b)%float = (b <? a)%float.
Proof. rewrite !ltb_spec, !opp_spec. unfold SFltb. rewrite SFcompare_opp. reflexivity. Qed.

Lemma is_nan_abs x : is_nan (abs x) = is_nan x.
Proof. rewrite !Fl.is_nan_spec, abs_spec. destruct (Prim2SF x); reflexivity. Qed.

Lemma abs_nonneg x : is_nan x = false -> (0 <=? abs x)%float = true.
Proof.
  rewrite Fl.is_nan_spec, leb_spec, abs_spec. change (Prim2SF 0) with (S754_zero false).
  destruct (Prim2SF x) as [s|s| |s m e]; simpl; intros Hx; try discriminate Hx; reflexivity.
Qed.

Lemma abs_abs x : abs (abs x) = abs x.
Proof.
  apply Prim2SF_inj. rewrite !abs_spec. destruct (Prim2SF x); reflexivity.
Qed.

End FlMore.

(** ** Peaks, their order and their left bases *)

Module PeakFacts.
Import Scipy ScipyFacts NpFacts MinTrapFacts.

Lemma local_maxima_loop_peak (x : list float) : forall fuel i,
  1 <= i -> Forall (local_peak x) (local_maxima_loop fuel x i (length x - 1)).
Proof.
  induction fuel as [|fuel IH]; intros i Hi; cbn [local_maxima_loop]; [constructor|].
  destruct (i <? length x - 1) eqn:E1; [|constructor].
  apply Nat.ltb_lt in E1.
  destruct (at_ x (i - 1) <? at_ x i)%float eqn:E2; [|apply IH; lia].
  destruct (Fl.ltb_not_nan _ _ E2) as [_ Hnan].
  pose proof (skip_plateau_spec x i (length x - 1) (length x) (i + 1)) as Hs.
  simpl in Hs. destruct Hs as (Hlo & Hhi & Heq); try lia.
  { intros k Hk. replace k with i by lia.
    rewrite FloatAxioms.eqb_spec. unfold is_nan in Hnan. rewrite FloatAxioms.eqb_spec in Hnan.
    destruct (SFeqb _ _); [reflexivity|discriminate]. }
  set (r := skip_plateau (length x) x i (i + 1) (length x - 1)) in *.
  destruct (at_ x r <? at_ x i)%float eqn:E3; [|apply IH; lia].
  constructor; [|apply IH; lia].
  assert (i <= (i + (r - 1)) / 2 /\ (i + (r - 1)) / 2 <= r - 1) as [Hmlo Hmhi].
  { split.
    - apply Nat.div_le_lower_bound; lia.
    - apply Nat.Div0.div_le_upper_bound; lia. }
  exists i, (r - 1). split; [lia|]. split; [lia|]. split; [lia|]. split; [lia|].
  split; [intros k Hk; apply Heq; lia|].
  split; [exact E2|]. replace (r - 1 + 1) with r by lia. exact E3.
Qed.

Lemma local_maxima_loop_increasing (x : list float) (i_max : nat) : forall fuel i,
  Forall (fun p => i <= p) (local_maxima_loop fuel x i i_max) /\
  increasing (local_maxima_loop fuel x i i_max).
Proof.
  assert (forall l, increasing l -> forall p, Forall (fun q => p < q) l -> increasing (p :: l))
    as Hcons.
  { intros l Hl p Hp [|i] [|j] a b Hij Ha Hb; simpl in *; try lia.
    - injection Ha as <-. exact (proj1 (Forall_lookup _ _) Hp j b Hb).
    - apply (Hl i j); [lia|assumption|assumption]. }
  assert (increasing []) as Hnil by (intros i j a b _ Ha; rewrite lookup_nil in Ha; discriminate).
  induction fuel as [|fuel IH]; intros i; cbn [local_maxima_loop].
  - split; [constructor|exact Hnil].
  - destruct (i <? i_max); [|split; [constructor|exact Hnil]].
    assert (forall i', i <= i' ->
              Forall (fun p => i <= p) (local_maxima_loop fuel x i' i_max)) as Hge.
    { intros i' Hi'. eapply Forall_impl; [apply (proj1 (IH i'))|]. intros p Hp. cbn in Hp. lia. }
    destruct (_ <? _)%float; [|split; [apply Hge; lia|apply IH]].
    pose proof (skip_plateau_ge x i i_max (length x) (i + 1)) as Hr.
    set (r := skip_plateau (length x) x i (i + 1) i_max) in *.
    destruct (_ <? _)%float; [|split; [apply Hge; lia|apply IH]].
    assert (i <= (i + (r - 1)) / 2 /\ (i + (r - 1)) / 2 <= r - 1) as [Hmlo Hmhi].
    { split.
      - apply Nat.div_le_lower_bound; lia.
      - apply Nat.Div0.div_le_upper_bound; lia. }
    split.
    + constructor; [exact Hmlo|]. apply Hge. lia.
    + apply Hcons; [apply IH|].
      eapply Forall_impl; [apply (proj1 (IH (r + 1)))|]. intros p Hp. cbn in Hp. lia.
Qed.

Lemma select_increasing (a : list nat) : forall keep,
  increasing a -> increasing (select a keep).
Proof.
  assert (forall l, increasing l -> forall p, Forall (fun q => p < q) l -> increasing (p :: l))
    as Hcons.
  { intros l Hl p Hp [|i] [|j] u v Hij Hu Hv; simpl in *; try lia.
    - injection Hu as <-. exact (proj1 (Forall_lookup _ _) Hp j v Hv).
    - apply (Hl i j); [lia|assumption|assumption]. }
  induction a as [|p a IH]; intros [|k keep] Ha; simpl;
    try (intros i j u v _ Hu; rewrite lookup_nil in Hu; discriminate).
  assert (increasing a) as Ha'.
  { intros i j u v Hij Hu Hv. apply (Ha (Datatypes.S i) (Datatypes.S j)); [lia|exact Hu|exact Hv]. }
  assert (Forall (fun q => p < q) a) as Hp.
  { apply Forall_lookup. intros j v Hv. apply (Ha 0 (Datatypes.S j)); [lia|reflexivity|exact Hv]. }
  destruct k; [|apply IH, Ha'].
  apply Hcons; [apply IH, Ha'|]. apply select_Forall, Hp.
Qed.

(** The left scan moves the base only to positions it visits. *)
Lemma left_scan_base (x : list float) (peak : nat) : forall i1 m b,
  (left_scan x peak i1 m b).2 = b \/ (left_scan x peak i1 m b).2 < i1.
Proof.
  induction i1 as [|i IH]; intros m b; cbn [left_scan]; [left; reflexivity|].
  destruct (_ <=? _)%float; [|left; reflexivity].
  destruct (_ <? _)%float.
  - destruct (IH (at_ x i) i) as [-> | Hlt]; right; lia.
  - destruct (IH m b) as [-> | Hlt]; [left; reflexivity|right; lia].
Qed.

(** The left base of a peak lies strictly before the peak. *)
Lemma left_base_before_peak (x : list float) (p : nat) :
  local_peak x p -> left_base_of x p < p.
Proof.
  intros (l & r & Hl1 & Hlp & Hpr & Hr & Heq & Hleft & _).
  unfold left_base_of, peak_prominence.
  destruct (right_scan _ _ _ _ _ _) as [rm rb].
  destruct (left_scan x p (Datatypes.S p) (at_ x p) p) as [lm lb] eqn:Hscan. cbn.
  assert ((at_ x p =? at_ x l)%float = true) as Hpl by (apply Heq; lia).
  (* the plateau is crossed without moving the base *)
  assert (forall i1, l <= i1 -> i1 <= Datatypes.S p ->
            left_scan x p i1 (at_ x p) p = left_scan x p l (at_ x p) p) as Hcross.
  { induction i1 as [|i IH]; intros Hli Hip.
    - replace l with 0 by lia. reflexivity.
    - destruct (decide (l = Datatypes.S i)) as [->|Hne]; [reflexivity|].
      cbn [left_scan].
      assert ((at_ x i =? at_ x p)%float = true) as Hip'.
      { eapply FlMore.eqb_trans; [apply (Heq i); lia|]. apply FlMore.eqb_sym, Hpl. }
      rewrite (FlMore.eqb_leb _ _ Hip'), (FlMore.eqb_not_ltb _ _ Hip').
      apply IH; lia. }
  rewrite (Hcross (Datatypes.S p)) in Hscan by lia.
  destruct l as [|l']; [lia|]. cbn [left_scan] in Hscan.
  replace (Datatypes.S l' - 1) with l' in Hleft by lia.
  assert ((at_ x l' <? at_ x p)%float = true) as Hlt.
  { eapply Fl.ltb_leb_trans; [exact Hleft|]. apply FlMore.eqb_leb, FlMore.eqb_sym, Hpl. }
  rewrite (Fl.ltb_leb _ _ Hlt), Hlt in Hscan.
  pose proof (left_scan_base x p l' (at_ x l') l') as Hbase.
  rewrite Hscan in Hbase. cbn in Hbase. lia.
Qed.

(** Peaks are local peaks, in increasing order, whatever the conditions. *)
Lemma candidates_peaks (trap : list float) :
  Forall (local_peak (Np.neg trap)) (candidates trap) /\ increasing (candidates trap).
Proof.
  unfold candidates, find_peaks. case_bool_decide; [discriminate|]. cbn zeta. cbn [fst].
  split.
  - apply select_Forall, select_Forall, local_maxima_loop_peak. lia.
  - apply select_increasing, select_increasing, local_maxima_loop_increasing.
Qed.

End PeakFacts.

(** ** More on [get_min_trap] *)

Section MinTrapMore.
Import Scipy ScipyFacts NpFacts MinTrapFacts PeakFacts Demo Examples.

(** What an accepted tuple is made of. *)
Lemma get_min_trap_accepted (y trap : list float) (e : option float)
    (i : Z) (pos depth height base : pyval) :
  length y = length trap ->
  get_min_trap y trap e = Ok [PyInt i; pos; depth; height; base] ->
  exists arg c p0,
    candidates trap !! arg = Some c /\ candidates trap !! 0 = Some p0 /\
    (length (candidates trap) = 1 -> 5 < c) /\
    [PyInt i; pos; depth; height; base] = found y trap c p0.
Proof.
  intros Hlen Hres.
  destruct (get_min_trap_spec y trap e Hlen)
    as [[_ Hn]|[(p & _ & _ & Hn)|[(p & Hp & H5 & Hf)|(arg & c & p0 & Hm & Hc & Hp0 & _ & _ & Hf)]]].
  - rewrite Hn in Hres. discriminate.
  - rewrite Hn in Hres. discriminate.
  - exists 0, p, p. rewrite Hp. repeat split; auto. congruence.
  - exists arg, c, p0. repeat split; auto; [lia|congruence].
Qed.

Lemma local_peak_neg (trap : list float) (c : nat) :
  local_peak (Np.neg trap) c ->
  1 <= c /\ c + 1 < length trap /\ is_nan (at_ trap c) = false /\
  (at_ trap c <=? at_ trap (c - 1))%float = true /\
  (at_ trap c <=? at_ trap (c + 1))%float = true.
Proof.
  intros (l & r & Hl1 & Hlc & Hcr & Hr & Heq & Hleft & Hright).
  unfold Np.neg in Hr. rewrite length_fmap in Hr. fold (Np.neg trap) in *.
  assert ((at_ (Np.neg trap) c =? at_ (Np.neg trap) l)%float = true) as Hcl by (apply Heq; lia).
  assert (forall k, l - 1 <= k <= r + 1 ->
            (at_ (Np.neg trap) k <=? at_ (Np.neg trap) c)%float = true) as Hle.
  { intros k Hk. destruct (decide (k = l - 1)) as [->|]; [|destruct (decide (k = r + 1)) as [->|]].
    - eapply FlMore.leb_eqb_trans; [apply Fl.ltb_leb, Hleft|apply FlMore.eqb_sym, Hcl].
    - eapply FlMore.leb_eqb_trans; [apply Fl.ltb_leb, Hright|apply FlMore.eqb_sym, Hcl].
    - apply FlMore.eqb_leb. eapply FlMore.eqb_trans; [apply Heq; lia|apply FlMore.eqb_sym, Hcl]. }
  split; [lia|]. split; [lia|].
  split.
  { destruct (Fl.eqb_not_nan _ _ Hcl) as [Hn _]. rewrite at_neg in Hn by lia.
    rewrite Fl.is_nan_opp in Hn. exact Hn. }
  split.
  - pose proof (Hle (c - 1) ltac:(lia)) as Hk.
    rewrite !at_neg in Hk by lia. rewrite FlMore.leb_opp in Hk. exact Hk.
  - pose proof (Hle (c + 1) ltac:(lia)) as Hk.
    rewrite !at_neg in Hk by lia. rewrite FlMore.leb_opp in Hk. exact Hk.
Qed.

(** X1: on an axis and a curve of the same length [get_min_trap] does not
    raise; it returns the tuple for "none", or an index that is neither the
    first nor the last sample, with the axis value and the curve value at
    that index, the latter not NaN. *)
Theorem get_min_trap_never_raises (y trap : list float) (e : option float) :
  length y = length trap ->
  get_min_trap y trap e = Ok none_found \/
  exists c pos depth height base,
    get_min_trap y trap e
      = Ok [PyInt (Z.of_nat c); PyFloat pos; PyFloat depth; PyFloat height; PyInt base] /\
    1 <= c /\ c + 1 < length trap /\
    y !! c = Some pos /\ trap !! c = Some depth /\ is_nan depth = false.
Proof.
  intros Hlen.
  destruct (candidates_peaks trap) as [Hpeaks _].
  assert (forall c p0, c ∈ candidates trap -> get_min_trap y trap e = Ok (found y trap c p0) ->
            exists c pos depth height base,
              get_min_trap y trap e
                = Ok [PyInt (Z.of_nat c); PyFloat pos; PyFloat depth; PyFloat height; PyInt base] /\
              1 <= c /\ c + 1 < length trap /\
              y !! c = Some pos /\ trap !! c = Some depth /\ is_nan depth = false) as Hfound.
  { intros c p0 Hc Hf.
    destruct (local_peak_neg trap c (proj1 (Forall_forall _ _) Hpeaks c Hc))
      as (H1 & H2 & H3 & _).
    eexists c, _, _, _, _. split; [exact Hf|].
    repeat split; auto; apply at_Some; lia. }
  destruct (get_min_trap_spec y trap e Hlen)
    as [[_ Hn]|[(p & _ & _ & Hn)|[(p & Hp & _ & Hf)|(arg & c & p0 & _ & Hc & _ & _ & _ & Hf)]]];
    auto.
  - right. apply (Hfound p p); [rewrite Hp; apply list_elem_of_here|exact Hf].
  - right. apply (Hfound c p0); [eapply list_elem_of_lookup_2, Hc|exact Hf].
Qed.

Lemma get_min_trap_never_raises_witness :
  get_min_trap (ramp 29) two_wells None = Ok none_found \/
  exists c pos depth height base,
    get_min_trap (ramp 29) two_wells None
      = Ok [PyInt (Z.of_nat c); PyFloat pos; PyFloat depth; PyFloat height; PyInt base] /\
    1 <= c /\ c + 1 < length two_wells /\
    ramp 29 !! c = Some pos /\ two_wells !! c = Some depth /\ is_nan depth = false.
Proof. apply (get_min_trap_never_raises (ramp 29) two_wells None). reflexivity. Defined.

(** X2: the minimum [get_min_trap] accepts is a local minimum of the curve:
    neither of its two neighbours lies lower. *)
Theorem get_min_trap_is_local_minimum (y trap : list float) (e : option float)
    (i : Z) (pos depth height base : pyval) :
  length y = length trap ->
  get_min_trap y trap e = Ok [PyInt i; pos; depth; height; base] ->
  exists c, i = Z.of_nat c /\ depth = PyFloat (at_ trap c) /\
    (at_ trap c <=? at_ trap (c - 1))%float = true /\
    (at_ trap c <=? at_ trap (c + 1))%float = true.
Proof.
  intros Hlen Hres.
  destruct (get_min_trap_accepted y trap e i pos depth height base Hlen Hres)
    as (arg & c & p0 & Hc & _ & _ & Ht).
  destruct (candidates_peaks trap) as [Hpeaks _].
  destruct (local_peak_neg trap c (proj1 (Forall_lookup _ _) Hpeaks arg c Hc))
    as (_ & _ & _ & Hl & Hr).
  injection Ht as -> _ -> _ _. exists c. auto.
Qed.

Lemma get_min_trap_is_local_minimum_witness :
  exists c, 22%Z = Z.of_nat c /\ PyFloat (-2) = PyFloat (at_ two_wells c) /\
    (at_ two_wells c <=? at_ two_wells (c - 1))%float = true /\
    (at_ two_wells c <=? at_ two_wells (c + 1))%float = true.
Proof.
  apply (get_min_trap_is_local_minimum (ramp 29) two_wells None 22
           (PyFloat 22) (PyFloat (-2)) (PyFloat (-5)) (PyInt 0));
    [reflexivity | vm_compute; reflexivity].
Defined.

(** X3: the rejection of a minimum within the first six samples applies to
    a lone candidate only: an accepted index of 5 or less means that several
    candidates were detected. *)
Theorem get_min_trap_edge_rule_lone_candidate (y trap : list float) (e : option float)
    (i : Z) (pos depth height base : pyval) :
  length y = length trap ->
  get_min_trap y trap e = Ok [PyInt i; pos; depth; height; base] ->
  (i <= 5)%Z ->
  1 < length (candidates trap).
Proof.
  intros Hlen Hres Hi.
  destruct (get_min_trap_accepted y trap e i pos depth height base Hlen Hres)
    as (arg & c & p0 & Hc & _ & H5 & Ht).
  injection Ht as -> _ _ _ _.
  pose proof (lookup_lt_Some _ _ _ Hc) as Hlt.
  destruct (decide (length (candidates trap) = 1)) as [H1|H1]; [|lia].
  specialize (H5 H1). lia.
Qed.

Lemma get_min_trap_edge_rule_lone_candidate_witness :
  1 < length (candidates early_well).
Proof.
  apply (get_min_trap_edge_rule_lone_candidate (ramp 20) early_well None 3
           (PyFloat 3) (PyFloat (-5)) (PyFloat (-5)) (PyInt 0));
    [reflexivity | vm_compute; reflexivity | lia].
Defined.

(** X4: the left base [get_min_trap] returns with a minimum is an index
    strictly below the index of that minimum. *)
Theorem get_min_trap_left_base_before_minimum (y trap : list float) (e : option float)
    (i : Z) (pos depth height base : pyval) :
  length y = length trap ->
  get_min_trap y trap e = Ok [PyInt i; pos; depth; height; base] ->
  exists b, base = PyInt b /\ (0 <= b < i)%Z.
Proof.
  intros Hlen Hres.
  destruct (get_min_trap_accepted y trap e i pos depth height base Hlen Hres)
    as (arg & c & p0 & Hc & Hp0 & _ & Ht).
  destruct (candidates_peaks trap) as [Hpeaks Hinc].
  pose proof (left_base_before_peak _ _ (proj1 (Forall_lookup _ _) Hpeaks 0 p0 Hp0)) as Hb.
  assert (p0 <= c) as Hle.
  { destruct arg as [|arg]; [rewrite Hp0 in Hc; injection Hc as ->; lia|].
    pose proof (Hinc 0 (Datatypes.S arg) p0 c ltac:(lia) Hp0 Hc). lia. }
  injection Ht as -> _ _ _ ->. eexists. split; [reflexivity|]. lia.
Qed.

Lemma get_min_trap_left_base_before_minimum_witness :
  exists b, PyInt 0 = PyInt b /\ (0 <= b < 22)%Z.
Proof.
  apply (get_min_trap_left_base_before_minimum (ramp 29) two_wells None 22
           (PyFloat 22) (PyFloat (-2)) (PyFloat (-5)) (PyInt 0));
    [reflexivity | vm_compute; reflexivity].
Defined.

End MinTrapMore.

(** ** More on [get_coord_trap_outside_structure] *)

Section BoundaryMore.
Context `{Numerics} `{Units} {S : Type} `{Simulation S}.
Import Scipy ScipyFacts NpFacts MinTrapFacts.

Ltac bind_step :=
  match goal with
  | |- context [mbind _ ?r] => destruct r eqn:?; cbn [mbind result_bind]; [|discriminate]
  end.

(** X5: when the potential has one value per axis sample, the outside axis
    and the outside curve that [get_coord_trap_outside_structure] returns
    have the same length, whatever the mode, so that [get_min_trap] runs on
    them without raising. *)
Theorem get_coord_trap_outside_structure_feeds_get_min_trap
    (self : Viz) (axis : string) (coord1 coord2 : float) (mf : Z)
    (edge_no_surface : option float) (mf_index : Z) (edge : pyval)
    (y_outside trap_outside : list float) :
  (forall trap,
     column_from (compute_potential_1D axis coord1 coord2 (simul self)).2 0
       ((check_mf (atomicsystem_f (simul self)) mf).2 + atomicsystem_f (simul self)) = Ok trap ->
     length trap = length (set_axis_from_axis axis (simul self))) ->
  get_coord_trap_outside_structure self axis coord1 coord2 mf edge_no_surface
    = Ok (mf_index, edge, y_outside, trap_outside) ->
  length y_outside = length trap_outside /\
  exists t, get_min_trap y_outside trap_outside None = Ok t.
Proof.
  intros Hlen Hres.
  assert (length y_outside = length trap_outside) as Hsame.
  { revert Hres Hlen. unfold get_coord_trap_outside_structure.
    destruct (check_mf _ mf) as [f' mf']. destruct (compute_potential_1D _ _ _ _) as [simul' pot].
    cbn [snd]. bind_step. intros Hres Hlen. specialize (Hlen _ eq_refl). revert Hres.
    unfold Np.sub_scalar, Np.slice_from, Np.slice.
    repeat match goal with
           | |- context [if ?b then _ else _] => destruct b
           | |- context [match ?o with Some _ => _ | None => _ end] => destruct o
           | |- context [mbind _ ?r] => destruct r eqn:?; cbn [mbind result_bind]
           end;
      try discriminate; intros [= <- <- <- <-];
      rewrite ?length_fmap, ?length_take, ?length_drop; lia. }
  split; [exact Hsame|]. apply get_min_trap_returns, Hsame.
Qed.

(** X6: without surface and with an explicit edge, the outside range starts
    at the axis sample nearest to the edge, the first one when several are
    equally near.  The distances to the edge are assumed not to be NaN. *)
Theorem get_coord_trap_outside_structure_nearest_edge
    (self : Viz) (axis : string) (coord1 coord2 : float) (mf : Z) (edge : float)
    (f' mf' : Z) (simul' : S) (potential : list (list float)) (trap : list float) :
  check_mf (atomicsystem_f (simul self)) mf = (f', mf') ->
  compute_potential_1D axis coord1 coord2 (simul self) = (simul', potential) ->
  column_from potential 0 (mf' + atomicsystem_f (simul self)) = Ok trap ->
  axis = trapping_axis self ->
  surface_name simul' = "NoSurface"%string ->
  set_axis_from_axis axis (simul self) <> [] ->
  Forall (fun c => is_nan (abs (c - edge)) = false) (set_axis_from_axis axis (simul self)) ->
  let coord := set_axis_from_axis axis (simul self) in
  exists index_edge nearest,
    get_coord_trap_outside_structure self axis coord1 coord2 mf (Some edge)
      = Ok ((mf' + atomicsystem_f (simul self))%Z, PyFloat edge,
            Np.sub_scalar (drop index_edge coord) edge, drop index_edge trap) /\
    coord !! index_edge = Some nearest /\
    (forall k c, coord !! k = Some c ->
                 (abs (nearest - edge) <=? abs (c - edge))%float = true) /\
    (forall k c, k < index_edge -> coord !! k = Some c ->
                 (abs (nearest - edge) <? abs (c - edge))%float = true).
Proof.
  intros Hmf Hpot Htrap Hax Hs Hne Hnan coord. subst coord axis.
  set (coord := set_axis_from_axis (trapping_axis self) (simul self)) in *.
  destruct (argmin_spec (Np.abs (Np.sub_scalar coord edge))) as (arg & v & Harg & Hv & Hle & Hlt).
  { unfold Np.abs, Np.sub_scalar. destruct coord; [congruence|discriminate]. }
  { unfold Np.abs, Np.sub_scalar. rewrite <- list_fmap_compose. apply Forall_fmap.
    eapply Forall_impl; [exact Hnan|]. intros c Hc. exact Hc. }
  assert (forall k, Np.abs (Np.sub_scalar coord edge) !! k
                    = (fun c => abs (c - edge)%float) <$> coord !! k) as Hlook.
  { intros k. unfold Np.abs, Np.sub_scalar. rewrite !list_lookup_fmap.
    destruct (coord !! k); reflexivity. }
  rewrite Hlook in Hv. destruct (coord !! arg) as [nearest|] eqn:Hnear; [|discriminate].
  injection Hv as <-.
  exists arg, nearest. split; [|split; [exact Hnear|split]].
  - unfold get_coord_trap_outside_structure. rewrite Hmf, Hpot, Htrap. cbn [mbind result_bind].
    rewrite String.eqb_refl. cbn [negb andb]. rewrite Hs. cbn.
    fold coord. rewrite Harg. reflexivity.
  - intros k c Hk. apply (Hle k). rewrite Hlook, Hk. reflexivity.
  - intros k c Hka Hk. apply (Hlt k); [exact Hka|]. rewrite Hlook, Hk. reflexivity.
Qed.

(** X7: with a surface and exactly one proximity peak [p], the edge is the
    axis value one sample before the peak, and the outside axis and curve
    are the samples from the peak to the end, the axis re-anchored by
    subtracting the edge. *)
Theorem get_coord_trap_outside_structure_one_peak
    (self : Viz) (axis : string) (coord1 coord2 : float) (mf : Z)
    (edge_no_surface : option float)
    (f' mf' : Z) (simul' : S) (potential : list (list float))
    (trap cp : list float) (p : nat) (props : properties) :
  check_mf (atomicsystem_f (simul self)) mf = (f', mf') ->
  compute_potential_1D axis coord1 coord2 (simul self) = (simul', potential) ->
  column_from potential 0 (mf' + atomicsystem_f (simul self)) = Ok trap ->
  column_from (simul_CP simul') 0 (mf' + atomicsystem_f (simul self)) = Ok cp ->
  length cp = length (set_axis_from_axis axis (simul self)) ->
  length trap = length (set_axis_from_axis axis (simul self)) ->
  axis = trapping_axis self ->
  surface_name simul' <> "NoSurface"%string ->
  find_peaks (Np.neg cp) (Some 10%float) None None = Ok ([p], props) ->
  let coord := set_axis_from_axis axis (simul self) in
  exists edge y_outside trap_outside,
    get_coord_trap_outside_structure self axis coord1 coord2 mf edge_no_surface
      = Ok ((mf' + atomicsystem_f (simul self))%Z, PyFloat edge, y_outside, trap_outside) /\
    coord !! (p - 1) = Some edge /\
    length y_outside = length coord - p /\ length trap_outside = length coord - p /\
    1 < length y_outside /\
    (forall k, k < length coord - p ->
       y_outside !! k = Some (at_ coord (p + k) - edge)%float /\
       trap_outside !! k = Some (at_ trap (p + k))).
Proof.
  intros Hmf Hpot Htrap Hcp Hlen Hlent Hax Hs Hfp coord. subst coord.
  destruct (find_peaks_height (Np.neg cp) 10%float) as (peaks' & props' & Hfp' & Hint).
  rewrite Hfp in Hfp'. injection Hfp' as <- <-.
  apply Forall_cons in Hint as [(Hge & Hlt & _) _]. subst axis.
  unfold Np.neg in Hlt. rewrite length_fmap in Hlt.
  set (coord := set_axis_from_axis (trapping_axis self) (simul self)) in *.
  destruct (getitem_Z_pred coord p) as (edge & Hedge & Hv); [lia|lia|].
  exists edge, (Np.sub_scalar (Np.slice_from coord p) edge), (Np.slice_from trap p).
  split.
  { unfold get_coord_trap_outside_structure. rewrite Hmf, Hpot, Htrap. cbn [mbind result_bind].
    rewrite String.eqb_refl. cbn [negb andb].
    destruct (String.eqb_spec (surface_name simul') "NoSurface") as [|_]; [contradiction|].
    rewrite Hcp. cbn [mbind result_bind]. rewrite Hfp. cbn [mbind result_bind fst].
    cbn [length Nat.eqb]. fold coord. cbn. rewrite Hv. reflexivity. }
  split; [exact Hedge|].
  unfold Np.sub_scalar, Np.slice_from.
  rewrite length_fmap, !length_drop.
  split; [lia|]. split; [lia|]. split; [lia|].
  intros k Hk.
  rewrite list_lookup_fmap, !lookup_drop.
  rewrite (at_Some coord (p + k)) by lia.
  rewrite (at_Some trap (p + k)) by lia.
  split; reflexivity.
Qed.

End BoundaryMore.

Section BoundaryMoreExamples.
Import Scipy MinTrapFacts Demo Examples.

Lemma get_coord_trap_outside_structure_feeds_witness :
  length [1; 2; 3; 4]%float = length [6; 5; 4; 3]%float /\
  exists t, get_min_trap [1; 2; 3; 4]%float [6; 5; 4; 3]%float None = Ok t.
Proof.
  apply (get_coord_trap_outside_structure_feeds_get_min_trap
           (viz (ramp 10) slope two_spikes "CylindricalSurface") "Y" 0 0 0 None
           0%Z (PyFloat 2)).
  - intros trap [= <-]. reflexivity.
  - reflexivity.
Defined.

Lemma get_coord_trap_outside_structure_nearest_edge_witness :
  exists index_edge nearest,
    get_coord_trap_outside_structure
      (viz (ramp 10) slope three_spikes "NoSurface") "Y" 0 0 0 (Some 3.4%float)
      = Ok (0%Z, PyFloat 3.4, Np.sub_scalar (drop index_edge (ramp 10)) 3.4,
            drop index_edge slope) /\
    ramp 10 !! index_edge = Some nearest /\
    (forall k c, ramp 10 !! k = Some c ->
                 (abs (nearest - 3.4) <=? abs (c - 3.4))%float = true) /\
    (forall k c, k < index_edge -> ramp 10 !! k = Some c ->
                 (abs (nearest - 3.4) <? abs (c - 3.4))%float = true).
Proof.
  refine (get_coord_trap_outside_structure_nearest_edge
            (viz (ramp 10) slope three_spikes "NoSurface") "Y" 0 0 0 3.4%float
            0%Z 0%Z _ _ slope _ _ _ _ _ _ _); try reflexivity.
  - discriminate.
  - vm_compute. repeat constructor.
Defined.

Lemma get_coord_trap_outside_structure_one_peak_witness :
  exists edge y_outside trap_outside,
    get_coord_trap_outside_structure
      (viz (ramp 10) slope one_spike "CylindricalSurface") "Y" 0 0 0 None
      = Ok (0%Z, PyFloat edge, y_outside, trap_outside) /\
    ramp 10 !! (3 - 1) = Some edge /\
    length y_outside = length (ramp 10) - 3 /\ length trap_outside = length (ramp 10) - 3 /\
    1 < length y_outside /\
    (forall k, k < length (ramp 10) - 3 ->
       y_outside !! k = Some (at_ (ramp 10) (3 + k) - edge)%float /\
       trap_outside !! k = Some (at_ slope (3 + k))).
Proof.
  refine (get_coord_trap_outside_structure_one_peak
            (viz (ramp 10) slope one_spike "CylindricalSurface") "Y" 0 0 0 None
            0%Z 0%Z _ _ slope one_spike 3
            {| peak_heights := [20]%float; prominences := [];
               left_bases := []; right_bases := [] |}
            _ _ _ _ _ _ _ _ _);
    try reflexivity. discriminate.
Defined.

End BoundaryMoreExamples.

(** ** More on the sweep *)

Section SweepMore.
Context `{Numerics} `{Units} {S : Type} `{Simulation S}.

(** What a cell that returns has written, and where. *)
Lemma optimize_cell_writes (yidx : nat) (yout : list float)
    (i : nat) (P1 : float) (j : nat) (P2 : float) (st st' : @sweep S) :
  optimize_cell yidx yout i P1 j P2 st = Ok st' ->
  exists vp x h vf,
    setitem2 (res_pos st) i j vp = Ok (res_pos st') /\
    setitem2 (res_depth st) i j (abs (if (10 <? abs x)%float then 0%float else x))
      = Ok (res_depth st') /\
    setitem2 (res_height st) i j (abs (if (10 <? abs h)%float then 0%float else h))
      = Ok (res_height st') /\
    setitem2 (res_freq st) i j vf = Ok (res_freq st') /\
    sw_simul st' = set_powers [P1; P2] (sw_simul st).
Proof.
  unfold optimize_cell. cbn zeta.
  destruct (column_from _ yidx 0) as [pot|]; cbn [mbind result_bind]; [|discriminate].
  destruct (get_min_trap yout pot None) as [t|]; cbn [mbind result_bind]; [|discriminate].
  destruct (unpack5 t) as [[[[[min_idx min_pos] depth] height] height_idx]|];
    cbn [mbind result_bind]; [|discriminate].
  match goal with
  | |- context [mbind _ ?r] => destruct r as [trap_freq|]; cbn [mbind result_bind]; [|discriminate]
  end.
  destruct (setitem2 (res_pos st) i j _) as [p'|] eqn:Hp; cbn [mbind result_bind]; [|discriminate].
  destruct (setitem2 (res_depth st) i j _) as [d'|] eqn:Hd; cbn [mbind result_bind]; [|discriminate].
  destruct (setitem2 (res_height st) i j _) as [h'|] eqn:Hh; cbn [mbind result_bind]; [|discriminate].
  destruct (setitem2 (res_freq st) i j _) as [f'|] eqn:Hf; cbn [mbind result_bind]; [|discriminate].
  intros [= <-]. cbn. eexists _, _, _, _. repeat split; eassumption.
Qed.

Lemma setitem2_Forall (P : float -> Prop) (g g' : list (list float)) (i j : nat) (v : float) :
  setitem2 g i j v = Ok g' -> Forall (Forall P) g -> P v -> Forall (Forall P) g'.
Proof.
  unfold setitem2. destruct (g !! i) as [row|] eqn:Hrow; [|discriminate].
  case_bool_decide; [|discriminate]. intros [= <-] Hg Hv.
  apply Forall_insert; [exact Hg|]. apply Forall_insert; [|exact Hv].
  exact (proj1 (Forall_lookup _ _) Hg i row Hrow).
Qed.

Lemma zeros_Forall (P : float -> Prop) (n1 n2 : nat) : P 0%float -> Forall (Forall P) (zeros n1 n2).
Proof. intros Hz. unfold zeros. apply Forall_replicate, Forall_replicate, Hz. Qed.

Lemma clip_in_range (x : float) :
  let v := abs (if (10 <? abs x)%float then 0%float else x) in
  is_nan v = true \/ ((0 <=? v)%float = true /\ (v <=? 10)%float = true).
Proof.
  cbn zeta. destruct (10 <? abs x)%float eqn:E.
  - right. split; reflexivity.
  - destruct (is_nan (abs x)) eqn:Hn; [left; reflexivity|right].
    split.
    + apply FlMore.abs_nonneg. rewrite <- FlMore.is_nan_abs. exact Hn.
    + apply FlMore.not_ltb_leb; [reflexivity|exact Hn|exact E].
Qed.

(** X8: the depth and the barrier height grids that [optimize] returns hold
    magnitudes between 0 and 10 only: a value beyond 10 is stored as 0. *)
Theorem optimize_depth_height_clipped (self self' : Viz)
    (ymin Pmin1 Pmax1 Pstep1 Pmin2 Pmax2 Pstep2 : float)
    (pos depth height freq : list (list float)) :
  optimize self ymin Pmin1 Pmax1 Pstep1 Pmin2 Pmax2 Pstep2
    = Ok (self', (pos, depth, height, freq)) ->
  clipped depth /\ clipped height.
Proof.
  unfold optimize, progressbar_enumerate.
  destruct (find_nearest (simul_axis (simul self)) ymin) as [yidx|];
    cbn [mbind result_bind]; [|discriminate].
  set (ok := fun v : float =>
               is_nan v = true \/ ((0 <=? v)%float = true /\ (v <=? 10)%float = true)).
  match goal with
  | |- context [for_enumerate ?body 0 ?l ?st] =>
      destruct (for_enumerate body 0 l st) as [st'|] eqn:Hrun;
      cbn [mbind result_bind]; [|discriminate];
      assert (Forall (Forall ok) (res_depth st') /\ Forall (Forall ok) (res_height st'))
        as [Hd Hh]
  end.
  { revert Hrun.
    apply (for_enumerate_preserves
             (fun st => Forall (Forall ok) (res_depth st) /\ Forall (Forall ok) (res_height st))).
    - split; apply zeros_Forall; right; split; reflexivity.
    - intros i P1 st1 st2 _ Hst1.
      apply (for_enumerate_preserves
               (fun st => Forall (Forall ok) (res_depth st) /\ Forall (Forall ok) (res_height st)));
        [exact Hst1|].
      intros j P2 st3 st4 _ [Hd3 Hh3] Hcell.
      destruct (optimize_cell_writes _ _ _ _ _ _ _ _ Hcell) as (vp & x & h & vf & _ & Hwd & Hwh & _).
      split.
      + apply (setitem2_Forall ok _ _ _ _ _ Hwd Hd3), clip_in_range.
      + apply (setitem2_Forall ok _ _ _ _ _ Hwh Hh3), clip_in_range. }
  intros [= <- <- <- <- <-].
  assert (forall g, Forall (Forall ok) g -> clipped (nan_to_zeros g)) as Hclip.
  { intros g Hg. unfold clipped, nan_to_zeros. apply Forall_fmap.
    eapply Forall_impl; [exact Hg|]. intros row Hrow. cbn. apply Forall_fmap.
    eapply Forall_impl; [exact Hrow|]. intros v Hv. cbn. unfold Np.isnan.
    destruct (is_nan v) eqn:Hn; [split; reflexivity|].
    destruct Hv as [Hv|Hv]; [congruence|exact Hv]. }
  split; apply Hclip; assumption.
Qed.

Lemma sweep_signals_app (n : nat) : forall i,
  sweep_signals i (Datatypes.S n)
  = (if i + n =? 10 then [Benchmark; Progress] else [Progress]) ++ sweep_signals i n.
Proof.
  induction n as [|n IH]; intros i.
  - cbn. rewrite Nat.add_0_r, app_nil_r. reflexivity.
  - change (sweep_signals i (Datatypes.S (Datatypes.S n)))
      with (sweep_signals (Datatypes.S i) (Datatypes.S n)
              ++ (if i =? 10 then [Benchmark; Progress] else [Progress])).
    rewrite IH. replace (Datatypes.S i + n) with (i + Datatypes.S n) by lia.
    rewrite <- app_assoc. reflexivity.
Qed.

Lemma sweep_signals_count (n : nat) : forall i,
  count_signal Progress (sweep_signals i n) = n /\
  count_signal Benchmark (sweep_signals i n)
    = (if (i <=? 10) && (10 <? i + n) then 1 else 0) /\
  count_signal Finished (sweep_signals i n) = 0.
Proof.
  unfold count_signal.
  induction n as [|n IH]; intros i; cbn [sweep_signals].
  - replace ((i <=? 10) && (10 <? i + 0)) with false; [repeat split; reflexivity|].
    destruct (Nat.ltb_spec 10 (i + 0)), (Nat.leb_spec i 10); cbn; try reflexivity; lia.
  - destruct (IH (Datatypes.S i)) as (IHp & IHb & IHf).
    rewrite !List.filter_app, !length_app, IHp, IHb, IHf.
    destruct (Nat.leb_spec (Datatypes.S i) 10), (Nat.ltb_spec 10 (Datatypes.S i + n)),
      (Nat.leb_spec i 10), (Nat.ltb_spec 10 (i + Datatypes.S n)),
      (Nat.eqb_spec i 10); cbn [andb List.filter signal_eqb length];
      repeat split; lia.
Qed.

Lemma optimize_gui_rows_log (yidx : nat) (yout : list float)
    (Prange1 Prange2 : list float) :
  forall i (g g' : gui_sweep),
    for_enumerate (fun i P1 g =>
        g ← for_enumerate (fun j P2 g => optimize_gui_cell yidx yout i P1 j P2 g) 0 Prange2 g;
        let g := {| gs_sweep := gs_sweep g; gs_emitted := Progress :: gs_emitted g |} in
        if i =? 10
        then Ok {| gs_sweep := gs_sweep g; gs_emitted := Benchmark :: gs_emitted g |}
        else Ok g)
      i Prange1 g = Ok g' ->
    gs_emitted g' = sweep_signals i (length Prange1) ++ gs_emitted g.
Proof.
  induction Prange1 as [|P1 Prange1 IH]; intros i g g'; cbn [for_enumerate length sweep_signals].
  - intros [= <-]. reflexivity.
  - rewrite optimize_gui_row_eq.
    destruct (for_enumerate _ 0 Prange2 (gs_sweep g)) as [st|e]; cbn; [|discriminate].
    destruct (i =? 10); cbn; intros Hrest; rewrite (IH _ _ _ Hrest); cbn;
      rewrite <- app_assoc; reflexivity.
Qed.

(** X9: an [optimize_gui] that returns has emitted, after the signals
    emitted before, [_signal] once per row of the sweep, [benchmark] once if
    the sweep has more than ten rows and not at all otherwise, and
    [finished] once, as the last signal. *)
Theorem optimize_gui_signal_log (self self' : Viz)
    (ymin Pmin1 Pmax1 Pstep1 Pmin2 Pmax2 Pstep2 : float) (g : grids) :
  optimize_gui self ymin Pmin1 Pmax1 Pstep1 Pmin2 Pmax2 Pstep2 = Ok (self', g) ->
  let rows := length (arange Pmin1 Pmax1 Pstep1) in
  exists log,
    emitted self' = Finished :: log ++ emitted self /\
    log = sweep_signals 0 rows /\
    count_signal Progress log = rows /\
    count_signal Benchmark log = (if 10 <? rows then 1 else 0) /\
    count_signal Finished log = 0.
Proof.
  unfold optimize_gui.
  destruct (find_nearest (simul_axis (simul self)) ymin) as [yidx|];
    cbn [mbind result_bind]; [|discriminate].
  match goal with
  | |- context [for_enumerate ?body 0 ?l ?st] =>
      destruct (for_enumerate body 0 l st) as [gs|] eqn:Hloop;
      cbn [mbind result_bind]; [|discriminate]
  end.
  intros [= <- <-]. cbn [emitted].
  pose proof (optimize_gui_rows_log _ _ _ _ _ _ _ Hloop) as Hlog.
  rewrite length_reverse in Hlog. cbn [gs_emitted] in Hlog.
  set (rows := length (arange Pmin1 Pmax1 Pstep1)) in *.
  exists (sweep_signals 0 rows). rewrite Hlog.
  destruct (sweep_signals_count rows 0) as (Hp & Hb & Hf).
  repeat split; auto.
Qed.

End SweepMore.

(** ** The sweep, cell by cell *)

Section SweepCells.
Context `{Numerics} `{Units} {S : Type} `{Simulation S}.

(** A cell computes its values and stores them. *)
Lemma optimize_cell_eq (yidx : nat) (yout : list float)
    (i : nat) (P1 : float) (j : nat) (P2 : float) (st : @sweep S) :
  optimize_cell yidx yout i P1 j P2 st
  = (v ← cell_at yidx yout (sw_simul st) P1 P2;
     pos' ← setitem2 (res_pos st) i j v.1.1.1;
     depth' ← setitem2 (res_depth st) i j v.1.1.2;
     height' ← setitem2 (res_height st) i j v.1.2;
     freq' ← setitem2 (res_freq st) i j v.2;
     Ok {| sw_simul := set_powers [P1; P2] (sw_simul st); res_pos := pos';
           res_depth := depth'; res_height := height'; res_freq := freq' |}).
Proof.
  unfold optimize_cell, cell_at, cell_values. cbn zeta.
  destruct (column_from _ yidx 0) as [pot|]; cbn [mbind result_bind]; [|reflexivity].
  destruct (get_min_trap yout pot None) as [t|]; cbn [mbind result_bind]; [|reflexivity].
  destruct (unpack5 t) as [[[[[min_idx min_pos] depth] height] height_idx]|];
    cbn [mbind result_bind]; [|reflexivity].
  match goal with
  | |- context [mbind _ ?r] => destruct r as [trap_freq|]; cbn [mbind result_bind]; reflexivity
  end.
Qed.

Lemma setitem2_entry (g g' : list (list float)) (i j : nat) (v : float) :
  setitem2 g i j v = Ok g' ->
  entry g' i j = Some v /\
  (forall i' j', i' <> i \/ j' <> j -> entry g' i' j' = entry g i' j').
Proof.
  unfold setitem2. destruct (g !! i) as [row|] eqn:Hrow; [|discriminate].
  case_bool_decide as Hj; [|discriminate]. intros [= <-].
  pose proof (lookup_lt_Some _ _ _ Hrow) as Hi.
  split.
  - unfold entry. rewrite list_lookup_insert_eq by lia. cbn.
    apply list_lookup_insert_eq. lia.
  - intros i' j' Hne. unfold entry.
    destruct (decide (i' = i)) as [->|Hi'].
    + rewrite list_lookup_insert_eq by lia. rewrite Hrow. cbn.
      apply list_lookup_insert_ne. destruct Hne; congruence.
    + rewrite list_lookup_insert_ne by congruence. reflexivity.
Qed.

Lemma same_entries_refl (st : @sweep S) (i j : nat) : same_entries st st i j.
Proof. repeat split. Qed.

Lemma same_entries_trans (st1 st2 st3 : @sweep S) (i j : nat) :
  same_entries st1 st2 i j -> same_entries st2 st3 i j -> same_entries st1 st3 i j.
Proof.
  intros (Hp & Hd & Hh & Hf) (Hp' & Hd' & Hh' & Hf').
  repeat split; congruence.
Qed.

Lemma cell_stored_same (yidx : nat) (yout : list float) (s : S) (st st' : @sweep S)
    (i j : nat) (P1 P2 : float) :
  cell_stored yidx yout s st i j P1 P2 -> same_entries st st' i j ->
  cell_stored yidx yout s st' i j P1 P2.
Proof.
  intros (vp & vd & vh & vf & Hv & Hp & Hd & Hh & Hf) (Hp' & Hd' & Hh' & Hf').
  exists vp, vd, vh, vf. repeat split; congruence.
Qed.

Section Memoryless.
Variables (yidx : nat) (yout : list float) (s0 : S).
Hypothesis Hmem : memoryless s0.

Lemma cell_at_memoryless (st : @sweep S) (P1 P2 : float) :
  reached s0 st -> cell_at yidx yout (sw_simul st) P1 P2 = cell_at yidx yout s0 P1 P2.
Proof.
  intros [history ->]. unfold cell_at.
  destruct (Hmem [P1; P2] history) as [-> ->]. reflexivity.
Qed.

(** A cell that returns has stored its values at [(i, j)] and nowhere else. *)
Lemma optimize_cell_stored (i : nat) (P1 : float) (j : nat) (P2 : float) (st st' : @sweep S) :
  reached s0 st ->
  optimize_cell yidx yout i P1 j P2 st = Ok st' ->
  reached s0 st' /\
  cell_stored yidx yout s0 st' i j P1 P2 /\
  (forall i' j', i' <> i \/ j' <> j -> same_entries st st' i' j').
Proof.
  intros Hreach. rewrite optimize_cell_eq, cell_at_memoryless by exact Hreach.
  destruct (cell_at yidx yout s0 P1 P2) as [[[[vp vd] vh] vf]|] eqn:Hv;
    cbn [mbind result_bind fst snd]; [|discriminate].
  destruct (setitem2 (res_pos st) i j vp) as [p'|] eqn:Hp; cbn [mbind result_bind]; [|discriminate].
  destruct (setitem2 (res_depth st) i j vd) as [d'|] eqn:Hd; cbn [mbind result_bind]; [|discriminate].
  destruct (setitem2 (res_height st) i j vh) as [h'|] eqn:Hh; cbn [mbind result_bind]; [|discriminate].
  destruct (setitem2 (res_freq st) i j vf) as [f'|] eqn:Hf; cbn [mbind result_bind]; [|discriminate].
  intros [= <-].
  apply setitem2_entry in Hp as [Hp Hp'], Hd as [Hd Hd'], Hh as [Hh Hh'], Hf as [Hf Hf'].
  split; [|split].
  - destruct Hreach as [history Hs]. exists (history ++ [[P1; P2]]).
    unfold after_powers in *. rewrite foldl_app. cbn. rewrite Hs. reflexivity.
  - exists vp, vd, vh, vf. cbn. repeat split; assumption.
  - intros i' j' Hne. unfold same_entries. cbn. repeat split; auto.
Qed.

(** A row that returns has stored the values of its cells, and has left the
    other rows, and the cells before its start, as they were. *)
Lemma optimize_row_stored (i : nat) (P1 : float) (Prange2 : list float) :
  forall j0 (st st' : @sweep S),
    reached s0 st ->
    for_enumerate (fun j P2 st => optimize_cell yidx yout i P1 j P2 st) j0 Prange2 st = Ok st' ->
    reached s0 st' /\
    (forall k P2, Prange2 !! k = Some P2 -> cell_stored yidx yout s0 st' i (j0 + k) P1 P2) /\
    (forall i' j', i' <> i \/ j' < j0 -> same_entries st st' i' j').
Proof.
  induction Prange2 as [|P2 Prange2 IH]; intros j0 st st' Hreach; cbn [for_enumerate].
  - intros [= <-]. split; [exact Hreach|]. split; [intros k P2 Hk; discriminate Hk|].
    intros i' j' _. apply same_entries_refl.
  - destruct (optimize_cell yidx yout i P1 j0 P2 st) as [st1|] eqn:Hcell;
      cbn [mbind result_bind]; [|discriminate].
    intros Hrest.
    destruct (optimize_cell_stored _ _ _ _ _ _ Hreach Hcell) as (Hreach1 & Hhere & Hother).
    destruct (IH _ _ _ Hreach1 Hrest) as (Hreach' & Hcells & Hsame).
    split; [exact Hreach'|].
    split.
    + intros [|k] Q2 Hk.
      * injection Hk as <-. rewrite Nat.add_0_r.
        apply (cell_stored_same _ _ _ st1); [exact Hhere|]. apply Hsame. right. lia.
      * replace (j0 + Datatypes.S k) with (Datatypes.S j0 + k) by lia.
        apply Hcells. exact Hk.
    + intros i' j' Hne. apply (same_entries_trans _ st1).
      * apply Hother. destruct Hne; [left; assumption|right; lia].
      * apply Hsame. destruct Hne; [left; assumption|right; lia].
Qed.

(** The rows that return have stored the values of all their cells. *)
Lemma optimize_rows_stored (Prange2 : list float) (Prange1 : list float) :
  forall i0 (st st' : @sweep S),
    reached s0 st ->
    for_enumerate (fun i P1 st =>
        for_enumerate (fun j P2 st => optimize_cell yidx yout i P1 j P2 st) 0 Prange2 st)
      i0 Prange1 st = Ok st' ->
    reached s0 st' /\
    (forall k P1 j P2, Prange1 !! k = Some P1 -> Prange2 !! j = Some P2 ->
                       cell_stored yidx yout s0 st' (i0 + k) j P1 P2) /\
    (forall i' j', i' < i0 -> same_entries st st' i' j').
Proof.
  induction Prange1 as [|P1 Prange1 IH]; intros i0 st st' Hreach; cbn [for_enumerate].
  - intros [= <-]. split; [exact Hreach|]. split; [intros k P1 j P2 Hk; discriminate Hk|].
    intros i' j' _. apply same_entries_refl.
  - destruct (for_enumerate _ 0 Prange2 st) as [st1|] eqn:Hrow;
      cbn [mbind result_bind]; [|discriminate].
    intros Hrest.
    destruct (optimize_row_stored _ _ _ _ _ _ Hreach Hrow) as (Hreach1 & Hhere & Hother).
    destruct (IH _ _ _ Hreach1 Hrest) as (Hreach' & Hcells & Hsame).
    split; [exact Hreach'|].
    split.
    + intros [|k] Q1 j Q2 Hk Hj.
      * injection Hk as <-. rewrite Nat.add_0_r.
        apply (cell_stored_same _ _ _ st1); [apply (Hhere j Q2 Hj)|]. apply Hsame. lia.
      * replace (i0 + Datatypes.S k) with (Datatypes.S i0 + k) by lia.
        apply Hcells; assumption.
    + intros i' j' Hlt. apply (same_entries_trans _ st1).
      * apply Hother. left. lia.
      * apply Hsame. lia.
Qed.

End Memoryless.

Lemma entry_fmap (f : float -> float) (g : list (list float)) (i j : nat) :
  entry ((fun row : list float => f <$> row) <$> g) i j = f <$> entry g i j.
Proof.
  unfold entry. rewrite list_lookup_fmap. destruct (g !! i) as [row|]; cbn; [|reflexivity].
  apply list_lookup_fmap.
Qed.

(** A sweep that returns has stored the values of every cell in the state
    its loops end on, from which the grids it returns are made. *)
Lemma optimize_cells (self self' : Viz)
    (ymin Pmin1 Pmax1 Pstep1 Pmin2 Pmax2 Pstep2 : float)
    (pos depth height freq : list (list float)) :
  memoryless (simul self) ->
  optimize self ymin Pmin1 Pmax1 Pstep1 Pmin2 Pmax2 Pstep2
    = Ok (self', (pos, depth, height, freq)) ->
  exists yidx st,
    find_nearest (simul_axis (simul self)) ymin = Ok yidx /\
    pos = imul (nan_to_zeros (res_pos st)) 1e9 /\
    depth = nan_to_zeros (res_depth st) /\
    height = nan_to_zeros (res_height st) /\
    freq = nan_to_zeros (res_freq st) /\
    forall i j P1 P2,
      reverse (arange Pmin1 Pmax1 Pstep1) !! i = Some P1 ->
      arange Pmin2 Pmax2 Pstep2 !! j = Some P2 ->
      cell_stored yidx (Np.slice_from (simul_axis (simul self)) yidx) (simul self) st i j P1 P2.
Proof.
  intros Hmem. unfold optimize, progressbar_enumerate.
  destruct (find_nearest (simul_axis (simul self)) ymin) as [yidx|];
    cbn [mbind result_bind]; [|discriminate].
  match goal with
  | |- context [for_enumerate ?body 0 ?l ?st] =>
      destruct (for_enumerate body 0 l st) as [st'|] eqn:Hrun;
      cbn [mbind result_bind]; [|discriminate]
  end.
  intros [= <- <- <- <- <-]. exists yidx, st'.
  split; [reflexivity|]. split; [reflexivity|]. split; [reflexivity|].
  split; [reflexivity|]. split; [reflexivity|].
  intros i j P1 P2 Hi Hj.
  eapply (optimize_rows_stored yidx _ (simul self) Hmem) in Hrun as (_ & Hcells & _);
    [|exists []; reflexivity].
  exact (Hcells i P1 j P2 Hi Hj).
Qed.

(** X10: when the potential and the atom mass of the simulation depend on
    the powers last set only, the entry [(i, j)] of each grid that [optimize]
    returns is the value of the cell of the powers [(P1, P2)], where [P1] is
    the [i]-th value of the first range taken backwards and [P2] the [j]-th
    value of the second range: no cell is overwritten by another, NaN is
    stored as 0, and positions are multiplied by 1e9. *)
Theorem optimize_cell_by_cell (self self' : Viz)
    (ymin Pmin1 Pmax1 Pstep1 Pmin2 Pmax2 Pstep2 : float)
    (pos depth height freq : list (list float)) :
  memoryless (simul self) ->
  optimize self ymin Pmin1 Pmax1 Pstep1 Pmin2 Pmax2 Pstep2
    = Ok (self', (pos, depth, height, freq)) ->
  exists yidx,
    find_nearest (simul_axis (simul self)) ymin = Ok yidx /\
    forall i j P1 P2,
      reverse (arange Pmin1 Pmax1 Pstep1) !! i = Some P1 ->
      arange Pmin2 Pmax2 Pstep2 !! j = Some P2 ->
      exists vp vd vh vf,
        cell_at yidx (Np.slice_from (simul_axis (simul self)) yidx) (simul self) P1 P2
          = Ok (vp, vd, vh, vf) /\
        entry pos i j = Some (nan_to_zero vp * 1e9)%float /\
        entry depth i j = Some (nan_to_zero vd) /\
        entry height i j = Some (nan_to_zero vh) /\
        entry freq i j = Some (nan_to_zero vf).
Proof.
  intros Hmem Hrun.
  destruct (optimize_cells _ _ _ _ _ _ _ _ _ _ _ _ _ Hmem Hrun)
    as (yidx & st & Hyidx & -> & -> & -> & -> & Hcells).
  exists yidx. split; [exact Hyidx|].
  intros i j P1 P2 Hi Hj.
  destruct (Hcells i j P1 P2 Hi Hj) as (vp & vd & vh & vf & Hv & Hp & Hd & Hh & Hf).
  exists vp, vd, vh, vf. split; [exact Hv|].
  unfold imul, nan_to_zeros. rewrite !entry_fmap, Hp, Hd, Hh, Hf.
  repeat split; reflexivity.
Qed.

(** X11: under the same condition, a cell in whose potential [get_min_trap]
    finds no minimum holds 0 in each of the four grids that [optimize]
    returns. *)
Theorem optimize_no_minimum_zero_cell (self self' : Viz)
    (ymin Pmin1 Pmax1 Pstep1 Pmin2 Pmax2 Pstep2 : float)
    (pos depth height freq : list (list float))
    (yidx i j : nat) (P1 P2 : float) (pot : list float) :
  memoryless (simul self) ->
  optimize self ymin Pmin1 Pmax1 Pstep1 Pmin2 Pmax2 Pstep2
    = Ok (self', (pos, depth, height, freq)) ->
  find_nearest (simul_axis (simul self)) ymin = Ok yidx ->
  reverse (arange Pmin1 Pmax1 Pstep1) !! i = Some P1 ->
  arange Pmin2 Pmax2 Pstep2 !! j = Some P2 ->
  column_from (total_potential (set_powers [P1; P2] (simul self))) yidx 0 = Ok pot ->
  get_min_trap (Np.slice_from (simul_axis (simul self)) yidx) pot None = Ok none_found ->
  entry pos i j = Some 0%float /\ entry depth i j = Some 0%float /\
  entry height i j = Some 0%float /\ entry freq i j = Some 0%float.
Proof.
  intros Hmem Hrun Hyidx Hi Hj Hpot Hnone.
  destruct (optimize_cells _ _ _ _ _ _ _ _ _ _ _ _ _ Hmem Hrun)
    as (yidx' & st & Hyidx' & -> & -> & -> & -> & Hcells).
  rewrite Hyidx in Hyidx'. injection Hyidx' as <-.
  destruct (Hcells i j P1 P2 Hi Hj) as (vp & vd & vh & vf & Hv & Hp & Hd & Hh & Hf).
  unfold cell_at, cell_values in Hv. rewrite Hpot in Hv. cbn [mbind result_bind] in Hv.
  rewrite Hnone in Hv. cbn [mbind result_bind none_found unpack5 Np.isnan_py] in Hv.
  change (Np.isnan Np.nan) with true in Hv. cbn [mbind result_bind] in Hv.
  injection Hv as <- <- <- <-.
  unfold imul, nan_to_zeros. rewrite !entry_fmap, Hp, Hd, Hh, Hf.
  repeat split; reflexivity.
Qed.

(** X12: a sweep over two ranges that are not empty leaves the simulation
    at the powers of its last cell, the first value of the first range and
    the last value of the second; a sweep one of whose ranges is empty leaves
    the simulation as it found it. *)
Theorem optimize_leaves_last_powers (self self' : Viz)
    (ymin Pmin1 Pmax1 Pstep1 Pmin2 Pmax2 Pstep2 : float) (g : grids) :
  optimize self ymin Pmin1 Pmax1 Pstep1 Pmin2 Pmax2 Pstep2 = Ok (self', g) ->
  match head (arange Pmin1 Pmax1 Pstep1), last (arange Pmin2 Pmax2 Pstep2) with
  | Some P1, Some P2 => exists s, simul self' = set_powers [P1; P2] s
  | _, _ => simul self' = simul self
  end.
Proof.
  unfold optimize, progressbar_enumerate.
  destruct (find_nearest (simul_axis (simul self)) ymin) as [yidx|];
    cbn [mbind result_bind]; [|discriminate].
  set (yout := Np.slice_from (simul_axis (simul self)) yidx).
  match goal with
  | |- context [for_enumerate ?body 0 ?l ?st] =>
      destruct (for_enumerate body 0 l st) as [st'|] eqn:Hrun;
      cbn [mbind result_bind]; [|discriminate]
  end.
  intros [= <- <-]. cbn [simul].
  assert (forall i P1 l j (st1 st2 : @sweep S),
            for_enumerate (fun j P2 st => optimize_cell yidx yout i P1 j P2 st) j l st1 = Ok st2 ->
            match last l with
            | Some P2 => exists s, sw_simul st2 = set_powers [P1; P2] s
            | None => sw_simul st2 = sw_simul st1
            end) as Hrow.
  { intros i P1 l. induction l as [|P2 l IH]; intros j st1 st2; cbn [for_enumerate].
    - intros [= <-]. reflexivity.
    - destruct (optimize_cell yidx yout i P1 j P2 st1) as [st3|] eqn:Hcell;
        cbn [mbind result_bind]; [|discriminate].
      intros Hrest. destruct l as [|P2' l].
      + cbn in Hrest. injection Hrest as <-.
        destruct (optimize_cell_writes _ _ _ _ _ _ _ _ Hcell)
          as (_ & _ & _ & _ & _ & _ & _ & _ & ->).
        cbn. eauto.
      + change (last (P2 :: P2' :: l)) with (last (P2' :: l)).
        specialize (IH _ _ _ Hrest).
        destruct (last (P2' :: l)) eqn:Hl; [exact IH|].
        apply last_None in Hl. discriminate Hl. }
  destruct (arange Pmin2 Pmax2 Pstep2) as [|Q2 l2] eqn:Hr2.
  { assert (forall l i (st1 st2 : @sweep S),
              for_enumerate (fun i P1 st =>
                  for_enumerate (fun j P2 st => optimize_cell yidx yout i P1 j P2 st) 0 [] st)
                i l st1 = Ok st2 -> st2 = st1) as Hempty.
    { induction l as [|P1 l IH]; intros i st1 st2; cbn.
      - congruence.
      - apply IH. }
    apply Hempty in Hrun. subst st'. cbn [sw_simul last].
    destruct (head _); reflexivity. }
  destruct (arange Pmin1 Pmax1 Pstep1) as [|Q1 l1] eqn:Hr1.
  { cbn in Hrun. injection Hrun as <-. reflexivity. }
  cbn [head]. remember (Q2 :: l2) as r2 eqn:Er2.
  rewrite reverse_cons, for_enumerate_app in Hrun.
  destruct (for_enumerate _ 0 (reverse l1) _) as [st1|]; cbn [mbind result_bind] in Hrun;
    [|discriminate].
  cbn [for_enumerate] in Hrun.
  destruct (for_enumerate _ 0 r2 st1) as [st2|] eqn:Hlast;
    cbn [mbind result_bind] in Hrun; [|discriminate].
  injection Hrun as <-.
  apply Hrow in Hlast. destruct (last r2) as [P2|] eqn:Hl; [exact Hlast|].
  apply last_None in Hl. congruence.
Qed.

End SweepCells.

(** ** What a cell's failure does to the sweep *)

Section SweepFailures.
Context `{Numerics} `{Units} {S : Type} `{Simulation S}.

(** A loop up to its position [k], the body at [k], and the rest. *)
Lemma for_enumerate_middle {A St : Type} (body : nat -> A -> St -> result St)
    (l : list A) (i k : nat) (x : A) (st : St) :
  l !! k = Some x ->
  for_enumerate body i l st
  = (st1 ← for_enumerate body i (take k l) st;
     st2 ← body (i + k) x st1;
     for_enumerate body (i + Datatypes.S k) (drop (Datatypes.S k) l) st2).
Proof.
  intros Hx. rewrite <- (take_drop_middle l k x Hx) at 1.
  rewrite for_enumerate_app.
  rewrite length_take_le by (apply lookup_lt_Some in Hx; lia).
  destruct (for_enumerate body i (take k l) st) as [st1|]; cbn; [|reflexivity].
  replace (Datatypes.S (i + k)) with (i + Datatypes.S k) by lia. reflexivity.
Qed.

(** A cell that returns has written at [(i, j)] only. *)
Lemma optimize_cell_frame (yidx : nat) (yout : list float)
    (i : nat) (P1 : float) (j : nat) (P2 : float) (st st' : @sweep S) :
  optimize_cell yidx yout i P1 j P2 st = Ok st' ->
  forall i' j', i' <> i \/ j' <> j -> same_entries st st' i' j'.
Proof.
  intros Hcell.
  destruct (optimize_cell_writes _ _ _ _ _ _ _ _ Hcell)
    as (vp & x & h & vf & Hp & Hd & Hh & Hf & _).
  apply setitem2_entry in Hp as [_ Hp], Hd as [_ Hd], Hh as [_ Hh], Hf as [_ Hf].
  intros i' j' Hne. unfold same_entries. auto.
Qed.

Lemma optimize_row_frame (yidx : nat) (yout : list float) (i : nat) (P1 : float)
    (Prange2 : list float) :
  forall j0 (st st' : @sweep S),
    for_enumerate (fun j P2 st => optimize_cell yidx yout i P1 j P2 st) j0 Prange2 st = Ok st' ->
    forall i' j', i' <> i \/ j' < j0 -> same_entries st st' i' j'.
Proof.
  induction Prange2 as [|P2 Prange2 IH]; intros j0 st st'; cbn [for_enumerate].
  - intros [= <-] i' j' _. apply same_entries_refl.
  - destruct (optimize_cell yidx yout i P1 j0 P2 st) as [st1|] eqn:Hcell;
      cbn [mbind result_bind]; [|discriminate].
    intros Hrest i' j' Hne. apply (same_entries_trans _ st1).
    + apply (optimize_cell_frame _ _ _ _ _ _ _ _ Hcell).
      destruct Hne; [left; assumption|right; lia].
    + apply (IH _ _ _ Hrest). destruct Hne; [left; assumption|right; lia].
Qed.

Lemma optimize_rows_frame (yidx : nat) (yout : list float) (Prange2 Prange1 : list float) :
  forall i0 (st st' : @sweep S),
    for_enumerate (fun i P1 st =>
        for_enumerate (fun j P2 st => optimize_cell yidx yout i P1 j P2 st) 0 Prange2 st)
      i0 Prange1 st = Ok st' ->
    forall i' j', i' < i0 -> same_entries st st' i' j'.
Proof.
  induction Prange1 as [|P1 Prange1 IH]; intros i0 st st'; cbn [for_enumerate].
  - intros [= <-] i' j' _. apply same_entries_refl.
  - destruct (for_enumerate _ 0 Prange2 st) as [st1|] eqn:Hrow;
      cbn [mbind result_bind]; [|discriminate].
    intros Hrest i' j' Hlt. apply (same_entries_trans _ st1).
    + apply (optimize_row_frame _ _ _ _ _ _ _ _ Hrow). left. lia.
    + apply (IH _ _ _ Hrest). lia.
Qed.

(** The loops keep the shape of the grids. *)
Lemma optimize_row_shaped (n1 n2 yidx : nat) (yout : list float) (i : nat) (P1 : float)
    (cells : list float) (st st' : @sweep S) :
  i < n1 -> length cells <= n2 -> sweep_shaped n1 n2 st ->
  for_enumerate (fun j P2 st => optimize_cell yidx yout i P1 j P2 st) 0 cells st = Ok st' ->
  sweep_shaped n1 n2 st'.
Proof.
  intros Hi Hlen Hst. apply (for_enumerate_preserves (sweep_shaped n1 n2)); [exact Hst|].
  intros j P2 st1 st2 HP2 Hst1 Hcell. cbn [Nat.add] in Hcell.
  apply lookup_lt_Some in HP2.
  apply (optimize_cell_shaped n1 n2 _ _ i P1 j P2 st1 st2 Hst1 Hi ltac:(lia) Hcell).
Qed.

Lemma optimize_rows_shaped (n1 n2 yidx : nat) (yout : list float)
    (rows cells : list float) (st st' : @sweep S) :
  length rows <= n1 -> length cells <= n2 -> sweep_shaped n1 n2 st ->
  for_enumerate (fun i P1 st =>
      for_enumerate (fun j P2 st => optimize_cell yidx yout i P1 j P2 st) 0 cells st)
    0 rows st = Ok st' ->
  sweep_shaped n1 n2 st'.
Proof.
  intros Hrows Hcells Hst. apply (for_enumerate_preserves (sweep_shaped n1 n2)); [exact Hst|].
  intros i P1 st1 st2 HP1 Hst1 Hrow. cbn [Nat.add] in Hrow.
  apply lookup_lt_Some in HP1.
  apply (optimize_row_shaped n1 n2 yidx yout i P1 cells st1 st2 ltac:(lia) Hcells Hst1 Hrow).
Qed.

(** A cell whose values are computed stores them, whatever they are. *)
Lemma optimize_cell_stores (n1 n2 yidx : nat) (yout : list float)
    (i : nat) (P1 : float) (j : nat) (P2 : float) (st : @sweep S) (vp vd vh vf : float) :
  sweep_shaped n1 n2 st -> i < n1 -> j < n2 ->
  cell_at yidx yout (sw_simul st) P1 P2 = Ok (vp, vd, vh, vf) ->
  exists st', optimize_cell yidx yout i P1 j P2 st = Ok st' /\
              entry (res_freq st') i j = Some vf.
Proof.
  intros Hst Hi Hj Hv. rewrite optimize_cell_eq, Hv. cbn [mbind result_bind fst snd].
  destruct (store_cell n1 n2 st (set_powers [P1; P2] (sw_simul st)) i j vp vd vh vf Hst Hi Hj)
    as (st' & Hstore & _ & _ & Hentry).
  exists st'. split; assumption.
Qed.

(** C5 (amended): [optimize] catches no exception.  A minimum that is not
    found is not a failure of the cell: its frequency is 0 and the sweep goes
    on.  Neither is a value that comes out NaN: the cell stores the frequency
    it computes, NaN included, the sweep goes on, and in the grid that the
    sweep returns that entry is 0 where the frequency was NaN.  An exception
    raised in a cell is not caught: [optimize] raises it, whatever the rows
    and cells completed before, and returns no grid. *)
Theorem optimize_cell_failures (self : Viz)
    (ymin Pmin1 Pmax1 Pstep1 Pmin2 Pmax2 Pstep2 : float) (yidx : nat) :
  let Prange1 := reverse (arange Pmin1 Pmax1 Pstep1) in
  let Prange2 := arange Pmin2 Pmax2 Pstep2 in
  let yout := Np.slice_from (simul_axis (simul self)) yidx in
  let row := fun i P1 st =>
    for_enumerate (fun j P2 st => optimize_cell yidx yout i P1 j P2 st) 0 Prange2 st in
  let start := {| sw_simul := simul self;
                  res_pos := zeros (length Prange1) (length Prange2);
                  res_depth := zeros (length Prange1) (length Prange2);
                  res_height := zeros (length Prange1) (length Prange2);
                  res_freq := zeros (length Prange1) (length Prange2) |} in
  find_nearest (simul_axis (simul self)) ymin = Ok yidx ->
  (forall i P1 j P2 st pot,
     sweep_shaped (length Prange1) (length Prange2) st ->
     i < length Prange1 -> j < length Prange2 ->
     column_from (total_potential (set_powers [P1; P2] (sw_simul st))) yidx 0 = Ok pot ->
     get_min_trap yout pot None = Ok none_found ->
     exists st', optimize_cell yidx yout i P1 j P2 st = Ok st' /\
                 entry (res_freq st') i j = Some 0%float) /\
  (forall i P1 j P2 st_i st_ij vp vd vh vf,
     for_enumerate row 0 (take i Prange1) start = Ok st_i ->
     Prange1 !! i = Some P1 ->
     for_enumerate (fun j P2 st => optimize_cell yidx yout i P1 j P2 st) 0 (take j Prange2) st_i
       = Ok st_ij ->
     Prange2 !! j = Some P2 ->
     cell_at yidx yout (sw_simul st_ij) P1 P2 = Ok (vp, vd, vh, vf) ->
     (exists st', optimize_cell yidx yout i P1 j P2 st_ij = Ok st' /\
                  entry (res_freq st') i j = Some vf) /\
     (forall self' pos depth height freq,
        optimize self ymin Pmin1 Pmax1 Pstep1 Pmin2 Pmax2 Pstep2
          = Ok (self', (pos, depth, height, freq)) ->
        entry freq i j = Some (nan_to_zero vf))) /\
  (forall i P1 j P2 st_i st_ij e,
     for_enumerate row 0 (take i Prange1) start = Ok st_i ->
     Prange1 !! i = Some P1 ->
     for_enumerate (fun j P2 st => optimize_cell yidx yout i P1 j P2 st) 0 (take j Prange2) st_i
       = Ok st_ij ->
     Prange2 !! j = Some P2 ->
     optimize_cell yidx yout i P1 j P2 st_ij = Raise e ->
     optimize self ymin Pmin1 Pmax1 Pstep1 Pmin2 Pmax2 Pstep2 = Raise e).
Proof.
  intros Prange1 Prange2 yout row start Hyidx.
  assert (sweep_shaped (length Prange1) (length Prange2) start) as Hstart.
  { split; [|split; [|split]]; apply zeros_shaped. }
  assert (optimize self ymin Pmin1 Pmax1 Pstep1 Pmin2 Pmax2 Pstep2
          = (st ← for_enumerate row 0 Prange1 start;
             Ok ({| simul := sw_simul st; trapping_axis := trapping_axis self;
                    optim_res := optim_res self; emitted := emitted self |},
                 (imul (nan_to_zeros (res_pos st)) 1e9, nan_to_zeros (res_depth st),
                  nan_to_zeros (res_height st), nan_to_zeros (res_freq st))))) as Hopt.
  { unfold optimize, progressbar_enumerate. rewrite Hyidx. reflexivity. }
  split; [|split].
  - intros i P1 j P2 st pot. apply optimize_cell_not_found.
  - intros i P1 j P2 st_i st_ij vp vd vh vf Hrows HP1 Hcells HP2 Hv.
    pose proof (lookup_lt_Some _ _ _ HP1) as Hi.
    pose proof (lookup_lt_Some _ _ _ HP2) as Hj.
    assert (sweep_shaped (length Prange1) (length Prange2) st_i) as Hst_i.
    { apply (optimize_rows_shaped _ _ yidx yout (take i Prange1) Prange2 start st_i);
        [rewrite length_take; lia|lia|exact Hstart|exact Hrows]. }
    assert (sweep_shaped (length Prange1) (length Prange2) st_ij) as Hst_ij.
    { apply (optimize_row_shaped _ _ yidx yout i P1 (take j Prange2) st_i st_ij);
        [exact Hi|rewrite length_take; lia|exact Hst_i|exact Hcells]. }
    destruct (optimize_cell_stores _ _ yidx yout i P1 j P2 st_ij vp vd vh vf Hst_ij Hi Hj Hv)
      as (st1 & Hcell & Hentry).
    split; [exists st1; split; assumption|].
    intros self' pos depth height freq Hrun. rewrite Hopt in Hrun.
    rewrite (for_enumerate_middle row Prange1 0 i P1 start HP1), Hrows in Hrun.
    cbn [mbind result_bind Nat.add] in Hrun.
    change (row i P1 st_i)
      with (for_enumerate (fun j P2 st => optimize_cell yidx yout i P1 j P2 st) 0 Prange2 st_i)
      in Hrun.
    rewrite (for_enumerate_middle _ Prange2 0 j P2 st_i HP2), Hcells in Hrun.
    cbn [mbind result_bind Nat.add] in Hrun. rewrite Hcell in Hrun.
    cbn [mbind result_bind] in Hrun.
    destruct (for_enumerate _ (Datatypes.S j) (drop (Datatypes.S j) Prange2) st1)
      as [st2|] eqn:Hrest2; cbn [mbind result_bind] in Hrun; [|discriminate].
    destruct (for_enumerate _ (Datatypes.S i) (drop (Datatypes.S i) Prange1) st2)
      as [st3|] eqn:Hrest1; cbn [mbind result_bind] in Hrun; [|discriminate].
    injection Hrun as _ _ _ _ <-.
    destruct (optimize_row_frame _ _ _ _ _ _ _ _ Hrest2 i j ltac:(right; lia))
      as (_ & _ & _ & Hf2).
    destruct (optimize_rows_frame _ _ _ _ _ _ _ Hrest1 i j ltac:(lia)) as (_ & _ & _ & Hf3).
    unfold nan_to_zeros. rewrite entry_fmap, Hf3, Hf2, Hentry. reflexivity.
  - intros i P1 j P2 st_i st_ij e Hrows HP1 Hcells HP2 Hraise.
    rewrite Hopt.
    rewrite (for_enumerate_raise row Prange1 0 i P1 start st_i e Hrows HP1); [reflexivity|].
    cbn [Nat.add]. unfold row.
    apply (for_enumerate_raise _ Prange2 0 j P2 st_i st_ij e Hcells HP2). exact Hraise.
Qed.

End SweepFailures.

(** ** [get_min_trap] and its axis *)

Section MinTrapAxis.
Import Scipy ScipyFacts NpFacts MinTrapFacts Demo Examples.

Lemma ltb_leb_absurd (a b : float) :
  (a <? b)%float = true -> (b <=? a)%float = true -> False.
Proof.
  intros Hlt Hle.
  pose proof (Fl.ltb_leb_trans _ _ _ Hlt Hle) as Haa.
  pose proof (Fl.ltb_leb _ _ Haa) as Hrefl.
  pose proof (FlMore.eqb_not_ltb _ _ (FlMore.leb_antisym_eqb _ _ Hrefl Hrefl)) as Hn.
  congruence.
Qed.

(** X14: [get_min_trap] chooses its minimum from the curve alone: on two
    axes of the length of the curve, and whatever the edge argument, which
    it ignores, it returns "none" on both, or the same index, depth, barrier
    and left base on both, with the position read on each axis at that
    index. *)
Theorem get_min_trap_axis_independent (y y' trap : list float) (e e' : option float) :
  length y = length trap -> length y' = length trap ->
  (get_min_trap y trap e = Ok none_found /\ get_min_trap y' trap e' = Ok none_found) \/
  (exists c p0, get_min_trap y trap e = Ok (found y trap c p0) /\
                get_min_trap y' trap e' = Ok (found y' trap c p0)).
Proof.
  intros Hlen Hlen'.
  destruct (get_min_trap_spec y trap e Hlen)
    as [[Hc Hn]|[(p & Hc & Hp & Hn)|[(p & Hc & Hp & Hf)|(arg & c & p0 & Hm & Hc & Hp0 & Hle & Hlt & Hf)]]];
    destruct (get_min_trap_spec y' trap e' Hlen')
      as [[Hc' Hn']|[(p' & Hc' & Hp' & Hn')|[(p' & Hc' & Hp' & Hf')
                                            |(arg' & c' & p0' & Hm' & Hc' & Hp0' & Hle' & Hlt' & Hf')]]];
    try (left; split; assumption);
    try (rewrite Hc in Hc'; discriminate Hc');
    try (rewrite Hc in Hm'; cbn in Hm'; lia);
    try (rewrite Hc' in Hm; cbn in Hm; lia).
  - rewrite Hc in Hc'. injection Hc' as <-. lia.
  - rewrite Hc in Hc'. injection Hc' as <-. lia.
  - rewrite Hc in Hc'. injection Hc' as <-. right. exists p, p. split; assumption.
  - right. exists c, p0. split; [exact Hf|].
    rewrite Hp0 in Hp0'. injection Hp0' as <-.
    assert (arg = arg') as <-.
    { destruct (Nat.lt_trichotomy arg arg') as [Hlt0|[Heq|Hgt0]]; [|exact Heq|].
      - exfalso. apply (ltb_leb_absurd _ _ (Hlt' arg c Hlt0 Hc)). apply (Hle arg' c' Hc').
      - exfalso. apply (ltb_leb_absurd _ _ (Hlt arg' c' Hgt0 Hc')). apply (Hle' arg c Hc). }
    rewrite Hc in Hc'. injection Hc' as <-. exact Hf'.
Qed.

Lemma get_min_trap_axis_independent_witness :
  (get_min_trap (ramp 29) two_wells None = Ok none_found /\
   get_min_trap (Np.add_scalar (ramp 29) 100) two_wells (Some 3%float) = Ok none_found) \/
  (exists c p0,
     get_min_trap (ramp 29) two_wells None = Ok (found (ramp 29) two_wells c p0) /\
     get_min_trap (Np.add_scalar (ramp 29) 100) two_wells (Some 3%float)
       = Ok (found (Np.add_scalar (ramp 29) 100) two_wells c p0)).
Proof.
  apply (get_min_trap_axis_independent (ramp 29) (Np.add_scalar (ramp 29) 100) two_wells
           None (Some 3%float)); reflexivity.
Defined.

End MinTrapAxis.

(** ** Sample sweeps *)

Section SweepMoreExamples.
Import Demo Examples.

Lemma demo_memoryless (s : state) : memoryless s.
Proof.
  intros powers history.
  assert (st_curve (after_powers s history) = st_curve s) as Hc.
  { revert s. induction history as [|p history IH]; intros s; [reflexivity|].
    change (after_powers s (p :: history)) with (after_powers (set_powers p s) history).
    rewrite IH. reflexivity. }
  split; [|reflexivity].
  change (total_potential (set_powers powers (after_powers s history)))
    with ((fun v => [v]) <$> st_curve (after_powers s history)).
  rewrite Hc. reflexivity.
Qed.

Lemma optimize_depth_height_clipped_witness :
  exists self' pos depth height freq,
    optimize (viz (ramp 11) deep_well [] "NoSurface") 0 0 3 1 0 2 1
      = Ok (self', (pos, depth, height, freq)) /\
    clipped depth /\ clipped height.
Proof.
  destruct (optimize (viz (ramp 11) deep_well [] "NoSurface") 0 0 3 1 0 2 1)
    as [[self' [[[pos depth] height] freq]]|] eqn:Hrun;
    [|vm_compute in Hrun; discriminate Hrun].
  exists self', pos, depth, height, freq. split; [reflexivity|].
  exact (optimize_depth_height_clipped _ _ _ _ _ _ _ _ _ _ _ _ _ Hrun).
Defined.

(** On [deep_well] the depth, 20, and the barrier, 25, are beyond 10: the
    grids hold 0 where a caller may expect them. *)
Example optimize_deep_well :
  (fun r : Viz * grids => (r.2.1.1.1, r.2.1.1.2, r.2.1.2))
    <$> optimize (viz (ramp 11) deep_well [] "NoSurface") 0 0 3 1 0 2 1
  = Ok (imul (replicate 3 (replicate 2 6%float)) 1e9, zeros 3 2, zeros 3 2).
Proof. vm_compute. reflexivity. Qed.

Lemma optimize_gui_signal_log_witness :
  exists self' g log,
    optimize_gui (viz (ramp 11) single_well [] "NoSurface") 0 0 12 1 0 2 1 = Ok (self', g) /\
    emitted self' = Finished :: log ++ [] /\
    log = sweep_signals 0 12 /\
    count_signal Progress log = 12 /\
    count_signal Benchmark log = 1 /\
    count_signal Finished log = 0.
Proof.
  destruct (optimize_gui (viz (ramp 11) single_well [] "NoSurface") 0 0 12 1 0 2 1)
    as [[self' g]|] eqn:Hrun; [|vm_compute in Hrun; discriminate Hrun].
  destruct (optimize_gui_signal_log _ _ _ _ _ _ _ _ _ _ Hrun) as (log & Hlog).
  exists self', g, log. split; [reflexivity|exact Hlog].
Defined.

Lemma optimize_cell_by_cell_witness :
  exists self' pos depth height freq vp vd vh vf,
    optimize (viz (ramp 11) single_well [] "NoSurface") 0 0 3 1 0 2 1
      = Ok (self', (pos, depth, height, freq)) /\
    cell_at 0 (ramp 11) (simul (viz (ramp 11) single_well [] "NoSurface")) 2 1
      = Ok (vp, vd, vh, vf) /\
    entry pos 0 1 = Some (nan_to_zero vp * 1e9)%float /\
    entry depth 0 1 = Some (nan_to_zero vd) /\
    entry height 0 1 = Some (nan_to_zero vh) /\
    entry freq 0 1 = Some (nan_to_zero vf).
Proof.
  destruct (optimize (viz (ramp 11) single_well [] "NoSurface") 0 0 3 1 0 2 1)
    as [[self' [[[pos depth] height] freq]]|] eqn:Hrun;
    [|vm_compute in Hrun; discriminate Hrun].
  destruct (optimize_cell_by_cell _ _ _ _ _ _ _ _ _ _ _ _ _ (demo_memoryless _) Hrun)
    as (yidx & Hy & Hcells).
  vm_compute in Hy. injection Hy as <-.
  destruct (Hcells 0 1 2%float 1%float eq_refl eq_refl) as (vp & vd & vh & vf & Hv).
  exists self', pos, depth, height, freq, vp, vd, vh, vf. split; [reflexivity|exact Hv].
Defined.

Lemma optimize_no_minimum_zero_cell_witness :
  exists self' pos depth height freq,
    optimize (viz (ramp 8) flat [] "NoSurface") 0 0 3 1 0 2 1
      = Ok (self', (pos, depth, height, freq)) /\
    entry pos 2 0 = Some 0%float /\ entry depth 2 0 = Some 0%float /\
    entry height 2 0 = Some 0%float /\ entry freq 2 0 = Some 0%float.
Proof.
  destruct (optimize (viz (ramp 8) flat [] "NoSurface") 0 0 3 1 0 2 1)
    as [[self' [[[pos depth] height] freq]]|] eqn:Hrun;
    [|vm_compute in Hrun; discriminate Hrun].
  exists self', pos, depth, height, freq. split; [reflexivity|].
  refine (optimize_no_minimum_zero_cell _ _ _ _ _ _ _ _ _ _ _ _ _ 0 2 0 0%float 0%float flat
            (demo_memoryless _) Hrun _ _ _ _ _); reflexivity.
Defined.

Lemma optimize_leaves_last_powers_witness :
  exists self' g,
    optimize (viz (ramp 11) single_well [] "NoSurface") 0 0 3 1 0 2 1 = Ok (self', g) /\
    exists s, simul self' = set_powers [0; 1]%float s.
Proof.
  destruct (optimize (viz (ramp 11) single_well [] "NoSurface") 0 0 3 1 0 2 1)
    as [[self' g]|] eqn:Hrun; [|vm_compute in Hrun; discriminate Hrun].
  exists self', g. split; [reflexivity|].
  exact (optimize_leaves_last_powers _ _ _ _ _ _ _ _ _ _ Hrun).
Defined.

Lemma optimize_abort_witness :
  optimize (viz uneven_axis narrow_well [] "NoSurface") (-6) 0 3 1 0 2 1
  = Raise (TypeError "expected non-empty vector for x").
Proof.
  refine (proj2 (proj2 (optimize_cell_failures
                          (viz uneven_axis narrow_well [] "NoSurface") (-6) 0 3 1 0 2 1 0 _))
                0 2%float 0 0%float _ _ _ _ _ _ _ _); reflexivity.
Defined.

(** A frequency that comes out NaN: on [holed_well] the minimum at index 6
    is found, the window of the fit holds a NaN, the frequency of each cell is
    NaN, and the sweep returns, with 0 for these frequencies. *)
Example optimize_nan_frequency_zeroed :
  get_min_trap (ramp 11) holed_well None
    = Ok [PyInt 6; PyFloat 6; PyFloat (-1); PyFloat (-1); PyInt 0] /\
  (fun v : float * float * float * float => is_nan v.2)
    <$> cell_at 0 (ramp 11) (simul (viz (ramp 11) holed_well [] "NoSurface")) 2 0 = Ok true /\
  (fun r : Viz * grids => r.2.2)
    <$> optimize (viz (ramp 11) holed_well [] "NoSurface") 0 0 3 1 0 2 1 = Ok (zeros 3 2).
Proof. vm_compute. repeat split; reflexivity. Qed.

End SweepMoreExamples.

(** ** The script [demo/rawData2d.py] *)

Module RawDataFacts.
Import RawData2d.

Lemma leb_ltb_trans (a b c : float) :
  (a <=? b)%float = true -> (b <? c)%float = true -> (a <? c)%float = true.
Proof.
  intros Hab Hbc.
  destruct (Fl.leb_not_nan _ _ Hab) as [Ha _].
  destruct (Fl.ltb_not_nan _ _ Hbc) as [_ Hc].
  destruct (a <? c)%float eqn:E; [reflexivity|exfalso].
  pose proof (FlMore.not_ltb_leb _ _ Ha Hc E) as Hca.
  pose proof (Fl.leb_trans _ _ _ Hca Hab) as Hcb.
  pose proof (Fl.ltb_leb_trans _ _ _ Hbc Hcb) as Hbb.
  pose proof (Fl.ltb_leb _ _ Hbb) as Hrefl.
  pose proof (FlMore.eqb_not_ltb _ _ (FlMore.leb_antisym_eqb _ _ Hrefl Hrefl)).
  congruence.
Qed.

Lemma mapM_ok {A B} (f : A -> result B) (g : A -> B) (l : list A) :
  Forall (fun x => f x = Ok (g x)) l -> mapM (M := result) f l = Ok (g <$> l).
Proof.
  induction 1 as [|x l Hx _ IH]; cbn; [reflexivity|].
  rewrite Hx. cbn. rewrite IH. reflexivity.
Qed.

(** On an array that holds what its shape announces, the plane of an mf
    state within the shape is selected without raising. *)
Lemma select_last_ok (raw : ndarray3) (k : nat) :
  well_formed raw -> k < (shape3 raw).2 -> select_last raw k = Ok (plane_of raw k).
Proof.
  intros [_ Hrows] Hk. unfold select_last, plane_of.
  rewrite (proj2 (Nat.ltb_lt _ _) Hk).
  apply mapM_ok. eapply Forall_impl; [exact Hrows|].
  intros row [_ Hcells]. cbn beta.
  apply mapM_ok. eapply Forall_impl; [exact Hcells|].
  intros cell Hlen. cbn beta in *. apply NpFacts.getitem_Some, MinTrapFacts.at_Some.
  rewrite Hlen. exact Hk.
Qed.

Lemma plane_of_shaped (raw : ndarray3) (k : nat) :
  well_formed raw -> shaped (shape3 raw).1.1 (shape3 raw).1.2 (plane_of raw k).
Proof.
  intros [Hlen Hrows]. unfold shaped, plane_of. rewrite length_fmap.
  split; [exact Hlen|]. apply Forall_fmap. eapply Forall_impl; [exact Hrows|].
  intros row [Hrow _]. cbn. rewrite length_fmap. exact Hrow.
Qed.

Lemma concat_length (n1 n2 : nat) (g : list (list float)) :
  shaped n1 n2 g -> length (concat g) = n1 * n2.
Proof.
  intros [<- Hrows]. induction Hrows as [|row g Hrow _ IH]; cbn; [reflexivity|].
  rewrite length_app, IH, Hrow. reflexivity.
Qed.

(** Row-major order: the entry [(i, j)] is the entry [i * n2 + j] of the
    flattened grid. *)
Lemma concat_lookup (n2 : nat) (g : list (list float)) :
  Forall (fun row => length row = n2) g ->
  forall i j, j < n2 -> concat g !! (i * n2 + j) = entry g i j.
Proof.
  induction 1 as [|row g Hrow _ IH]; intros i j Hj.
  - unfold entry. cbn. rewrite !lookup_nil. reflexivity.
  - destruct i as [|i]; cbn [concat].
    + rewrite lookup_app_l by (cbn; lia). reflexivity.
    + rewrite lookup_app_r by (cbn; lia).
      replace (Datatypes.S i * n2 + j - length row) with (i * n2 + j) by (cbn; lia).
      rewrite IH by exact Hj. reflexivity.
Qed.

Lemma entry_lt (n1 n2 : nat) (g : list (list float)) (i j : nat) (w : float) :
  shaped n1 n2 g -> entry g i j = Some w -> i < n1 /\ j < n2.
Proof.
  intros [<- Hrows]. unfold entry. destruct (g !! i) as [row|] eqn:Hrow; [|discriminate].
  cbn. intros Hj. split; [eapply lookup_lt_Some, Hrow|].
  rewrite <- (proj1 (Forall_lookup _ _) Hrows i row Hrow). eapply lookup_lt_Some, Hj.
Qed.

Lemma no_nan_concat (g : list (list float)) :
  no_nan g -> Forall (fun w => is_nan w = false) (concat g).
Proof.
  induction 1 as [|row g Hrow _ IH]; cbn; [constructor|].
  apply Forall_app. split; assumption.
Qed.

(** The scan of [np.min] on samples that are not NaN ends on one of them,
    or on the running minimum it started from, and on nothing higher. *)
Lemma min_scan_spec (a : list float) : forall acc,
  is_nan acc = false ->
  Forall (fun w => is_nan w = false) a ->
  (min_scan acc a = acc \/ min_scan acc a ∈ a) /\
  (min_scan acc a <=? acc)%float = true /\
  Forall (fun w => (min_scan acc a <=? w)%float = true) a.
Proof.
  induction a as [|x a IH]; intros acc Hacc Hall; cbn [min_scan].
  - split; [left; reflexivity|]. split; [apply Fl.leb_refl, Hacc|constructor].
  - apply Forall_cons in Hall as [Hx Hall]. unfold Np.isnan. rewrite Hacc, orb_false_r.
    destruct (acc <=? x)%float eqn:E.
    + destruct (IH acc Hacc Hall) as (Hin & Hle & Hrest).
      split; [destruct Hin; [left; assumption|right; apply list_elem_of_further; assumption]|].
      split; [exact Hle|].
      constructor; [|exact Hrest]. eapply Fl.leb_trans; eassumption.
    + destruct (IH x Hx Hall) as (Hin & Hle & Hrest).
      split.
      { right. destruct Hin as [->|Hin];
          [apply list_elem_of_here|apply list_elem_of_further, Hin]. }
      split; [|constructor; assumption].
      eapply Fl.leb_trans; [exact Hle|]. apply Fl.ltb_leb, Fl.not_leb_ltb; assumption.
Qed.

Lemma np_min_spec (a : list float) :
  a <> [] -> Forall (fun w => is_nan w = false) a ->
  exists m, np_min a = Ok m /\ m ∈ a /\ Forall (fun w => (m <=? w)%float = true) a.
Proof.
  destruct a as [|x a]; [congruence|]. intros _ Hall.
  apply Forall_cons in Hall as [Hx Hall].
  destruct (min_scan_spec a x Hx Hall) as (Hin & Hle & Hrest).
  exists (min_scan x a). split; [reflexivity|]. split.
  - destruct Hin as [->|Hin]; [apply list_elem_of_here|apply list_elem_of_further, Hin].
  - constructor; assumption.
Qed.

End RawDataFacts.

Section RawDataScript.
Import RawData2d RawDataFacts.

(** X15: on a potential that holds what its shape announces, with more than
    100 rows, a column and an mf state at least, and no NaN in the plane of
    the first mf state, the script prints the lowest value of the plane, a
    position within the plane where the plane holds that value, the first
    such position in row-major order, and, for the row of index 100, a value of
    that row that is not below the lowest value of the plane. *)
Theorem main_prints_minimum (raw : ndarray3) (n1 n2 n3 : nat) :
  well_formed raw -> shape3 raw = (n1, n2, n3) ->
  100 < n1 -> 0 < n2 -> 0 < n3 ->
  no_nan (plane_of raw 0) ->
  exists m r c v2,
    main raw = Ok (m, (r, c), v2) /\
    r < n1 /\ c < n2 /\
    (exists w, entry (plane_of raw 0) r c = Some w /\ (w =? m)%float = true) /\
    (forall i j w, entry (plane_of raw 0) i j = Some w ->
       (m <=? w)%float = true /\
       (i < r \/ (i = r /\ j < c) -> (m <? w)%float = true)) /\
    (exists j, entry (plane_of raw 0) 100 j = Some v2) /\
    (m <=? v2)%float = true.
Proof.
  intros Hwf Hshape H100 Hn2 Hn3 Hnn.
  pose proof (plane_of_shaped raw 0 Hwf) as Hsh. rewrite Hshape in Hsh. cbn [fst snd] in Hsh.
  set (plane := plane_of raw 0) in *.
  pose proof (concat_length _ _ _ Hsh) as Hclen.
  pose proof (no_nan_concat _ Hnn) as Hcnn.
  assert (concat plane <> []) as Hne.
  { intros Heq. rewrite Heq in Hclen. cbn in Hclen. nia. }
  destruct (np_min_spec _ Hne Hcnn) as (m & Hm & Hmin & Hmle).
  destruct (NpFacts.argmin_spec _ Hne Hcnn) as (arg & v & Harg & Hv & Hvle & Hvlt).
  pose proof (lookup_lt_Some _ _ _ Hv) as Harglt. rewrite Hclen in Harglt.
  assert ((v =? m)%float = true) as Hvm.
  { apply FlMore.leb_antisym_eqb.
    - apply list_elem_of_lookup_1 in Hmin as [k Hk]. exact (Hvle k m Hk).
    - exact (proj1 (Forall_lookup _ _) Hmle arg v Hv). }
  destruct Hsh as [Hlen Hrows].
  destruct (lookup_lt_is_Some_2 plane 100) as [row Hrow]; [lia|].
  pose proof (proj1 (Forall_lookup _ _) Hrows 100 row Hrow) as Hrowlen. cbn beta in Hrowlen.
  assert (Forall (fun w => is_nan w = false) row) as Hrownn
    by exact (proj1 (Forall_lookup _ _) Hnn 100 row Hrow).
  assert (row <> []) as Hrowne by (intros ->; cbn in Hrowlen; lia).
  destruct (np_min_spec _ Hrowne Hrownn) as (v2 & Hv2 & Hv2in & _).
  apply list_elem_of_lookup_1 in Hv2in as [j2 Hj2].
  pose proof (Nat.div_mod_eq arg n2) as Hdm.
  pose proof (Nat.mod_upper_bound arg n2 ltac:(lia)) as Hc.
  assert (arg / n2 < n1) as Hr by (apply Nat.Div0.div_lt_upper_bound; lia).
  assert (arg = arg / n2 * n2 + arg mod n2) as Hargeq by lia.
  exists m, (arg / n2), (arg mod n2), v2.
  split.
  { unfold main. cbn zeta.
    rewrite (select_last_ok raw 0 Hwf) by (rewrite Hshape; exact Hn3).
    fold plane. cbn [mbind result_bind]. rewrite Hm. cbn [mbind result_bind].
    rewrite Harg. cbn [mbind result_bind].
    unfold unravel_index. rewrite Hshape. cbn [fst snd].
    rewrite (proj2 (Nat.ltb_lt _ _) Harglt). cbn [mbind result_bind].
    rewrite (NpFacts.getitem_Some _ _ _ Hrow). cbn [mbind result_bind].
    rewrite Hv2. reflexivity. }
  split; [exact Hr|]. split; [exact Hc|].
  split.
  { exists v. split; [|exact Hvm].
    rewrite <- (concat_lookup n2 plane Hrows _ _ Hc), <- Hargeq. exact Hv. }
  split.
  { intros i j w Hw.
    destruct (entry_lt n1 n2 plane i j w (conj Hlen Hrows) Hw) as [Hi Hj].
    rewrite <- (concat_lookup n2 plane Hrows i j Hj) in Hw.
    split.
    - exact (proj1 (Forall_lookup _ _) Hmle _ w Hw).
    - intros Hbefore.
      apply (leb_ltb_trans m v w).
      + apply FlMore.eqb_leb, FlMore.eqb_sym, Hvm.
      + apply (Hvlt (i * n2 + j)); [|exact Hw]. rewrite Hargeq at 1.
        destruct Hbefore as [Hlt|[-> Hlt]]; nia. }
  split.
  { exists j2. unfold entry. rewrite Hrow. exact Hj2. }
  assert (concat plane !! (100 * n2 + j2) = Some v2) as Hflat.
  { rewrite (concat_lookup n2 plane Hrows) by (rewrite <- Hrowlen; eapply lookup_lt_Some, Hj2).
    unfold entry. rewrite Hrow. exact Hj2. }
  exact (proj1 (Forall_lookup _ _) Hmle _ v2 Hflat).
Qed.

Lemma main_prints_minimum_witness :
  exists m r c v2,
    main sample = Ok (m, (r, c), v2) /\
    r < 101 /\ c < 2 /\
    (exists w, entry (plane_of sample 0) r c = Some w /\ (w =? m)%float = true) /\
    (forall i j w, entry (plane_of sample 0) i j = Some w ->
       (m <=? w)%float = true /\
       (i < r \/ (i = r /\ j < c) -> (m <? w)%float = true)) /\
    (exists j, entry (plane_of sample 0) 100 j = Some v2) /\
    (m <=? v2)%float = true.
Proof.
  apply (main_prints_minimum sample 101 2 1); try lia; try reflexivity.
  - split; [reflexivity|]. unfold sample. cbn [data3 shape3 fst snd].
    repeat (apply Forall_app; split); try apply Forall_replicate;
      repeat (constructor; try reflexivity).
  - unfold no_nan, plane_of, sample. cbn [data3].
    rewrite !fmap_app, !fmap_replicate.
    repeat (apply Forall_app; split); try apply Forall_replicate;
      repeat (constructor; try reflexivity).
Defined.

(** What the script prints on [sample]: the lowest value, -3, is met at
    (50, 1) and at (51, 0); the position printed is the first. *)
Example main_sample : main sample = Ok ((-3)%float, (50, 1), (-1)%float).
Proof. vm_compute. reflexivity. Qed.

(** X16: on a potential that holds what its shape announces and has an mf
    state, the script raises [IndexError] at [data_2d[100, :]] when the plane
    has entries but 100 rows or fewer, whatever these entries, and the
    [ValueError] of [np.min] when the plane has no entry. *)
Theorem main_raises_on_small_plane (raw : ndarray3) (n1 n2 n3 : nat) :
  well_formed raw -> shape3 raw = (n1, n2, n3) -> 0 < n3 ->
  (n1 * n2 = 0 ->
   main raw = Raise (ValueError "zero-size array to reduction operation minimum which has no identity")) /\
  (0 < n1 * n2 -> n1 <= 100 -> main raw = Raise IndexError).
Proof.
  intros Hwf Hshape Hn3.
  pose proof (plane_of_shaped raw 0 Hwf) as Hsh. rewrite Hshape in Hsh. cbn [fst snd] in Hsh.
  pose proof (concat_length _ _ _ Hsh) as Hclen.
  unfold main. cbn zeta.
  rewrite (select_last_ok raw 0 Hwf) by (rewrite Hshape; exact Hn3).
  cbn [mbind result_bind]. split.
  - intros Hzero. rewrite Hzero in Hclen.
    destruct (concat (plane_of raw 0)); [reflexivity|discriminate].
  - intros Hpos Hle.
    assert (concat (plane_of raw 0) <> []) as Hne.
    { intros Heq. rewrite Heq in Hclen. cbn in Hclen. lia. }
    destruct (NpFacts.argmin_nonempty _ Hne) as [arg Harg].
    pose proof (NpFacts.argmin_lt _ _ Harg) as Harglt. rewrite Hclen in Harglt.
    rewrite Harg. destruct (concat (plane_of raw 0)) as [|x a]; [congruence|].
    cbn [np_min mbind result_bind].
    unfold unravel_index. rewrite Hshape. cbn [fst snd].
    rewrite (proj2 (Nat.ltb_lt _ _) Harglt). cbn [mbind result_bind].
    unfold Np.getitem. destruct Hsh as [Hlen _].
    rewrite lookup_ge_None_2 by lia. reflexivity.
Qed.

Lemma main_raises_on_small_plane_witness :
  (3 * 2 = 0 ->
   main short_sample
     = Raise (ValueError "zero-size array to reduction operation minimum which has no identity")) /\
  (0 < 3 * 2 -> 3 <= 100 -> main short_sample = Raise IndexError).
Proof.
  apply (main_raises_on_small_plane short_sample 3 2 1); try lia; try reflexivity.
  split; [reflexivity|]. repeat (constructor; try reflexivity).
Defined.

End RawDataScript.

(** ** The distance between the minima *)

Module DistanceFacts.
Import Scipy ScipyFacts PeakFacts.

Lemma select_lookup {A} (a : list A) : forall keep i v,
  select a keep !! i = Some v ->
  exists j, a !! j = Some v /\ keep !! j = Some true.
Proof.
  induction a as [|p a IH]; intros [|k keep] i v; cbn [select];
    try (rewrite lookup_nil; discriminate).
  destruct k.
  - destruct i as [|i]; cbn.
    + intros [= <-]. exists 0. split; reflexivity.
    + intros Hv. destruct (IH _ _ _ Hv) as (j & Hj & Hk). exists (Datatypes.S j). auto.
  - intros Hv. destruct (IH _ _ _ Hv) as (j & Hj & Hk). exists (Datatypes.S j). auto.
Qed.

(** A selection keeps the order of what it selects. *)
Lemma select_pair {A} (a : list A) : forall keep i i' u v,
  i < i' -> select a keep !! i = Some u -> select a keep !! i' = Some v ->
  exists j j', j < j' /\ a !! j = Some u /\ keep !! j = Some true /\
               a !! j' = Some v /\ keep !! j' = Some true.
Proof.
  induction a as [|p a IH]; intros [|k keep] i i' u v Hlt; cbn [select];
    try (rewrite lookup_nil; discriminate).
  assert (forall i i' u v, i < i' ->
            select a keep !! i = Some u -> select a keep !! i' = Some v ->
            exists j j', j < j' /\ (p :: a) !! j = Some u /\ (k :: keep) !! j = Some true /\
                         (p :: a) !! j' = Some v /\ (k :: keep) !! j' = Some true) as Htail.
  { intros i0 i0' u0 v0 Hlt0 Hu Hv.
    destruct (IH _ _ _ _ _ Hlt0 Hu Hv) as (j & j' & Hjj & Hj).
    exists (Datatypes.S j), (Datatypes.S j'). split; [lia|exact Hj]. }
  destruct k; [|apply Htail; exact Hlt].
  destruct i as [|i], i' as [|i']; try lia; cbn.
  - intros [= <-] Hv. destruct (select_lookup _ _ _ _ Hv) as (j' & Hj' & Hk').
    exists 0, (Datatypes.S j'). split; [lia|]. auto.
  - apply Htail. lia.
Qed.

Lemma far_apart_select (d : nat) (a : list nat) (keep : list bool) :
  far_apart d a -> far_apart d (select a keep).
Proof.
  intros Ha i i' u v Hlt Hu Hv.
  destruct (select_pair _ _ _ _ _ _ Hlt Hu Hv) as (j & j' & Hjj & Hj & _ & Hj' & _).
  exact (Ha j j' u v Hjj Hj Hj').
Qed.

Lemma argsort_insert_elem (priority : list float) (j k : nat) (sorted : list nat) :
  k ∈ argsort_insert priority j sorted <-> k = j \/ k ∈ sorted.
Proof.
  induction sorted as [|k0 sorted IH]; cbn [argsort_insert].
  - rewrite list_elem_of_singleton, elem_of_nil. tauto.
  - destruct (_ <? _)%float.
    + rewrite elem_of_cons. tauto.
    + rewrite !elem_of_cons, IH. tauto.
Qed.

(** [np.argsort] lists the positions of its argument, and nothing else. *)
Lemma argsort_elem (priority : list float) (j : nat) :
  j ∈ argsort priority <-> j < length priority.
Proof.
  unfold argsort.
  assert (forall l acc k,
            k ∈ foldl (fun sorted j => argsort_insert priority j sorted) acc l
            <-> k ∈ acc \/ k ∈ l) as Hfold.
  { induction l as [|x l IH]; intros acc k; cbn [foldl].
    - rewrite elem_of_nil. tauto.
    - rewrite IH, argsort_insert_elem, elem_of_cons. tauto. }
  rewrite Hfold, elem_of_nil, elem_of_seq. lia.
Qed.

Section Distance.
Variables (peaks : list nat) (distance : nat).
Hypothesis Hinc : increasing peaks.

Lemma peak_at_lt (j k : nat) : j < k -> k < length peaks -> peak_at peaks j < peak_at peaks k.
Proof.
  intros Hjk Hk. unfold peak_at.
  destruct (lookup_lt_is_Some_2 peaks j) as [a Ha]; [lia|].
  destruct (lookup_lt_is_Some_2 peaks k) as [b Hb]; [lia|].
  rewrite Ha, Hb. cbn. exact (Hinc j k a b Hjk Ha Hb).
Qed.

Lemma insert_false_true (keep : list bool) (k k' : nat) :
  <[k := false]> keep !! k' = Some true -> keep !! k' = Some true.
Proof.
  destruct (decide (k' = k)) as [->|Hne].
  - destruct (decide (k < length keep)).
    + rewrite list_lookup_insert_eq by assumption. discriminate.
    + rewrite list_insert_ge by lia. auto.
  - rewrite list_lookup_insert_ne by congruence. auto.
Qed.

(** The scan towards the earlier peaks drops those closer than [distance],
    and no other. *)
Lemma flag_earlier_spec (j : nat) : forall k1 keep,
  k1 <= j -> j < length peaks -> length keep = length peaks ->
  length (flag_earlier peaks j k1 distance keep) = length peaks /\
  (forall k, flag_earlier peaks j k1 distance keep !! k = Some true -> keep !! k = Some true) /\
  (forall k, k1 <= k -> flag_earlier peaks j k1 distance keep !! k = keep !! k) /\
  (forall k, k < k1 -> peak_at peaks j < peak_at peaks k + distance ->
             flag_earlier peaks j k1 distance keep !! k = Some false).
Proof.
  induction k1 as [|k IH]; intros keep Hk1 Hj Hlen; cbn [flag_earlier].
  - repeat split; auto. intros k Hk. lia.
  - fold (peak_at peaks j) (peak_at peaks k). destruct (peak_at peaks j - peak_at peaks k <? distance) eqn:E.
    + destruct (IH (<[k := false]> keep) ltac:(lia) Hj) as (Hl & Hmono & Hsame & Hflag).
      { rewrite length_insert. exact Hlen. }
      split; [exact Hl|]. split; [|split].
      * intros k' Hk'. apply (insert_false_true keep k k'), Hmono, Hk'.
      * intros k' Hk'. rewrite Hsame by lia. apply list_lookup_insert_ne. lia.
      * intros k' Hk' Hclose. destruct (decide (k' = k)) as [->|Hne].
        -- rewrite Hsame by lia. apply list_lookup_insert_eq. lia.
        -- apply Hflag; [lia|exact Hclose].
    + apply Nat.ltb_ge in E.
      repeat split; auto. intros k' Hk' Hclose. exfalso.
      assert (peak_at peaks k' <= peak_at peaks k) as Hle.
      { destruct (decide (k' = k)) as [->|Hne]; [lia|].
        pose proof (peak_at_lt k' k ltac:(lia) ltac:(lia)). lia. }
      pose proof (peak_at_lt k j ltac:(lia) Hj). lia.
Qed.

(** The scan towards the later peaks does the same. *)
Lemma flag_later_spec (j : nat) : forall fuel k keep,
  j < k -> length peaks <= fuel + k -> length keep = length peaks ->
  length (flag_later fuel peaks j k distance keep) = length peaks /\
  (forall k', flag_later fuel peaks j k distance keep !! k' = Some true ->
              keep !! k' = Some true) /\
  (forall k', k' < k -> flag_later fuel peaks j k distance keep !! k' = keep !! k') /\
  (forall k', k <= k' -> k' < length peaks -> peak_at peaks k' < peak_at peaks j + distance ->
              flag_later fuel peaks j k distance keep !! k' = Some false).
Proof.
  induction fuel as [|fuel IH]; intros k keep Hjk Hfuel Hlen; cbn [flag_later].
  - repeat split; auto. intros k' Hk' Hlt. lia.
  - fold (peak_at peaks j) (peak_at peaks k).
    destruct ((k <? length peaks) && (peak_at peaks k - peak_at peaks j <? distance)) eqn:E.
    + apply andb_true_iff in E as [Ek Ed]. apply Nat.ltb_lt in Ek.
      destruct (IH (Datatypes.S k) (<[k := false]> keep) ltac:(lia) ltac:(lia))
        as (Hl & Hmono & Hsame & Hflag).
      { rewrite length_insert. exact Hlen. }
      split; [exact Hl|]. split; [|split].
      * intros k' Hk'. apply (insert_false_true keep k k'), Hmono, Hk'.
      * intros k' Hk'. rewrite Hsame by lia. apply list_lookup_insert_ne. lia.
      * intros k' Hk' Hlt Hclose. destruct (decide (k' = k)) as [->|Hne].
        -- rewrite Hsame by lia. apply list_lookup_insert_eq. lia.
        -- apply Hflag; [lia|exact Hlt|exact Hclose].
    + repeat split; auto. intros k' Hk' Hlt Hclose. exfalso.
      apply andb_false_iff in E as [E|E].
      * apply Nat.ltb_ge in E. lia.
      * apply Nat.ltb_ge in E.
        assert (peak_at peaks k <= peak_at peaks k') as Hle.
        { destruct (decide (k' = k)) as [->|Hne]; [lia|].
          pose proof (peak_at_lt k k' ltac:(lia) Hlt). lia. }
        pose proof (peak_at_lt j k Hjk ltac:(lia)). lia.
Qed.

(** After the visit of the positions of [order], a position of [order] that
    is kept has no kept position close to it. *)
Lemma visit_spec (order : list nat) : forall keep,
  Forall (fun j => j < length peaks) order ->
  length keep = length peaks ->
  let kept :=
    foldl (fun keep j =>
             if default false (keep !! j)
             then flag_later (length peaks) peaks j (Datatypes.S j) distance
                    (flag_earlier peaks j j distance keep)
             else keep) keep order in
  length kept = length peaks /\
  (forall k, kept !! k = Some true -> keep !! k = Some true) /\
  (forall j k, j ∈ order -> kept !! j = Some true -> k < length peaks ->
               close peaks distance j k ->
               kept !! k = Some false).
Proof.
  induction order as [|j order IH]; intros keep Horder Hlen; cbn [foldl].
  - cbn zeta. repeat split; auto. intros j k Hj. apply elem_of_nil in Hj. destruct Hj.
  - apply Forall_cons in Horder as [Hj Horder].
    set (keep1 := if default false (keep !! j)
                  then flag_later (length peaks) peaks j (Datatypes.S j) distance
                         (flag_earlier peaks j j distance keep)
                  else keep).
    destruct (flag_earlier_spec j j keep ltac:(lia) Hj Hlen) as (Hel & Hemono & Hesame & Heflag).
    destruct (flag_later_spec j (length peaks) (Datatypes.S j)
                (flag_earlier peaks j j distance keep) ltac:(lia) ltac:(lia) Hel)
      as (Hll & Hlmono & Hlsame & Hlflag).
    assert (length keep1 = length peaks) as Hlen1.
    { unfold keep1. destruct (default false (keep !! j)); assumption. }
    assert (forall k, keep1 !! k = Some true -> keep !! k = Some true) as Hmono1.
    { unfold keep1. destruct (default false (keep !! j)); [|auto].
      intros k Hk. apply Hemono, Hlmono, Hk. }
    assert (keep !! j = Some true -> forall k, k < length peaks -> close peaks distance j k ->
            keep1 !! k = Some false) as Hflag1.
    { intros Hkj k Hk (Hne & Hc1 & Hc2). unfold keep1. rewrite Hkj. cbn [default].
      destruct (Nat.lt_total k j) as [Hlt|[Heq|Hgt]]; [|congruence|].
      - rewrite Hlsame by lia. apply Heflag; [exact Hlt|exact Hc1].
      - apply Hlflag; [lia|exact Hk|exact Hc2]. }
    destruct (IH keep1 Horder Hlen1) as (Hl & Hmono & Hflag).
    cbn zeta in *. fold keep1.
    split; [exact Hl|]. split; [intros k Hk; apply Hmono1, Hmono, Hk|].
    intros j0 k Hj0 Hkept Hk Hclose.
    apply elem_of_cons in Hj0 as [->|Hj0]; [|exact (Hflag j0 k Hj0 Hkept Hk Hclose)].
    pose proof (Hflag1 (Hmono1 _ (Hmono _ Hkept)) k Hk Hclose) as Hk1.
    destruct (lookup_lt_is_Some_2 _ k ltac:(rewrite Hl; exact Hk)) as [b Hb].
    rewrite Hb. destruct b; [|reflexivity].
    apply Hmono in Hb. congruence.
Qed.

(** The peaks that [_select_by_peak_distance] keeps are at least [distance]
    apart. *)
Lemma select_by_peak_distance_far (priority : list float) :
  length priority = length peaks ->
  far_apart distance (select peaks (select_by_peak_distance peaks priority distance)).
Proof.
  intros Hlen i i' a b Hlt Ha Hb.
  destruct (select_pair _ _ _ _ _ _ Hlt Ha Hb) as (j & j' & Hjj & Hj & Hkj & Hj' & Hkj').
  pose proof (lookup_lt_Some _ _ _ Hj) as Hjn.
  pose proof (lookup_lt_Some _ _ _ Hj') as Hjn'.
  unfold select_by_peak_distance in Hkj, Hkj'.
  destruct (visit_spec (reverse (argsort priority)) (replicate (length peaks) true))
    as (_ & _ & Hflag).
  { apply Forall_forall. intros k Hk. apply elem_of_reverse, argsort_elem in Hk. lia. }
  { apply length_replicate. }
  cbn zeta in Hflag.
  pose proof (peak_at_lt j j' Hjj Hjn') as Hpk.
  assert (peak_at peaks j = a) as Hpa by (unfold peak_at; rewrite Hj; reflexivity).
  assert (peak_at peaks j' = b) as Hpb by (unfold peak_at; rewrite Hj'; reflexivity).
  destruct (decide (a + distance <= b)) as [Hfar|Hnear]; [exact Hfar|exfalso].
  assert (close peaks distance j j') as Hclose by (unfold close; lia).
  pose proof (Hflag j j' ltac:(apply elem_of_reverse, argsort_elem; lia) Hkj Hjn' Hclose).
  congruence.
Qed.

End Distance.

End DistanceFacts.

Section MinTrapDistance.
Import Scipy ScipyFacts PeakFacts DistanceFacts.

(** X17: the minima among which [get_min_trap] chooses are at least 10
    samples apart: of two local minima closer than that, [find_peaks] keeps
    one at most. *)
Theorem get_min_trap_candidates_ten_apart (trap : list float) :
  far_apart 10 (candidates trap).
Proof.
  unfold candidates, find_peaks. case_bool_decide; [discriminate|]. cbn zeta. cbn [fst].
  apply far_apart_select, select_by_peak_distance_far.
  - apply local_maxima_loop_increasing.
  - apply length_fmap.
Qed.

Lemma get_min_trap_candidates_ten_apart_witness : 8 + 10 <= 22.
Proof.
  apply (get_min_trap_candidates_ten_apart Examples.two_wells 0 1 8 22);
    [lia | reflexivity | reflexivity].
Defined.

End MinTrapDistance.
